(** * Baidu hot-search scraper: extraction, snapshot and entry point

    A shallow embedding of [scripts/fetch_baidu_hotsearch.py].

    - Python [str] values are lists of Unicode code points ([N]); a lone
      surrogate is a legal element of a [str], as it is in Python.
    - Python [int] values are [Z].
    - The document tree BeautifulSoup hands to the extractor is the
      inductive type [PageElement]; the markup parser itself is a library
      and enters as a function from text to tree.
    - The network, the clock and the faults of the filesystem are the fields
      of an environment record; files, directories and the two output
      streams are the state threaded through [save_results] and [main]. *)

From Stdlib Require Import ZArith NArith List Bool Lia String Ascii.
From Stdlib Require Import Sorting.Sorted Sorting.Permutation.
From stdpp Require Import base option list gmap.
Import ListNotations.

Set Warnings "-register-all".

Local Open Scope N_scope.

(** ** Text *)

Abbreviation char := N (only parsing).
Abbreviation str := (list N) (only parsing).

(** A Python string literal (ASCII source text). *)
Definition pystr (s : string) : str :=
  List.map N_of_ascii (list_ascii_of_string s).

(** [str.isspace] on one code point (CPython's [_PyUnicode_IsWhitespace]). *)
Definition Py_UNICODE_ISSPACE (c : char) : bool :=
  ((9 <=? c) && (c <=? 13)) || ((28 <=? c) && (c <=? 32))
  || (c =? 133) || (c =? 160) || (c =? 5760)
  || ((8192 <=? c) && (c <=? 8202))
  || (c =? 8232) || (c =? 8233) || (c =? 8239) || (c =? 8287)
  || (c =? 12288).

(** The C locale's [isspace], used by the integer parser on the
    transliterated buffer. *)
Definition Py_ISSPACE (c : char) : bool :=
  ((9 <=? c) && (c <=? 13)) || (c =? 32).

Fixpoint lstrip (s : str) : str :=
  match s with
  | [] => []
  | c :: r => if Py_UNICODE_ISSPACE c then lstrip r else s
  end.

Definition rstrip (s : str) : str := rev (lstrip (rev s)).

(** [s.strip()] *)
Definition strip (s : str) : str := rstrip (lstrip s).

(** Code points of the digit zero of every decimal-digit block
    (General_Category Nd) of the Unicode database shipped with CPython 3.11
    (Unicode 14.0); each block is ten consecutive code points. *)
Definition Nd_zeros : list N :=
  [ 0x30; 0x660; 0x6f0; 0x7c0; 0x966; 0x9e6; 0xa66; 0xae6; 0xb66; 0xbe6;
    0xc66; 0xce6; 0xd66; 0xde6; 0xe50; 0xed0; 0xf20; 0x1040; 0x1090;
    0x17e0; 0x1810; 0x1946; 0x19d0; 0x1a80; 0x1a90; 0x1b50; 0x1bb0;
    0x1c40; 0x1c50; 0xa620; 0xa8d0; 0xa900; 0xa9d0; 0xa9f0; 0xaa50;
    0xabf0; 0xff10; 0x104a0; 0x10d30; 0x11066; 0x110f0; 0x11136; 0x111d0;
    0x112f0; 0x11450; 0x114d0; 0x11650; 0x116c0; 0x11730; 0x118e0;
    0x11950; 0x11c50; 0x11d50; 0x11da0; 0x16a60; 0x16ac0; 0x16b50;
    0x1d7ce; 0x1d7d8; 0x1d7e2; 0x1d7ec; 0x1d7f6; 0x1e140; 0x1e2f0;
    0x1e950; 0x1fbf0 ].

Fixpoint decimal_in (zeros : list N) (c : char) : option N :=
  match zeros with
  | [] => None
  | z :: zs => if (z <=? c) && (c <? z + 10) then Some (c - z)
               else decimal_in zs c
  end.

Definition Py_UNICODE_TODECIMAL (c : char) : option N := decimal_in Nd_zeros c.

(** ** [int(text)]

    CPython first rewrites the text to ASCII
    ([_PyUnicode_TransformDecimalAndSpaceToASCII]): code points below 127
    stay, any other white space becomes a blank, any other decimal digit
    becomes its ASCII digit, and anything else makes the conversion fail.
    [PyLong_FromString] then reads blanks, an optional sign, digits
    separated by single underscores, blanks, and the end of the text; it
    refuses a numeral of more than [int_max_str_digits] digits. *)

(** The interpreter's limit on the digits of a decimal numeral it converts
    to or from an [int] ([sys.get_int_max_str_digits()], 4300 unless the
    interpreter is started otherwise): a longer numeral is a [ValueError]. *)
Definition int_max_str_digits : nat := 4300.

Definition to_ascii (c : char) : option char :=
  if c <? 127 then Some c
  else if Py_UNICODE_ISSPACE c then Some 32
  else match Py_UNICODE_TODECIMAL c with
       | Some d => Some (48 + d)
       | None => None
       end.

Fixpoint transform_to_ascii (s : str) : option str :=
  match s with
  | [] => Some []
  | c :: r =>
      match to_ascii c, transform_to_ascii r with
      | Some a, Some r' => Some (a :: r')
      | _, _ => None
      end
  end.

Definition is_digit (c : char) : bool := (48 <=? c) && (c <=? 57).
Definition underscore : char := 95.

Fixpoint skip_spaces (s : str) : str :=
  match s with
  | c :: r => if Py_ISSPACE c then skip_spaces r else s
  | [] => []
  end.

(** The scanning loop over digits and underscores: [prev_us] tells whether
    the previous character was an underscore and [digits] counts the digits
    read so far; the result is the value read, the number of its digits
    (leading zeros count, underscores do not) and the text left.  [None]
    stands for the error exits (a doubled or a trailing underscore). *)
Fixpoint scan_digits (prev_us : bool) (acc : Z) (digits : nat) (s : str)
  : option (Z * nat * str) :=
  match s with
  | c :: r =>
      if is_digit c
      then scan_digits false (10 * acc + Z.of_N (c - 48))%Z (S digits) r
      else if c =? underscore then
        if prev_us then None else scan_digits true acc digits r
      else if prev_us then None else Some (acc, digits, s)
  | [] => if prev_us then None else Some (acc, digits, [])
  end.

Definition PyLong_FromString (s : str) : option Z :=
  let s1 := skip_spaces s in
  let '(sign, s2) :=
    match s1 with
    | c :: r => if c =? 43 then (1%Z, r)
                else if c =? 45 then ((-1)%Z, r)
                else (1%Z, s1)
    | [] => (1%Z, s1)
    end in
  match s2 with
  | c :: _ =>
      if is_digit c then
        match scan_digits false 0%Z 0%nat s2 with
        | Some (v, digits, rest) =>
            if (int_max_str_digits <? digits)%nat then None
            else match skip_spaces rest with
                 | [] => Some (sign * v)%Z
                 | _ => None
                 end
        | None => None
        end
      else None
  | [] => None
  end.

(** [int(s)]: [None] is the [ValueError]. *)
Definition py_int (s : str) : option Z :=
  match transform_to_ascii s with
  | Some a => PyLong_FromString a
  | None => None
  end.

(** ** The document tree

    [NavigableString] is text that counts for [.text]; [Comment] stands for
    the string nodes that [.text] leaves out (comments, declarations,
    doctypes).  Tag names are in lower case, as the HTML parser delivers
    them.  [attrs] is the attribute dict (one entry per key); an attribute
    keeps its text, and the tokens of [class] are its runs of non-blank
    characters, as the tree builder splits them. *)

Inductive PageElement :=
| NavigableString (s : str)
| Comment (s : str)
| Tag (name : str) (attrs : list (str * str)) (contents : list PageElement).

Definition str_eqb (a b : str) : bool := bool_decide (a = b).

Fixpoint attrs_get (attrs : list (str * str)) (key : str) : option str :=
  match attrs with
  | [] => None
  | (k, v) :: r => if str_eqb k key then Some v else attrs_get r key
  end.

(** [tag.has_attr(key)] *)
Definition has_attr (e : PageElement) (key : str) : bool :=
  match e with
  | Tag _ attrs _ => bool_decide (is_Some (attrs_get attrs key))
  | _ => false
  end.

(** [tag[key]] for a key that [has_attr] found. *)
Definition get_attr (e : PageElement) (key : str) : str :=
  match e with
  | Tag _ attrs _ => default [] (attrs_get attrs key)
  | _ => []
  end.

(** Runs of non-blank characters: [current] is the token being read, in
    reverse. *)
Fixpoint split_ws_aux (current : str) (s : str) : list str :=
  match s with
  | [] => match current with [] => [] | _ => [rev current] end
  | c :: r =>
      if Py_UNICODE_ISSPACE c then
        match current with
        | [] => split_ws_aux [] r
        | _ => rev current :: split_ws_aux [] r
        end
      else split_ws_aux (c :: current) r
  end.

Definition split_ws (s : str) : list str := split_ws_aux [] s.

Definition get_classes (e : PageElement) : list str :=
  match e with
  | Tag _ attrs _ =>
      match attrs_get attrs (pystr "class") with
      | Some v => split_ws v
      | None => []
      end
  | _ => []
  end.

(** Everything below an element, in document order. *)
Fixpoint descendants (e : PageElement) : list PageElement :=
  match e with
  | Tag _ _ cs =>
      (fix go (l : list PageElement) : list PageElement :=
         match l with
         | [] => []
         | c :: r => c :: descendants c ++ go r
         end) cs
  | _ => []
  end.

(** [tag.text]: the text nodes below the element, joined. *)
Definition get_text (e : PageElement) : str :=
  List.concat
    (List.map (fun d => match d with NavigableString s => s | _ => [] end)
       (descendants e)).

(** A compound selector [name.class]. *)
Record selector := { sel_name : str; sel_class : str }.

Definition matches (sel : selector) (e : PageElement) : bool :=
  match e with
  | Tag name _ _ =>
      str_eqb name (sel_name sel)
      && existsb (str_eqb (sel_class sel)) (get_classes e)
  | _ => false
  end.

(** [tag.select(sel)] and [tag.select_one(sel)] *)
Definition select (e : PageElement) (sel : selector) : list PageElement :=
  List.filter (matches sel) (descendants e).

Definition select_one (e : PageElement) (sel : selector) : option PageElement :=
  List.find (matches sel) (descendants e).

(** ** The extractor *)

Record HotSearchItem := {
  rank : Z;
  title : str;
  summary : str;
  hot_score : str;
  detail_url : str
}.

Definition card_selector : selector :=
  {| sel_name := pystr "div"; sel_class := pystr "category-wrap_iQLoo" |}.
Definition rank_selector : selector :=
  {| sel_name := pystr "div"; sel_class := pystr "index_1Ew5p" |}.
Definition title_selector : selector :=
  {| sel_name := pystr "div"; sel_class := pystr "c-single-text-ellipsis" |}.
Definition summary_selector : selector :=
  {| sel_name := pystr "div"; sel_class := pystr "hot-desc_1m_jR" |}.
Definition hot_score_selector : selector :=
  {| sel_name := pystr "div"; sel_class := pystr "hot-index_1Bl1a" |}.
Definition detail_link_selector : selector :=
  {| sel_name := pystr "a"; sel_class := pystr "c-single-text-ellipsis" |}.

(** The [try] block of the loop: [None] is the [continue] taken on
    [AttributeError] (no rank element) or [ValueError] (no integer). *)
Definition card_rank (card : PageElement) : option Z :=
  match select_one card rank_selector with
  | None => None
  | Some t => py_int (strip (get_text t))
  end.

(** [tag.text.strip() if tag else ""] *)
Definition text_or_empty (tag : option PageElement) : str :=
  match tag with
  | Some t => strip (get_text t)
  | None => []
  end.

(** [tag["href"].strip() if tag and tag.has_attr("href") else ""] *)
Definition href_or_empty (tag : option PageElement) : str :=
  match tag with
  | Some t => if has_attr t (pystr "href") then strip (get_attr t (pystr "href"))
              else []
  | None => []
  end.

(** One turn of the loop: the item appended for the card, if any. *)
Definition parse_card (card : PageElement) : option HotSearchItem :=
  match card_rank card with
  | None => None
  | Some r =>
      let title_tag := select_one card title_selector in
      let summary_tag := select_one card summary_selector in
      let hot_score_tag := select_one card hot_score_selector in
      let detail_link_tag := select_one card detail_link_selector in
      Some {| rank := r;
              title := text_or_empty title_tag;
              summary := text_or_empty summary_tag;
              hot_score := text_or_empty hot_score_tag;
              detail_url := href_or_empty detail_link_tag |}
  end.

(** The loop over the cards: the items in document order. *)
Fixpoint collect_items (cards : list PageElement) : list HotSearchItem :=
  match cards with
  | [] => []
  | card :: rest =>
      match parse_card card with
      | Some item => item :: collect_items rest
      | None => collect_items rest
      end
  end.

(** [items.sort(key=lambda item: item.rank)]: a stable sort.  An item goes
    in front of the first later item whose key is not smaller. *)
Fixpoint insert_by_rank (x : HotSearchItem) (l : list HotSearchItem)
  : list HotSearchItem :=
  match l with
  | [] => [x]
  | y :: r => if (rank x <=? rank y)%Z then x :: l else y :: insert_by_rank x r
  end.

Fixpoint sort_by_rank (l : list HotSearchItem) : list HotSearchItem :=
  match l with
  | [] => []
  | x :: r => insert_by_rank x (sort_by_rank r)
  end.

(** The body of [parse_hot_search] after the markup has become a tree. *)
Definition parse_soup (soup : PageElement) : list HotSearchItem :=
  sort_by_rank (collect_items (select soup card_selector)).


(** ** Decimal text of integers *)

(** The decimal digits of [n], most significant first; [fuel] bounds the
    number of digits. *)
Fixpoint digits_fuel (fuel : nat) (n : N) : str :=
  match fuel with
  | O => []
  | S f => if n <? 10 then [48 + n]
           else digits_fuel f (n / 10) ++ [48 + n mod 10]
  end.

Definition N_digits (n : N) : str := digits_fuel (S (N.to_nat (N.log2 n))) n.

(** The decimal text of an integer: a minus sign for a negative number
    and the digits of its absolute value. *)
Definition int_repr (z : Z) : str :=
  match z with
  | Zneg p => 45 :: N_digits (Npos p)
  | _ => N_digits (Z.to_N z)
  end.

(** Has the decimal text of [z] no more digits than the interpreter
    converts?  (The sign does not count.) *)
Definition int_fits (z : Z) : bool :=
  (length (N_digits (Z.abs_N z)) <=? int_max_str_digits)%nat.

(** [repr(z)], which is also what the JSON encoder writes for an [int]:
    [None] is the [ValueError] for a number of too many digits.  (The
    f-strings of the script format a status from 400 to 599 and the length
    of a list, which are far below the limit: they use [int_repr].) *)
Definition int_to_str (z : Z) : option str :=
  if int_fits z then Some (int_repr z) else None.

(** [n] written with at least [width] digits, zero-padded on the left. *)
Definition zero_pad (width : nat) (n : N) : str :=
  let d := N_digits n in
  repeat 48 (width - length d)%nat ++ d.

(** ** JSON values and [json.dump(..., ensure_ascii=False, indent=2)] *)

Inductive json :=
| JNull
| JBool (b : bool)
| JInt (z : Z)
| JStr (s : str)
| JList (l : list json)
| JDict (d : list (str * json)).

Definition hex_digit (n : N) : char := if n <? 10 then 48 + n else 87 + n.

(** One character of a string body, as [encode_basestring] writes it:
    the quote, the backslash and the control characters are escaped,
    everything else is copied.  (A backslash inside a literal of this file
    is one character: the literals below are two and four characters
    long.) *)
Definition escape_char (c : char) : str :=
  if c =? 34 then [92; 34]
  else if c =? 92 then [92; 92]
  else if c =? 10 then pystr "\n"
  else if c =? 13 then pystr "\r"
  else if c =? 9 then pystr "\t"
  else if c =? 8 then pystr "\b"
  else if c =? 12 then pystr "\f"
  else if c <? 32 then
    pystr "\u00" ++ [hex_digit (c / 16); hex_digit (c mod 16)]
  else [c].

Definition encode_basestring (s : str) : str :=
  34 :: List.concat (List.map escape_char s) ++ [34].

(** A line break followed by the indentation of a nesting level. *)
Definition newline_indent (indent level : nat) : str :=
  10 :: repeat 32 (indent * level)%nat.

(** The text [JSONEncoder(indent=indent, ensure_ascii=False)] produces for
    a value met at nesting level [level]; the item separator is a comma and
    the key separator is a colon and a blank.  [None] is the [ValueError]
    of an integer the interpreter does not convert to text. *)
Fixpoint encode (indent level : nat) (v : json) : option str :=
  match v with
  | JNull => Some (pystr "null")
  | JBool true => Some (pystr "true")
  | JBool false => Some (pystr "false")
  | JInt z => int_to_str z
  | JStr s => Some (encode_basestring s)
  | JList [] => Some (pystr "[]")
  | JList (v0 :: vs) =>
      t0 ← encode indent (S level) v0;
      ts ← (fix items (l : list json) : option str :=
              match l with
              | [] => Some []
              | x :: r =>
                  t ← encode indent (S level) x;
                  ts ← items r;
                  Some (44 :: newline_indent indent (S level) ++ t ++ ts)
              end) vs;
      Some (91 :: newline_indent indent (S level) ++ t0 ++ ts
            ++ newline_indent indent level ++ [93])
  | JDict [] => Some (pystr "{}")
  | JDict ((k0, v0) :: kvs) =>
      t0 ← encode indent (S level) v0;
      ts ← (fix members (l : list (str * json)) : option str :=
              match l with
              | [] => Some []
              | (k, x) :: r =>
                  t ← encode indent (S level) x;
                  ts ← members r;
                  Some (44 :: newline_indent indent (S level)
                        ++ encode_basestring k ++ pystr ": " ++ t ++ ts)
              end) kvs;
      Some (123 :: newline_indent indent (S level)
            ++ encode_basestring k0 ++ pystr ": " ++ t0 ++ ts
            ++ newline_indent indent level ++ [125])
  end.

(** [json.dumps(v, ensure_ascii=False, indent=2)] *)
Definition json_dumps (v : json) : option str := encode 2 0 v.


(** ** [json.loads]

    The scanner of the [json] module on the values this program writes:
    objects, arrays, strings, integers and the three literals.  A number
    with a fraction or an exponent, [NaN] and [Infinity] are floats, which
    this embedding leaves out: the scanner answers [None] for them as it
    does for malformed text. *)

Definition is_json_ws (c : char) : bool :=
  (c =? 32) || (c =? 9) || (c =? 10) || (c =? 13).

Fixpoint skip_ws (s : str) : str :=
  match s with
  | c :: r => if is_json_ws c then skip_ws r else s
  | [] => []
  end.

Definition hex_value (c : char) : option N :=
  if (48 <=? c) && (c <=? 57) then Some (c - 48)
  else if (97 <=? c) && (c <=? 102) then Some (c - 87)
  else if (65 <=? c) && (c <=? 70) then Some (c - 55)
  else None.

Definition hex4 (a b c d : char) : option N :=
  match hex_value a, hex_value b, hex_value c, hex_value d with
  | Some x, Some y, Some z, Some w => Some (((x * 16 + y) * 16 + z) * 16 + w)
  | _, _, _, _ => None
  end.

Definition unescape (c : char) : option char :=
  if c =? 34 then Some 34
  else if c =? 92 then Some 92
  else if c =? 47 then Some 47
  else if c =? 98 then Some 8
  else if c =? 102 then Some 12
  else if c =? 110 then Some 10
  else if c =? 114 then Some 13
  else if c =? 116 then Some 9
  else None.

Definition is_high_surrogate (c : N) : bool := (0xD800 <=? c) && (c <=? 0xDBFF).
Definition is_low_surrogate (c : N) : bool := (0xDC00 <=? c) && (c <=? 0xDFFF).
Definition join_surrogates (hi lo : N) : N :=
  0x10000 + ((hi - 0xD800) * 1024 + (lo - 0xDC00)).

Definition push (c : char) (r : option (str * str)) : option (str * str) :=
  match r with
  | Some (s, rest) => Some (c :: s, rest)
  | None => None
  end.

(** [scanstring] in strict mode, started behind the opening quote: the
    string read and the text behind its closing quote. *)
Fixpoint scanstring (s : str) : option (str * str) :=
  match s with
  | [] => None
  | c :: r =>
      if c =? 34 then Some ([], r)
      else if c =? 92 then
        match r with
        | [] => None
        | e :: r1 =>
            if e =? 117 then
              match r1 with
              | h1 :: h2 :: h3 :: h4 :: ((_ :: _) as r2) =>
                  match hex4 h1 h2 h3 h4 with
                  | None => None
                  | Some u =>
                      match r2 with
                      | b :: u' :: g1 :: g2 :: g3 :: g4 :: ((_ :: _) as r3) =>
                          if is_high_surrogate u && (b =? 92) && (u' =? 117)
                          then
                            match hex4 g1 g2 g3 g4 with
                            | None => None
                            | Some u2 =>
                                if is_low_surrogate u2
                                then push (join_surrogates u u2) (scanstring r3)
                                else push u (scanstring r2)
                            end
                          else push u (scanstring r2)
                      | _ => push u (scanstring r2)
                      end
                  end
              | _ => None
              end
            else
              match unescape e with
              | Some ch => push ch (scanstring r1)
              | None => None
              end
        end
      else if c <=? 31 then None
      else push c (scanstring r)
  end.

(** The digits of an integer literal, most significant first. *)
Fixpoint take_digits (s : str) : str * str :=
  match s with
  | c :: r => if is_digit c then let '(d, rest) := take_digits r in (c :: d, rest)
              else ([], s)
  | [] => ([], [])
  end.

Definition digits_value (d : str) : Z :=
  fold_left (fun acc c => (10 * acc + Z.of_N (c - 48))%Z) d 0%Z.

(** Does a fraction or an exponent follow the integer part? *)
Definition float_follows (s : str) : bool :=
  match s with
  | e :: r =>
      if e =? 46 then
        match r with c :: _ => is_digit c | [] => false end
      else if (e =? 101) || (e =? 69) then
        match r with
        | c :: r' =>
            if (c =? 45) || (c =? 43) then
              match r' with d :: _ => is_digit d | [] => false end
            else is_digit c
        | [] => false
        end
      else false
  | [] => false
  end.

(** [_match_number]: an optional minus, then a single zero or a digit from
    one to nine followed by digits; [int] refuses a literal of more than
    [int_max_str_digits] digits. *)
Definition match_number (s : str) : option (json * str) :=
  let '(neg, s1) := match s with
                    | c :: r => if c =? 45 then (true, r) else (false, s)
                    | [] => (false, s)
                    end in
  match s1 with
  | c :: r =>
      if is_digit c then
        let '(d, rest) := if c =? 48 then ([c], r) else take_digits s1 in
        if float_follows rest then None
        else if (int_max_str_digits <? length d)%nat then None
        else Some (JInt (if neg then - digits_value d else digits_value d)%Z, rest)
      else None
  | [] => None
  end.

Fixpoint strip_prefix (p s : str) : option str :=
  match p, s with
  | [], _ => Some s
  | a :: p', b :: s' => if a =? b then strip_prefix p' s' else None
  | _ :: _, [] => None
  end.

(** [dct[key] = value] on a dict kept in insertion order. *)
Fixpoint dict_set (d : list (str * json)) (key : str) (value : json)
  : list (str * json) :=
  match d with
  | [] => [(key, value)]
  | (k, v) :: r => if str_eqb k key then (k, value) :: r
                   else (k, v) :: dict_set r key value
  end.

(** The loop of [_parse_array], entered in front of a value. *)
Fixpoint array_loop (scan : str -> option (json * str)) (fuel : nat) (s : str)
  : option (list json * str) :=
  match fuel with
  | O => None
  | S f =>
      match scan s with
      | None => None
      | Some (v, r) =>
          match skip_ws r with
          | c :: r1 =>
              if c =? 93 then Some ([v], r1)
              else if c =? 44 then
                match array_loop scan f (skip_ws r1) with
                | Some (vs, r2) => Some (v :: vs, r2)
                | None => None
                end
              else None
          | [] => None
          end
      end
  end.

(** The loop of [_parse_object], entered in front of a key; [d] is the
    dict built so far. *)
Fixpoint object_loop (scan : str -> option (json * str)) (fuel : nat)
  (d : list (str * json)) (s : str) : option (list (str * json) * str) :=
  match fuel with
  | O => None
  | S f =>
      match s with
      | q :: r =>
          if q =? 34 then
            match scanstring r with
            | None => None
            | Some (key, r1) =>
                match skip_ws r1 with
                | c0 :: r2 =>
                    if c0 =? 58 then
                      match scan (skip_ws r2) with
                      | None => None
                      | Some (v, r3) =>
                          let d' := dict_set d key v in
                          match skip_ws r3 with
                          | c :: r4 =>
                              if c =? 125 then Some (d', r4)
                              else if c =? 44
                              then object_loop scan f d' (skip_ws r4)
                              else None
                          | [] => None
                          end
                      end
                    else None
                | [] => None
                end
            end
          else None
      | [] => None
      end
  end.

(** [scan_once]: one JSON term at the head of the text. *)
Fixpoint scan_once (fuel : nat) (s : str) : option (json * str) :=
  match fuel with
  | O => None
  | S f =>
      match s with
      | [] => None
      | c :: r =>
          if c =? 34 then
            match scanstring r with
            | Some (x, rest) => Some (JStr x, rest)
            | None => None
            end
          else if c =? 123 then
            match skip_ws r with
            | c1 :: r1 =>
                if c1 =? 125 then Some (JDict [], r1)
                else match object_loop (scan_once f) f [] (skip_ws r) with
                     | Some (d, rest) => Some (JDict d, rest)
                     | None => None
                     end
            | [] => None
            end
          else if c =? 91 then
            match skip_ws r with
            | c1 :: r1 =>
                if c1 =? 93 then Some (JList [], r1)
                else match array_loop (scan_once f) f (skip_ws r) with
                     | Some (l, rest) => Some (JList l, rest)
                     | None => None
                     end
            | [] => None
            end
          else if c =? 110 then
            match strip_prefix (pystr "null") s with
            | Some rest => Some (JNull, rest)
            | None => None
            end
          else if c =? 116 then
            match strip_prefix (pystr "true") s with
            | Some rest => Some (JBool true, rest)
            | None => None
            end
          else if c =? 102 then
            match strip_prefix (pystr "false") s with
            | Some rest => Some (JBool false, rest)
            | None => None
            end
          else match_number s
      end
  end.

(** [json.loads(s)]: leading blanks, one term, trailing blanks, the end. *)
Definition json_loads (s : str) : option json :=
  if match s with c :: _ => c =? 0xFEFF | [] => false end then None
  else
    match scan_once (S (length s)) (skip_ws s) with
    | Some (v, rest) =>
        match skip_ws rest with
        | [] => Some v
        | _ => None
        end
    | None => None
    end.



(** ** UTF-8 *)

(** The bytes of one code point; surrogates (and numbers beyond the last
    code point) have none. *)
Definition utf8_char (c : char) : option (list N) :=
  if c <? 0x80 then Some [c]
  else if c <? 0x800 then Some [0xC0 + c / 64; 0x80 + c mod 64]
  else if c <? 0x10000 then
    if (0xD800 <=? c) && (c <=? 0xDFFF) then None
    else Some [0xE0 + c / 4096; 0x80 + (c / 64) mod 64; 0x80 + c mod 64]
  else if c <? 0x110000 then
    Some [0xF0 + c / 262144; 0x80 + (c / 4096) mod 64;
          0x80 + (c / 64) mod 64; 0x80 + c mod 64]
  else None.

(** [text.encode("utf-8")]: [None] is the [UnicodeEncodeError]. *)
Fixpoint utf8_encode (s : str) : option (list N) :=
  match s with
  | [] => Some []
  | c :: r =>
      match utf8_char c, utf8_encode r with
      | Some b, Some bs => Some (b ++ bs)
      | _, _ => None
      end
  end.

Definition is_continuation (b : N) : bool := (0x80 <=? b) && (b <=? 0xBF).

(** [bytes.decode("utf-8")] in strict mode: shortest encodings only, no
    surrogates, nothing beyond U+10FFFF. *)
Fixpoint utf8_decode (bs : list N) : option str :=
  match bs with
  | [] => Some []
  | b0 :: r0 =>
      if b0 <? 0x80 then option_map (cons b0) (utf8_decode r0)
      else if b0 <? 0xC2 then None
      else if b0 <? 0xE0 then
        match r0 with
        | b1 :: r1 =>
            if is_continuation b1
            then option_map (cons ((b0 - 0xC0) * 64 + (b1 - 0x80)))
                   (utf8_decode r1)
            else None
        | _ => None
        end
      else if b0 <? 0xF0 then
        match r0 with
        | b1 :: b2 :: r2 =>
            let c := (b0 - 0xE0) * 4096 + (b1 - 0x80) * 64 + (b2 - 0x80) in
            if is_continuation b1 && is_continuation b2 && (0x800 <=? c)
               && negb ((0xD800 <=? c) && (c <=? 0xDFFF))
            then option_map (cons c) (utf8_decode r2)
            else None
        | _ => None
        end
      else if b0 <? 0xF5 then
        match r0 with
        | b1 :: b2 :: b3 :: r3 =>
            let c := (b0 - 0xF0) * 262144 + (b1 - 0x80) * 4096
                     + (b2 - 0x80) * 64 + (b3 - 0x80) in
            if is_continuation b1 && is_continuation b2 && is_continuation b3
               && (0x10000 <=? c) && (c <? 0x110000)
            then option_map (cons c) (utf8_decode r3)
            else None
        | _ => None
        end
      else None
  end.

(** ** Exceptions, the environment and the state of a run *)

(** An exception object: its class and what [str(exc)] gives. *)
Record exn := { exn_class : str; exn_str : str }.

Inductive result (A : Type) :=
| Ok (a : A)
| Raise (e : exn).
Arguments Ok {A} a.
Arguments Raise {A} e.

(** What [requests.get] answers with. *)
Record Response := {
  status_code : Z;
  reason : str;
  response_url : str;
  response_text : str
}.

(** [datetime.now(timezone(timedelta(hours=8)))]: civil time at UTC+8. *)
Record datetime := {
  year : N; month : N; day : N;
  hour : N; minute : N; second : N; microsecond : N
}.

(** A file is what a completed write left in it, or is [Torn]: opened for
    writing and cut short by a failed write. *)
Inductive file :=
| Complete (content : list N)
| Torn.

(** The collaborators of the script.  [requests_get url headers timeout]
    is the network's answer; [html_parser] is
    [BeautifulSoup(html, "html.parser")]; [now] is the clock; the three
    fault fields say which filesystem calls the operating system refuses
    (permissions, a full disk); [dump_error v] is the exception that
    [json.dump] raises for a value it cannot write, the [ValueError] of an
    integer of too many digits or the [UnicodeEncodeError] of a character
    that UTF-8 cannot encode, whichever comes first in the output. *)
Record Env := {
  requests_get : str -> list (str * str) -> Z -> result Response;
  html_parser : str -> result PageElement;
  now : datetime;
  mkdir_fault : str -> option exn;
  open_fault : str -> option exn;
  write_fault : str -> option exn;
  dump_error : json -> exn
}.

Record World := {
  files : gmap str file;
  dirs : gset str;
  stdout : list str;
  stderr : list str
}.

(** A computation that reads and changes the world and may raise. *)
Definition M (A : Type) : Type := World -> result A * World.

Definition ret {A} (a : A) : M A := fun w => (Ok a, w).
Definition bind {A B} (m : M A) (k : A -> M B) : M B :=
  fun w => match m w with
           | (Ok a, w') => k a w'
           | (Raise e, w') => (Raise e, w')
           end.
(** [try: m  except Exception as exc: handler exc] *)
Definition try_except {A} (m : M A) (handler : exn -> M A) : M A :=
  fun w => match m w with
           | (Ok a, w') => (Ok a, w')
           | (Raise e, w') => handler e w'
           end.
Definition lift {A} (r : result A) : M A := fun w => (r, w).

#[local] Instance M_ret : MRet M := @ret.
#[local] Instance M_bind : MBind M := fun A B k m => bind m k.

Definition log_out (message : str) (w : World) : World :=
  {| files := files w; dirs := dirs w;
     stdout := stdout w ++ [message]; stderr := stderr w |}.
Definition log_err (message : str) (w : World) : World :=
  {| files := files w; dirs := dirs w;
     stdout := stdout w; stderr := stderr w ++ [message] |}.

(** [print(message)] and [print(message, file=sys.stderr)]: a stream is
    the list of the messages printed to it, one for each call; a message
    may hold line breaks of its own (the text of an exception may). *)
Definition print (message : str) : M unit :=
  fun w => (Ok tt, log_out message w).
Definition print_err (message : str) : M unit :=
  fun w => (Ok tt, log_err message w).

Definition set_file (path : str) (f : file) (w : World) : World :=
  {| files := <[path := f]> (files w); dirs := dirs w;
     stdout := stdout w; stderr := stderr w |}.

(** [path.mkdir(parents=True, exist_ok=True)] for a one-component path. *)
Definition mkdir (env : Env) (path : str) : M unit :=
  fun w =>
    match mkdir_fault env path with
    | Some e => (Raise e, w)
    | None =>
        if bool_decide (is_Some (files w !! path)) then
          (Raise {| exn_class := pystr "FileExistsError";
                    exn_str := pystr "[Errno 17] File exists: '" ++ path
                               ++ pystr "'" |}, w)
        else (Ok tt, {| files := files w; dirs := {[ path ]} ∪ dirs w;
                        stdout := stdout w; stderr := stderr w |})
    end.

(** The bytes [json.dump(v, f, ensure_ascii=False, indent=2)] sends to a
    file opened with [encoding="utf-8"]; [None] when the encoder refuses an
    integer or the codec refuses a character. *)
Definition json_dump_bytes (v : json) : option (list N) :=
  text ← json_dumps v; utf8_encode text.

(** [with path.open("w", encoding="utf-8") as f:
        json.dump(v, f, ensure_ascii=False, indent=2)]:
    opening truncates the file; a dump that fails part of the way leaves
    it torn.  Line breaks are written as they are (POSIX). *)
Definition json_dump (env : Env) (path : str) (v : json) : M unit :=
  fun w =>
    match open_fault env path with
    | Some e => (Raise e, w)
    | None =>
        if bool_decide (path ∈ dirs w) then
          (Raise {| exn_class := pystr "IsADirectoryError";
                    exn_str := pystr "[Errno 21] Is a directory: '" ++ path
                               ++ pystr "'" |}, w)
        else
          match json_dump_bytes v with
          | None => (Raise (dump_error env v), set_file path Torn w)
          | Some bytes =>
              match write_fault env path with
              | Some e => (Raise e, set_file path Torn w)
              | None => (Ok tt, set_file path (Complete bytes) w)
              end
          end
    end.

(** ** The fetcher *)

Definition HOT_SEARCH_URL : str := pystr "https://top.baidu.com/board?tab=realtime".
Definition DATA_DIR : str := pystr "data".

Definition headers : list (str * str) :=
  [(pystr "User-Agent",
    pystr "Mozilla/5.0 (Windows NT 10.0; Win64; x64) "
    ++ pystr "AppleWebKit/537.36 (KHTML, like Gecko) "
    ++ pystr "Chrome/120.0.0.0 Safari/537.36")].

(** [response.raise_for_status()] *)
Definition raise_for_status (r : Response) : result unit :=
  let describe kind :=
    {| exn_class := pystr "HTTPError";
       exn_str := int_repr (status_code r) ++ kind ++ reason r
                  ++ pystr " for url: " ++ response_url r |} in
  if ((400 <=? status_code r) && (status_code r <? 500))%Z
  then Raise (describe (pystr " Client Error: "))
  else if ((500 <=? status_code r) && (status_code r <? 600))%Z
  then Raise (describe (pystr " Server Error: "))
  else Ok tt.

Definition fetch_hot_search_html (env : Env) (url : str) : result str :=
  match requests_get env url headers 15%Z with
  | Raise e => Raise e
  | Ok response =>
      match raise_for_status response with
      | Raise e => Raise e
      | Ok _ => Ok (response_text response)
      end
  end.

(** ** The extractor on markup *)

Definition parse_hot_search (env : Env) (html : str) : result (list HotSearchItem) :=
  match html_parser env html with
  | Raise e => Raise e
  | Ok soup => Ok (parse_soup soup)
  end.

(** ** The snapshotter *)

(** [dataclasses.asdict(item)] *)
Definition asdict (item : HotSearchItem) : json :=
  JDict [ (pystr "rank", JInt (rank item));
          (pystr "title", JStr (title item));
          (pystr "summary", JStr (summary item));
          (pystr "hot_score", JStr (hot_score item));
          (pystr "detail_url", JStr (detail_url item)) ].

(** [timestamp.isoformat()] at the fixed offset. *)
Definition isoformat (t : datetime) : str :=
  zero_pad 4 (year t) ++ pystr "-" ++ zero_pad 2 (month t) ++ pystr "-"
  ++ zero_pad 2 (day t) ++ pystr "T" ++ zero_pad 2 (hour t) ++ pystr ":"
  ++ zero_pad 2 (minute t) ++ pystr ":" ++ zero_pad 2 (second t)
  ++ (if microsecond t =? 0 then [] else 46 :: zero_pad 6 (microsecond t))
  ++ pystr "+08:00".

(** [timestamp.strftime("%Y%m%d")] (the C library does not pad the year). *)
Definition strftime_Ymd (t : datetime) : str :=
  N_digits (year t) ++ zero_pad 2 (month t) ++ zero_pad 2 (day t).

Definition payload (t : datetime) (items : list HotSearchItem) : json :=
  JDict [ (pystr "generated_at", JStr (isoformat t));
          (pystr "items", JList (List.map asdict items)) ].

Definition daily_path (t : datetime) : str :=
  DATA_DIR ++ pystr "/" ++ pystr "baidu-hotsearch-" ++ strftime_Ymd t ++ pystr ".json".
Definition latest_path : str := DATA_DIR ++ pystr "/" ++ pystr "latest.json".

Definition save_results (env : Env) (items : list HotSearchItem) : M str :=
  mkdir env DATA_DIR;;
  let timestamp := now env in
  let snapshot := payload timestamp items in
  json_dump env (daily_path timestamp) snapshot;;
  json_dump env latest_path snapshot;;
  ret (daily_path timestamp).

(** ** The snapshot as the specification lays it out

    Section 6 of the specification describes the output files: indented
    JSON, an object with the keys [generated_at] and [items], under
    [items] one object of five fields for each item, and non-ASCII
    characters written as they are.  The definitions below write that text
    down directly, without the encoder, to compare it with what
    [save_results] writes. *)

(** One character of a quoted string: a non-ASCII character stands for
    itself; a quote and a backslash are preceded by a backslash; the other
    printable ASCII characters stand for themselves; a control character
    has its short escape (b, t, n, f, r) or the escape [u00XX] with two
    lower-case hexadecimal digits. *)
Definition layout_char (c : char) : str :=
  if 128 <=? c then [c]
  else if (c =? 34) || (c =? 92) then [92; c]
  else if 32 <=? c then [c]
  else if c =? 8 then [92; 98]
  else if c =? 9 then [92; 116]
  else if c =? 10 then [92; 110]
  else if c =? 12 then [92; 102]
  else if c =? 13 then [92; 114]
  else [92; 117; 48; 48;
        nth (N.to_nat (c / 16)) (pystr "0123456789abcdef") 48;
        nth (N.to_nat (c mod 16)) (pystr "0123456789abcdef") 48].

(** A string between quotes. *)
Definition layout_string (s : str) : str :=
  [34] ++ flat_map layout_char s ++ [34].

(** A line break and two blanks for each level of nesting. *)
Definition layout_line (level : nat) : str := 10 :: repeat 32 (2 * level)%nat.

(** A key, a colon, a blank and the text of the value. *)
Definition layout_field (key : string) (value : str) : str :=
  layout_string (pystr key) ++ pystr ": " ++ value.

(** One item: its five fields in the order of the specification, the rank
    as a decimal number and the others as strings, a field to a line. *)
Definition layout_item (i : HotSearchItem) : str :=
  pystr "{"
  ++ layout_line 3 ++ layout_field "rank" (int_repr (rank i)) ++ pystr ","
  ++ layout_line 3 ++ layout_field "title" (layout_string (title i))
  ++ pystr ","
  ++ layout_line 3 ++ layout_field "summary" (layout_string (summary i))
  ++ pystr ","
  ++ layout_line 3 ++ layout_field "hot_score" (layout_string (hot_score i))
  ++ pystr ","
  ++ layout_line 3 ++ layout_field "detail_url" (layout_string (detail_url i))
  ++ layout_line 2 ++ pystr "}".

(** The items in their order, separated by commas, an item to a block;
    no item at all is a pair of brackets. *)
Definition layout_items (items : list HotSearchItem) : str :=
  match items with
  | [] => pystr "[]"
  | i :: r =>
      pystr "[" ++ layout_line 2 ++ layout_item i
      ++ flat_map (fun j => pystr "," ++ layout_line 2 ++ layout_item j) r
      ++ layout_line 1 ++ pystr "]"
  end.

(** The envelope: the timestamp and then the items. *)
Definition snapshot_layout (t : datetime) (items : list HotSearchItem) : str :=
  pystr "{"
  ++ layout_line 1
  ++ layout_field "generated_at" (layout_string (isoformat t)) ++ pystr ","
  ++ layout_line 1 ++ layout_field "items" (layout_items items)
  ++ layout_line 0 ++ pystr "}".

(** ** The entry point: the value returned is the exit code. *)

Definition no_items_message : str := pystr "No hot search items were found.".
Definition saved_message (items : list HotSearchItem) (daily_file : str) : str :=
  pystr "Saved " ++ int_repr (Z.of_nat (length items))
  ++ pystr " hot search items to " ++ daily_file.
Definition error_message (exc : exn) : str :=
  pystr "Error while fetching Baidu hot search: " ++ exn_str exc.

Definition main (env : Env) : M Z :=
  try_except
    (html ← lift (fetch_hot_search_html env HOT_SEARCH_URL);
     items ← lift (parse_hot_search env html);
     match items with
     | [] => print_err no_items_message;; ret 1%Z
     | _ :: _ =>
         daily_file ← save_results env items;
         print (saved_message items daily_file);;
         ret 0%Z
     end)
    (fun exc => print_err (error_message exc);; ret 1%Z).

(** ** Sample environments *)

Definition sample_clock : datetime :=
  {| year := 2024; month := 1; day := 15;
     hour := 9; minute := 3; second := 0; microsecond := 120 |}.

(** A network that answers with [status], a parser that answers with
    [soup], and a filesystem without faults. *)
Definition sample_env (status : Z) (soup : PageElement) : Env :=
  {| requests_get := fun url _ _ =>
       Ok {| status_code := status; reason := pystr "Reason";
             response_url := url; response_text := pystr "<html></html>" |};
     html_parser := fun _ => Ok soup;
     now := sample_clock;
     mkdir_fault := fun _ => None;
     open_fault := fun _ => None;
     write_fault := fun _ => None;
     dump_error := fun _ =>
       {| exn_class := pystr "ValueError";
          exn_str := pystr "the snapshot cannot be written" |} |}.

Definition empty_world : World :=
  {| files := ∅; dirs := ∅; stdout := []; stderr := [] |}.

(** Two entries; the first title is two CJK characters and the second has
    a quote, a line break and an emoji. *)
Definition sample_items : list HotSearchItem :=
  [ {| rank := 1; title := [28909; 25628]; summary := pystr "top";
       hot_score := pystr "4901234";
       detail_url := pystr "https://www.baidu.com/s?wd=x" |};
    {| rank := 2; title := [34; 10; 128512]; summary := [];
       hot_score := []; detail_url := [] |} ].

(** The bytes CPython's [json.dump] writes to a UTF-8 file for the sample
    items at the sample clock. *)
Definition sample_bytes : list N :=
  [
    123; 10; 32; 32; 34; 103; 101; 110; 101; 114; 97; 116; 101; 100; 95;
    97; 116; 34; 58; 32; 34; 50; 48; 50; 52; 45; 48; 49; 45; 49; 53; 84;
    48; 57; 58; 48; 51; 58; 48; 48; 46; 48; 48; 48; 49; 50; 48; 43; 48;
    56; 58; 48; 48; 34; 44; 10; 32; 32; 34; 105; 116; 101; 109; 115; 34;
    58; 32; 91; 10; 32; 32; 32; 32; 123; 10; 32; 32; 32; 32; 32; 32; 34;
    114; 97; 110; 107; 34; 58; 32; 49; 44; 10; 32; 32; 32; 32; 32; 32; 34;
    116; 105; 116; 108; 101; 34; 58; 32; 34; 231; 131; 173; 230; 144; 156;
    34; 44; 10; 32; 32; 32; 32; 32; 32; 34; 115; 117; 109; 109; 97; 114;
    121; 34; 58; 32; 34; 116; 111; 112; 34; 44; 10; 32; 32; 32; 32; 32;
    32; 34; 104; 111; 116; 95; 115; 99; 111; 114; 101; 34; 58; 32; 34; 52;
    57; 48; 49; 50; 51; 52; 34; 44; 10; 32; 32; 32; 32; 32; 32; 34; 100;
    101; 116; 97; 105; 108; 95; 117; 114; 108; 34; 58; 32; 34; 104; 116;
    116; 112; 115; 58; 47; 47; 119; 119; 119; 46; 98; 97; 105; 100; 117;
    46; 99; 111; 109; 47; 115; 63; 119; 100; 61; 120; 34; 10; 32; 32; 32;
    32; 125; 44; 10; 32; 32; 32; 32; 123; 10; 32; 32; 32; 32; 32; 32; 34;
    114; 97; 110; 107; 34; 58; 32; 50; 44; 10; 32; 32; 32; 32; 32; 32; 34;
    116; 105; 116; 108; 101; 34; 58; 32; 34; 92; 34; 92; 110; 240; 159;
    152; 128; 34; 44; 10; 32; 32; 32; 32; 32; 32; 34; 115; 117; 109; 109;
    97; 114; 121; 34; 58; 32; 34; 34; 44; 10; 32; 32; 32; 32; 32; 32; 34;
    104; 111; 116; 95; 115; 99; 111; 114; 101; 34; 58; 32; 34; 34; 44; 10;
    32; 32; 32; 32; 32; 32; 34; 100; 101; 116; 97; 105; 108; 95; 117; 114;
    108; 34; 58; 32; 34; 34; 10; 32; 32; 32; 32; 125; 10; 32; 32; 93; 10;
    125 ].


(** ** Orders on items and sample inputs *)

Definition rank_le (a b : HotSearchItem) : Prop := (rank a <= rank b)%Z.
Definition rank_lt (a b : HotSearchItem) : Prop := (rank a < rank b)%Z.
Definition has_rank (r : Z) (i : HotSearchItem) : bool := (rank i =? r)%Z.

(** [<div class="cls">contents</div>] *)
Definition div (cls : string) (contents : list PageElement) : PageElement :=
  Tag (pystr "div") [(pystr "class", pystr cls)] contents.

(** A card with every sub-element: rank, title, summary, score and link. *)
Definition full_card (rank_text title_text : string) : PageElement :=
  div "category-wrap_iQLoo horizontal_1eKyQ"
    [ div "index_1Ew5p" [NavigableString (pystr rank_text)];
      Tag (pystr "a")
        [(pystr "class", pystr "c-single-text-ellipsis");
         (pystr "href", pystr " https://www.baidu.com/s?wd=x ")] [];
      div "c-single-text-ellipsis" [NavigableString (pystr title_text)];
      div "hot-desc_1m_jR" [NavigableString (pystr "about it")];
      div "hot-index_1Bl1a" [NavigableString (pystr " 4901234 ")] ].

(** A card with a rank, a title between white space and a link with a
    padded [href], and neither summary nor score. *)
Definition partial_card : PageElement :=
  div "category-wrap_iQLoo"
    [ div "index_1Ew5p" [NavigableString (pystr "7")];
      div "c-single-text-ellipsis"
        [NavigableString [32; 9; 28909; 25628; 32; 97; 10]];
      Tag (pystr "a")
        [(pystr "class", pystr "c-single-text-ellipsis");
         (pystr "href", pystr " https://www.baidu.com/s?wd=x ")] [] ].

(** A card whose rank element is missing, all other fields in place. *)
Definition card_without_rank : PageElement :=
  div "category-wrap_iQLoo"
    [ Tag (pystr "a")
        [(pystr "class", pystr "c-single-text-ellipsis");
         (pystr "href", pystr "/detail")] [];
      div "c-single-text-ellipsis" [NavigableString (pystr "headline")];
      div "hot-desc_1m_jR" [NavigableString (pystr "summary")];
      div "hot-index_1Bl1a" [NavigableString (pystr "77")] ].

(** A card with a rank and nothing else. *)
Definition bare_card (rank_text : string) : PageElement :=
  div "category-wrap_iQLoo"
    [ div "index_1Ew5p" [NavigableString (pystr rank_text)] ].

(** A card whose link carries the marker class and no [href]. *)
Definition card_without_href : PageElement :=
  div "category-wrap_iQLoo"
    [ div "index_1Ew5p" [NavigableString (pystr "7")];
      Tag (pystr "a") [(pystr "class", pystr "c-single-text-ellipsis")]
        [NavigableString (pystr "more")] ].

Definition page (cards : list PageElement) : PageElement :=
  Tag (pystr "[document]") []
    [Tag (pystr "html") [] [Tag (pystr "body") [] cards]].

(** ** What a successful save needs *)

(** Code points that UTF-8 can encode: everything but the surrogates. *)
Definition is_scalar (c : char) : bool :=
  (c <? 0xD800) || ((0xDFFF <? c) && (c <? 0x110000)).

Definition encodable (s : str) : Prop := Forall (fun c => is_scalar c = true) s.

(** An item that [json.dump] can write to a UTF-8 file: a rank the
    interpreter converts to text and fields without lone surrogates. *)
Definition item_encodable (i : HotSearchItem) : Prop :=
  int_fits (rank i) = true
  /\ encodable (title i) /\ encodable (summary i)
  /\ encodable (hot_score i) /\ encodable (detail_url i).

(** The operating system refuses none of the calls of [save_results], no
    file is in the place of the data directory and no directory in the place
    of an output file. *)
Definition fs_accepts (env : Env) (w : World) : Prop :=
  mkdir_fault env DATA_DIR = None
  /\ files w !! DATA_DIR = None
  /\ open_fault env (daily_path (now env)) = None
  /\ (daily_path (now env) ∉ dirs w)
  /\ write_fault env (daily_path (now env)) = None
  /\ open_fault env latest_path = None
  /\ (latest_path ∉ dirs w)
  /\ write_fault env latest_path = None.

(** Every string of a JSON value satisfies [P]. *)
Fixpoint json_strings (P : str -> Prop) (v : json) : Prop :=
  match v with
  | JStr s => P s
  | JList l =>
      (fix all (l : list json) : Prop :=
         match l with
         | [] => True
         | x :: r => json_strings P x /\ all r
         end) l
  | JDict d =>
      (fix all (d : list (str * json)) : Prop :=
         match d with
         | [] => True
         | (k, x) :: r => P k /\ json_strings P x /\ all r
         end) d
  | _ => True
  end.

(** ** Notions for the round trip through JSON text *)

(** The keys of every dict are distinct, as they are in a Python dict. *)
Fixpoint json_wf (v : json) : Prop :=
  match v with
  | JList l =>
      (fix all (l : list json) : Prop :=
         match l with
         | [] => True
         | x :: r => json_wf x /\ all r
         end) l
  | JDict d =>
      List.NoDup (List.map fst d)
      /\ (fix all (d : list (str * json)) : Prop :=
            match d with
            | [] => True
            | (_, x) :: r => json_wf x /\ all r
            end) d
  | _ => True
  end.

(** The number of nodes of a value: the fuel [scan_once] needs for it. *)
Fixpoint json_size (v : json) : nat :=
  match v with
  | JList l =>
      S ((fix sum (l : list json) : nat :=
            match l with
            | [] => O
            | x :: r => (json_size x + sum r)%nat
            end) l)
  | JDict d =>
      S ((fix sum (d : list (str * json)) : nat :=
            match d with
            | [] => O
            | (_, x) :: r => (json_size x + sum r)%nat
            end) d)
  | _ => 1%nat
  end.

(** Every integer of a value is one the interpreter converts to text. *)
Fixpoint json_ints_fit (v : json) : bool :=
  match v with
  | JInt z => int_fits z
  | JList l =>
      (fix all (l : list json) : bool :=
         match l with
         | [] => true
         | x :: r => json_ints_fit x && all r
         end) l
  | JDict d =>
      (fix all (d : list (str * json)) : bool :=
         match d with
         | [] => true
         | (_, x) :: r => json_ints_fit x && all r
         end) d
  | _ => true
  end.

(** The text of a value all of whose integers the interpreter converts:
    what [encode] answers when it answers (lemma [encode_Some]). *)
Fixpoint encode_text (indent level : nat) (v : json) : str :=
  match v with
  | JNull => pystr "null"
  | JBool true => pystr "true"
  | JBool false => pystr "false"
  | JInt z => int_repr z
  | JStr s => encode_basestring s
  | JList [] => pystr "[]"
  | JList (v0 :: vs) =>
      91 :: newline_indent indent (S level) ++ encode_text indent (S level) v0
      ++ (fix items (l : list json) : str :=
            match l with
            | [] => []
            | x :: r => 44 :: newline_indent indent (S level)
                        ++ encode_text indent (S level) x ++ items r
            end) vs
      ++ newline_indent indent level ++ [93]
  | JDict [] => pystr "{}"
  | JDict ((k0, v0) :: kvs) =>
      123 :: newline_indent indent (S level)
      ++ encode_basestring k0 ++ pystr ": " ++ encode_text indent (S level) v0
      ++ (fix members (l : list (str * json)) : str :=
            match l with
            | [] => []
            | (k, x) :: r => 44 :: newline_indent indent (S level)
                             ++ encode_basestring k ++ pystr ": "
                             ++ encode_text indent (S level) x ++ members r
            end) kvs
      ++ newline_indent indent level ++ [125]
  end.

(** The text of the items of a list after the first, and of the members of
    a dict after the first, each behind its separator. *)
Definition encode_items (indent level : nat) (l : list json) : str :=
  List.concat
    (List.map (fun x => 44 :: newline_indent indent level
                        ++ encode_text indent level x) l).

Definition encode_member (indent level : nat) (kv : str * json) : str :=
  encode_basestring kv.1 ++ pystr ": " ++ encode_text indent level kv.2.

Definition encode_members (indent level : nat) (d : list (str * json)) : str :=
  List.concat
    (List.map (fun kv => 44 :: newline_indent indent level
                         ++ encode_member indent level kv) d).

(** Text in front of which an integer literal ends. *)
Definition number_stop (s : str) : Prop :=
  take_digits s = ([], s) /\ float_follows s = false.

(** The characters a JSON term can start with. *)
Definition term_start (c : char) : Prop :=
  c = 34 \/ c = 45 \/ (48 <= c /\ c <= 57)
  \/ c = 91 \/ c = 102 \/ c = 110 \/ c = 116 \/ c = 123.


(** ** Notions for the further properties *)

(** The sample environment with a disk that fills up while the latest file
    is written. *)
Definition env_latest_write_fails : Env :=
  {| requests_get := requests_get (sample_env 200 (Tag [] [] []));
     html_parser := html_parser (sample_env 200 (Tag [] [] []));
     now := sample_clock;
     mkdir_fault := fun _ => None;
     open_fault := fun _ => None;
     write_fault := fun p =>
       if str_eqb p latest_path
       then Some {| exn_class := pystr "OSError";
                    exn_str := pystr "[Errno 28] No space left on device" |}
       else None;
     dump_error := dump_error (sample_env 200 (Tag [] [] [])) |}.

(** Two more readings of the clock: the evening of the sample day and the
    day before. *)
Definition late_that_day : datetime :=
  {| year := 2024; month := 1; day := 15;
     hour := 23; minute := 59; second := 59; microsecond := 0 |}.
Definition day_before : datetime :=
  {| year := 2024; month := 1; day := 14;
     hour := 9; minute := 3; second := 0; microsecond := 120 |}.

(** No white space at the front. *)
Definition starts_clean (s : str) : Prop :=
  match s with
  | c :: _ => Py_UNICODE_ISSPACE c = false
  | [] => True
  end.

(** No white space at either end. *)
Definition trimmed (s : str) : Prop := starts_clean s /\ starts_clean (rev s).

(** Nothing but white space (the empty text included). *)
Definition blank (s : str) : Prop :=
  Forall (fun c => Py_UNICODE_ISSPACE c = true) s.

(** [f] is the trimmed text of [s]: [s] is [f] with white space, and
    nothing else, before and after it, and [f] has none at either end. *)
Definition trim_of (s f : str) : Prop :=
  trimmed f
  /\ exists pre post, blank pre /\ blank post /\ s = pre ++ f ++ post.

(** Does the [try] block of the loop get a rank out of the card? *)
Definition has_parseable_rank (card : PageElement) : bool :=
  match card_rank card with
  | Some _ => true
  | None => false
  end.

(** The fields of a date as [datetime] keeps them. *)
Definition valid_date (t : datetime) : Prop :=
  1 <= month t /\ month t <= 12 /\ 1 <= day t /\ day t <= 31.

Definition same_date (t1 t2 : datetime) : Prop :=
  year t1 = year t2 /\ month t1 = month t2 /\ day t1 = day t2.

(** Two states with the same files and directories. *)
Definition same_fs (w1 w2 : World) : Prop :=
  files w1 = files w2 /\ dirs w1 = dirs w2.

(** ** Tactics *)

(** Unfold the monad of a run of [main]. *)
Ltac run_main :=
  unfold main, try_except, mbind, M_bind, bind, lift, print, print_err, ret.

Ltac nlia := zify; Z.to_euclidean_division_equations; lia.

(** Replace every comparison of the goal by its value. *)
Ltac settle_tests :=
  repeat first
    [ match goal with
      | |- context [?a <? ?b] =>
          first [ rewrite (proj2 (N.ltb_lt a b)) by nlia
                | rewrite (proj2 (N.ltb_ge a b)) by nlia ]
      end
    | match goal with
      | |- context [?a <=? ?b] =>
          first [ rewrite (proj2 (N.leb_le a b)) by nlia
                | rewrite (proj2 (N.leb_gt a b)) by nlia ]
      end ];
  cbn [andb orb negb].

(** Distinctness of the members of a list of literals. *)
(** Nested concatenations, brought to the right-nested form. *)
Ltac flatten_apps :=
  repeat first [ rewrite <- app_assoc
               | rewrite <- app_comm_cons
               | rewrite app_nil_r ].

Ltac distinct_literals :=
  vm_compute;
  repeat (constructor;
          [let H := fresh in
           intros H; cbn [In] in H; decompose [or] H;
           first [discriminate | contradiction]|]);
  constructor.

(** * Properties of the extractor *)

Lemma collect_items_app (a b : list PageElement) :
  collect_items (a ++ b) = collect_items a ++ collect_items b.
Proof.
  induction a as [|c a IH]; simpl; [reflexivity|].
  destruct (parse_card c); simpl; rewrite IH; reflexivity.
Qed.

Lemma In_collect_items (cards : list PageElement) (item : HotSearchItem) :
  In item (collect_items cards) <->
  exists card, In card cards /\ parse_card card = Some item.
Proof.
  induction cards as [|c cards IH]; simpl.
  - split; [intros [] | intros (card & [] & _)].
  - destruct (parse_card c) as [i|] eqn:E; simpl; rewrite IH; split.
    + intros [<- | (card & Hin & Hp)]; [exists c; auto | exists card; auto].
    + intros (card & [<- | Hin] & Hp);
        [left; congruence | right; exists card; auto].
    + intros (card & Hin & Hp); exists card; auto.
    + intros (card & [<- | Hin] & Hp); [congruence | exists card; auto].
Qed.

Lemma insert_by_rank_Permutation (x : HotSearchItem) (l : list HotSearchItem) :
  Permutation (insert_by_rank x l) (x :: l).
Proof.
  induction l as [|y l IH]; simpl; [reflexivity|].
  destruct (rank x <=? rank y)%Z; [reflexivity|].
  rewrite IH. apply perm_swap.
Qed.

Lemma sort_by_rank_Permutation (l : list HotSearchItem) :
  Permutation (sort_by_rank l) l.
Proof.
  induction l as [|x l IH]; simpl; [reflexivity|].
  rewrite insert_by_rank_Permutation, IH. reflexivity.
Qed.

Lemma In_sort_by_rank (l : list HotSearchItem) (x : HotSearchItem) :
  In x (sort_by_rank l) <-> In x l.
Proof.
  split; apply Permutation_in;
    [|symmetry]; apply sort_by_rank_Permutation.
Qed.

Lemma insert_by_rank_sorted (x : HotSearchItem) (l : list HotSearchItem) :
  StronglySorted rank_le l -> StronglySorted rank_le (insert_by_rank x l).
Proof.
  induction 1 as [|y l Hs IH Hy]; simpl.
  - constructor; constructor.
  - destruct (Z.leb_spec (rank x) (rank y)) as [Hle|Hgt].
    + constructor; [constructor; assumption|].
      constructor; [exact Hle|].
      eapply List.Forall_impl; [|exact Hy].
      intros z Hz; unfold rank_le in *; lia.
    + constructor; [exact IH|].
      eapply Permutation_Forall;
        [symmetry; apply insert_by_rank_Permutation|].
      constructor; [unfold rank_le; lia | exact Hy].
Qed.

Lemma sort_by_rank_sorted (l : list HotSearchItem) :
  StronglySorted rank_le (sort_by_rank l).
Proof.
  induction l as [|x l IH]; simpl;
    [constructor | apply insert_by_rank_sorted, IH].
Qed.

(** Stability: an inserted item only passes items of a smaller key. *)
Lemma insert_by_rank_filter (r : Z) (x : HotSearchItem) (l : list HotSearchItem) :
  List.filter (has_rank r) (insert_by_rank x l)
  = List.filter (has_rank r) (x :: l).
Proof.
  induction l as [|y l IH]; [reflexivity|].
  cbn [insert_by_rank].
  destruct (Z.leb_spec (rank x) (rank y)) as [Hle|Hgt]; [reflexivity|].
  cbn [List.filter] in *. rewrite IH. unfold has_rank.
  destruct (Z.eqb_spec (rank y) r), (Z.eqb_spec (rank x) r);
    try reflexivity; lia.
Qed.

Lemma sort_by_rank_stable (r : Z) (l : list HotSearchItem) :
  List.filter (has_rank r) (sort_by_rank l) = List.filter (has_rank r) l.
Proof.
  induction l as [|x l IH]; [reflexivity|].
  cbn [sort_by_rank]. rewrite insert_by_rank_filter.
  cbn [List.filter]. rewrite IH. reflexivity.
Qed.

Lemma filter_has_rank_head (x : HotSearchItem) (l : list HotSearchItem) :
  List.filter (has_rank (rank x)) (x :: l)
  = x :: List.filter (has_rank (rank x)) l.
Proof. cbn [List.filter]. unfold has_rank at 1. rewrite Z.eqb_refl. reflexivity. Qed.

Lemma sorted_filter_head (x y : HotSearchItem) (l1 l2 : list HotSearchItem) :
  StronglySorted rank_le (y :: l2) ->
  List.filter (has_rank (rank x)) (x :: l1)
  = List.filter (has_rank (rank x)) (y :: l2) ->
  (rank y <= rank x)%Z.
Proof.
  intros Hs Hf. rewrite filter_has_rank_head in Hf.
  assert (Hin : In x (y :: l2)).
  { eapply (proj1 (List.filter_In (has_rank (rank x)) x (y :: l2))).
    rewrite <- Hf. left. reflexivity. }
  destruct Hin as [-> | Hin]; [lia|].
  apply StronglySorted_inv in Hs as [_ Hall].
  exact (proj1 (List.Forall_forall _ _) Hall x Hin).
Qed.

(** A sorted list that keeps, for every key, the items of that key in their
    order is determined: any stable sort gives what [sort_by_rank] gives. *)
Lemma stable_sort_unique (l1 : list HotSearchItem) :
  forall l2,
    StronglySorted rank_le l1 -> StronglySorted rank_le l2 ->
    (forall r, List.filter (has_rank r) l1 = List.filter (has_rank r) l2) ->
    l1 = l2.
Proof.
  induction l1 as [|x l1 IH]; intros [|y l2] H1 H2 Hf.
  - reflexivity.
  - specialize (Hf (rank y)). rewrite filter_has_rank_head in Hf. discriminate.
  - specialize (Hf (rank x)). rewrite filter_has_rank_head in Hf. discriminate.
  - assert (Hxy : rank x = rank y).
    { pose proof (sorted_filter_head x y l1 l2 H2 (Hf (rank x))).
      pose proof (sorted_filter_head y x l2 l1 H1 (eq_sym (Hf (rank y)))).
      lia. }
    assert (x = y) as <-.
    { pose proof (Hf (rank x)) as E. rewrite filter_has_rank_head in E.
      rewrite Hxy, filter_has_rank_head in E. congruence. }
    f_equal. apply IH.
    + apply StronglySorted_inv in H1. tauto.
    + apply StronglySorted_inv in H2. tauto.
    + intros r. specialize (Hf r). cbn [List.filter] in Hf.
      destruct (has_rank r x); congruence.
Qed.

Lemma sorted_distinct_strict (l : list HotSearchItem) :
  StronglySorted rank_le l -> List.NoDup (List.map rank l) ->
  StronglySorted rank_lt l.
Proof.
  induction 1 as [|x l Hs IH Hx]; intros Hnd; [constructor|].
  cbn [List.map] in Hnd. apply List.NoDup_cons_iff in Hnd as [Hnotin Hnd].
  constructor; [apply IH, Hnd|].
  apply List.Forall_forall. intros y Hy.
  pose proof (proj1 (List.Forall_forall _ _) Hx y Hy) as Hle.
  unfold rank_le, rank_lt in *.
  assert (rank x <> rank y).
  { intros E. apply Hnotin. rewrite E. apply List.in_map, Hy. }
  lia.
Qed.


Lemma parse_card_None (card : PageElement) :
  card_rank card = None -> parse_card card = None.
Proof. unfold parse_card. intros ->. reflexivity. Qed.

Lemma card_rank_None (card : PageElement) :
  (select_one card rank_selector = None
   \/ exists t, select_one card rank_selector = Some t
                /\ py_int (strip (get_text t)) = None) ->
  card_rank card = None.
Proof.
  unfold card_rank. intros [-> | (t & -> & ->)]; reflexivity.
Qed.

(** C1 (rank-required): a card whose rank element is absent, or whose rank
    text [int] refuses, appends nothing: the output is what the other cards
    alone give, and every entry of the output comes from one of the other
    cards.  Nothing is assumed about the card's other fields. *)
Theorem C1_rank_required (soup card : PageElement)
  (before after : list PageElement) :
  select soup card_selector = before ++ card :: after ->
  (select_one card rank_selector = None
   \/ exists t, select_one card rank_selector = Some t
                /\ py_int (strip (get_text t)) = None) ->
  parse_card card = None
  /\ parse_soup soup = sort_by_rank (collect_items (before ++ after))
  /\ length (parse_soup soup)
     = (length (collect_items before) + length (collect_items after))%nat
  /\ forall item, In item (parse_soup soup) ->
       exists other, In other (before ++ after) /\ parse_card other = Some item.
Proof.
  intros Hsel Hbad.
  pose proof (parse_card_None card (card_rank_None card Hbad)) as Hnone.
  assert (Heq : parse_soup soup = sort_by_rank (collect_items (before ++ after))).
  { unfold parse_soup. rewrite Hsel, !collect_items_app. simpl.
    rewrite Hnone. reflexivity. }
  repeat split; [exact Hnone | exact Heq | |].
  - rewrite Heq, (Permutation_length (sort_by_rank_Permutation _)).
    rewrite collect_items_app. apply List.length_app.
  - intros item Hin. rewrite Heq in Hin.
    apply In_sort_by_rank, In_collect_items in Hin. exact Hin.
Qed.

(** A page with a rankless card between two ranked ones (scenario B). *)
Lemma C1_rank_required_witness :
  parse_card card_without_rank = None
  /\ parse_soup (page [full_card "2" "b"; card_without_rank; full_card "1" "a"])
     = sort_by_rank (collect_items ([full_card "2" "b"] ++ [full_card "1" "a"]))
  /\ length (parse_soup (page [full_card "2" "b"; card_without_rank;
                               full_card "1" "a"]))
     = (length (collect_items [full_card "2" "b"])
        + length (collect_items [full_card "1" "a"]))%nat
  /\ forall item,
       In item (parse_soup (page [full_card "2" "b"; card_without_rank;
                                  full_card "1" "a"])) ->
       exists other, In other ([full_card "2" "b"] ++ [full_card "1" "a"])
                     /\ parse_card other = Some item.
Proof.
  apply (C1_rank_required
           (page [full_card "2" "b"; card_without_rank; full_card "1" "a"])
           card_without_rank [full_card "2" "b"] [full_card "1" "a"]).
  - vm_compute. reflexivity.
  - left. vm_compute. reflexivity.
Defined.

(** What [parse_hot_search] returns is [parse_soup] of the tree the parser
    built. *)
Lemma parse_hot_search_inv (env : Env) (html : str)
  (items : list HotSearchItem) :
  parse_hot_search env html = Ok items <->
  exists soup, html_parser env html = Ok soup /\ items = parse_soup soup.
Proof.
  unfold parse_hot_search. destruct (html_parser env html) as [soup|e].
  - split; [intros [= <-]; eauto | intros (? & [= <-] & ->); reflexivity].
  - split; [discriminate | intros (? & ? & _); discriminate].
Qed.

(** C2 (rank-sort): the output is ascending in [rank], for every markup
    and every tree; it is a stable rearrangement of the items in document
    order (for every key, the items of that key keep their order); with
    distinct ranks it is strictly ascending. *)
Theorem C2_rank_sort (soup : PageElement) :
  StronglySorted rank_le (parse_soup soup)
  /\ (forall env html items,
        parse_hot_search env html = Ok items -> StronglySorted rank_le items)
  /\ Permutation (parse_soup soup) (collect_items (select soup card_selector))
  /\ (forall r, List.filter (has_rank r) (parse_soup soup)
                = List.filter (has_rank r)
                    (collect_items (select soup card_selector)))
  /\ (List.NoDup (List.map rank (collect_items (select soup card_selector))) ->
      StronglySorted rank_lt (parse_soup soup)).
Proof.
  unfold parse_soup. repeat split.
  - apply sort_by_rank_sorted.
  - intros env html items (soup' & _ & ->)%parse_hot_search_inv.
    apply sort_by_rank_sorted.
  - apply sort_by_rank_Permutation.
  - intros r. apply sort_by_rank_stable.
  - intros Hnd. apply sorted_distinct_strict; [apply sort_by_rank_sorted|].
    eapply Permutation_NoDup; [|exact Hnd].
    apply Permutation_map. symmetry. apply sort_by_rank_Permutation.
Qed.

(** Scenario A: ranks 2, 1, 3 in the document come out as 1, 2, 3. *)
Lemma C2_rank_sort_witness :
  List.map rank
    (parse_soup (page [full_card "2" "b"; full_card "1" "a"; full_card "3" "c"]))
  = [1; 2; 3]%Z
  /\ StronglySorted rank_lt
       (parse_soup (page [full_card "2" "b"; full_card "1" "a"; full_card "3" "c"])).
Proof.
  split; [vm_compute; reflexivity|].
  apply (C2_rank_sort
           (page [full_card "2" "b"; full_card "1" "a"; full_card "3" "c"])).
  vm_compute. repeat constructor; simpl; intuition discriminate.
Defined.

Lemma parse_card_in_output (soup card : PageElement) (item : HotSearchItem) :
  In card (select soup card_selector) -> parse_card card = Some item ->
  In item (parse_soup soup).
Proof.
  intros Hin Hp. unfold parse_soup.
  apply In_sort_by_rank, In_collect_items. exists card. auto.
Qed.

(** ** Trimming *)

Lemma lstrip_starts_clean (s : str) : starts_clean (lstrip s).
Proof.
  induction s as [|c s IH]; cbn [lstrip]; [exact I|].
  destruct (Py_UNICODE_ISSPACE c) eqn:E; [exact IH | exact E].
Qed.

Lemma lstrip_clean (s : str) : starts_clean s -> lstrip s = s.
Proof. destruct s as [|c s]; cbn; [reflexivity | intros ->; reflexivity]. Qed.

Lemma lstrip_snoc (s : str) (c : char) :
  Py_UNICODE_ISSPACE c = false -> lstrip (s ++ [c]) = lstrip s ++ [c].
Proof.
  intros Hc. induction s as [|a s IH]; cbn [app lstrip]; [rewrite Hc; reflexivity|].
  destruct (Py_UNICODE_ISSPACE a); [exact IH | reflexivity].
Qed.

Lemma rstrip_ends_clean (s : str) : starts_clean (rev (rstrip s)).
Proof. unfold rstrip. rewrite rev_involutive. apply lstrip_starts_clean. Qed.

Lemma rstrip_keeps_start (s : str) : starts_clean s -> starts_clean (rstrip s).
Proof.
  destruct s as [|c s]; [intros _; exact I|]. cbn [starts_clean]. intros Hc.
  unfold rstrip. cbn [rev]. rewrite lstrip_snoc by exact Hc.
  rewrite rev_app_distr. exact Hc.
Qed.

Lemma strip_trimmed (s : str) : trimmed (strip s).
Proof.
  unfold strip. split;
    [apply rstrip_keeps_start, lstrip_starts_clean | apply rstrip_ends_clean].
Qed.

Lemma strip_of_trimmed (s : str) : trimmed s -> strip s = s.
Proof.
  intros [Hs He]. unfold strip, rstrip.
  rewrite (lstrip_clean s Hs), (lstrip_clean (rev s) He). apply rev_involutive.
Qed.

Lemma lstrip_blank (s : str) : blank s -> lstrip s = [].
Proof. induction 1 as [|c s Hc _ IH]; cbn [lstrip]; [|rewrite Hc]; auto. Qed.

Lemma strip_blank (s : str) : blank s -> strip s = [].
Proof. intros H. unfold strip. rewrite (lstrip_blank s H). reflexivity. Qed.

Lemma trimmed_nil : trimmed [].
Proof. split; exact I. Qed.

Lemma text_or_empty_trimmed (tag : option PageElement) :
  trimmed (text_or_empty tag).
Proof. destruct tag; [apply strip_trimmed | apply trimmed_nil]. Qed.

Lemma href_or_empty_trimmed (tag : option PageElement) :
  trimmed (href_or_empty tag).
Proof.
  destruct tag as [t|]; cbn [href_or_empty]; [|apply trimmed_nil].
  destruct (has_attr t (pystr "href")); [apply strip_trimmed | apply trimmed_nil].
Qed.

Lemma lstrip_blank_app (pre s : str) : blank pre -> lstrip (pre ++ s) = lstrip s.
Proof. induction 1 as [|c pre Hc _ IH]; cbn [app lstrip]; [|rewrite Hc]; auto. Qed.

Lemma blank_rev (s : str) : blank s -> blank (rev s).
Proof. apply List.Forall_rev. Qed.

(** White space around a trimmed text is what [strip] removes. *)
Lemma strip_padding (pre s post : str) :
  blank pre -> blank post -> trimmed s -> strip (pre ++ s ++ post) = s.
Proof.
  intros Hpre Hpost [Hs He]. unfold strip, rstrip.
  rewrite lstrip_blank_app by exact Hpre.
  destruct s as [|c s].
  - cbn [app]. rewrite (lstrip_blank post Hpost). reflexivity.
  - rewrite (lstrip_clean ((c :: s) ++ post)) by exact Hs.
    rewrite rev_app_distr, lstrip_blank_app by (apply blank_rev, Hpost).
    rewrite (lstrip_clean _ He). apply rev_involutive.
Qed.

(** What [strip] takes away is white space at the two ends. *)
Lemma lstrip_decompose (s : str) :
  exists pre, blank pre /\ s = pre ++ lstrip s.
Proof.
  induction s as [|c s (pre & Hpre & IH)]; [exists []; split; [constructor | reflexivity]|].
  cbn [lstrip]. destruct (Py_UNICODE_ISSPACE c) eqn:E.
  - exists (c :: pre). split; [constructor; assumption|].
    cbn [app]. f_equal. exact IH.
  - exists []. split; [constructor | reflexivity].
Qed.

Lemma strip_decompose (s : str) :
  exists pre post, blank pre /\ blank post /\ s = pre ++ strip s ++ post.
Proof.
  destruct (lstrip_decompose s) as (pre & Hpre & Hs).
  destruct (lstrip_decompose (rev (lstrip s))) as (post & Hpost & Hr).
  exists pre, (rev post). split; [exact Hpre|].
  split; [apply blank_rev, Hpost|].
  unfold strip, rstrip. rewrite <- rev_app_distr, <- Hr, rev_involutive.
  exact Hs.
Qed.

(** [strip] computes the trimmed text, and nothing else is one. *)
Lemma strip_trim_of (s : str) : trim_of s (strip s).
Proof. split; [apply strip_trimmed | apply strip_decompose]. Qed.

Lemma trim_of_unique (s f : str) : trim_of s f -> f = strip s.
Proof.
  intros (Hf & pre & post & Hpre & Hpost & ->). symmetry.
  apply strip_padding; assumption.
Qed.

(** C3 (field-default): a card whose rank parses yields an entry with that
    rank, whatever else it contains; each of the four other fields depends
    on its own sub-element only: the empty text when the sub-element is
    missing; when it is there, its text (for the link, its [href]) without
    the white space at the two ends, that is, the one text that has no
    white space at either end and differs from the original by white space
    before and after it only.  The entry is part of the output for every
    page that holds the card. *)
Theorem C3_field_default (card : PageElement) (r : Z) :
  card_rank card = Some r ->
  exists item,
    parse_card card = Some item
    /\ rank item = r
    /\ (select_one card title_selector = None -> title item = [])
    /\ (forall t, select_one card title_selector = Some t ->
          title item = strip (get_text t)
          /\ trim_of (get_text t) (title item))
    /\ (select_one card summary_selector = None -> summary item = [])
    /\ (forall t, select_one card summary_selector = Some t ->
          summary item = strip (get_text t)
          /\ trim_of (get_text t) (summary item))
    /\ (select_one card hot_score_selector = None -> hot_score item = [])
    /\ (forall t, select_one card hot_score_selector = Some t ->
          hot_score item = strip (get_text t)
          /\ trim_of (get_text t) (hot_score item))
    /\ (select_one card detail_link_selector = None -> detail_url item = [])
    /\ (forall t, select_one card detail_link_selector = Some t ->
          has_attr t (pystr "href") = true ->
          detail_url item = strip (get_attr t (pystr "href"))
          /\ trim_of (get_attr t (pystr "href")) (detail_url item))
    /\ (forall soup, In card (select soup card_selector) ->
          In item (parse_soup soup)).
Proof.
  intros Hr. unfold parse_card. rewrite Hr.
  eexists. split; [reflexivity|]. cbn [rank title summary hot_score detail_url].
  split; [reflexivity|].
  split; [intros ->; reflexivity|].
  split; [intros t ->; split; [reflexivity | apply strip_trim_of]|].
  split; [intros ->; reflexivity|].
  split; [intros t ->; split; [reflexivity | apply strip_trim_of]|].
  split; [intros ->; reflexivity|].
  split; [intros t ->; split; [reflexivity | apply strip_trim_of]|].
  split; [intros ->; reflexivity|].
  split.
  - intros t -> Hh. cbn [href_or_empty]. rewrite Hh.
    split; [reflexivity | apply strip_trim_of].
  - intros soup Hin. eapply parse_card_in_output; [exact Hin|].
    unfold parse_card. rewrite Hr. reflexivity.
Qed.

(** A card with a padded title and a padded link and neither summary nor
    score: the two fields that are there come out trimmed, the two that
    are missing come out empty. *)
Lemma C3_field_default_witness :
  exists item,
    parse_card partial_card = Some item
    /\ item = {| rank := 7; title := [28909; 25628; 32; 97];
                 summary := []; hot_score := [];
                 detail_url := pystr "https://www.baidu.com/s?wd=x" |}
    /\ trim_of [32; 9; 28909; 25628; 32; 97; 10] (title item)
    /\ trim_of (pystr " https://www.baidu.com/s?wd=x ") (detail_url item)
    /\ In item (parse_soup (page [full_card "2" "b"; partial_card])).
Proof.
  destruct (C3_field_default partial_card 7%Z) as (item & Hp & Hrest).
  - vm_compute. reflexivity.
  - exists item. split; [exact Hp|].
    destruct Hrest as (_ & _ & Ht & _ & _ & _ & _ & _ & Hu & Hin).
    split; [vm_compute in Hp; injection Hp as <-; reflexivity|].
    split.
    + apply (Ht (div "c-single-text-ellipsis"
                   [NavigableString [32; 9; 28909; 25628; 32; 97; 10]])).
      vm_compute. reflexivity.
    + split.
      * apply (Hu (Tag (pystr "a")
                     [(pystr "class", pystr "c-single-text-ellipsis");
                      (pystr "href", pystr " https://www.baidu.com/s?wd=x ")]
                     [])); vm_compute; reflexivity.
      * apply Hin. vm_compute. auto.
Defined.

(** Scenario D: rank 5 and no other sub-element. *)
Example card_with_rank_only :
  parse_soup (page [bare_card "5"])
  = [ {| rank := 5; title := []; summary := []; hot_score := [];
         detail_url := [] |} ].
Proof. vm_compute. reflexivity. Qed.




(** C10: a link that matches the marker and has no [href] does not stop the
    card: the entry is produced, with the empty text as its [detail_url],
    which is also what a card without any link gets. *)
Theorem C10_link_without_href (card anchor : PageElement) (r : Z) :
  card_rank card = Some r ->
  select_one card detail_link_selector = Some anchor ->
  has_attr anchor (pystr "href") = false ->
  exists item,
    parse_card card = Some item
    /\ rank item = r
    /\ detail_url item = []
    /\ detail_url item = href_or_empty None
    /\ (forall soup, In card (select soup card_selector) ->
          In item (parse_soup soup)).
Proof.
  intros Hr Ha Hh. unfold parse_card. rewrite Hr, Ha.
  eexists. split; [reflexivity|].
  cbn [rank detail_url href_or_empty]. rewrite Hh.
  repeat split.
  intros soup Hin. eapply parse_card_in_output; [exact Hin|].
  unfold parse_card. rewrite Hr, Ha. cbn [href_or_empty]. rewrite Hh.
  reflexivity.
Qed.

Lemma C10_link_without_href_witness :
  exists item,
    parse_card card_without_href = Some item
    /\ rank item = 7%Z
    /\ detail_url item = []
    /\ In item (parse_soup (page [card_without_href])).
Proof.
  destruct (C10_link_without_href card_without_href
              (Tag (pystr "a") [(pystr "class", pystr "c-single-text-ellipsis")]
                 [NavigableString (pystr "more")]) 7%Z)
    as (item & Hp & Hrank & Hurl & _ & Hin).
  - vm_compute. reflexivity.
  - vm_compute. reflexivity.
  - vm_compute. reflexivity.
  - exists item. repeat split; try assumption.
    apply Hin. vm_compute. auto.
Defined.

(** * Properties of the entry point *)

Lemma json_dump_streams (env : Env) (path : str) (v : json) (w : World) :
  stdout (json_dump env path v w).2 = stdout w
  /\ stderr (json_dump env path v w).2 = stderr w.
Proof.
  unfold json_dump.
  destruct (open_fault env path); [auto|].
  case_bool_decide; [auto|].
  destruct (json_dump_bytes v); [|auto].
  destruct (write_fault env path); auto.
Qed.

Lemma mkdir_streams (env : Env) (path : str) (w : World) :
  stdout (mkdir env path w).2 = stdout w
  /\ stderr (mkdir env path w).2 = stderr w.
Proof.
  unfold mkdir. destruct (mkdir_fault env path); [auto|].
  case_bool_decide; auto.
Qed.

(** The snapshotter prints nothing. *)
Lemma save_results_streams (env : Env) (items : list HotSearchItem) (w : World) :
  stdout (save_results env items w).2 = stdout w
  /\ stderr (save_results env items w).2 = stderr w.
Proof.
  unfold save_results, mbind, M_bind, bind.
  pose proof (mkdir_streams env DATA_DIR w) as [Ho1 He1].
  destruct (mkdir env DATA_DIR w) as [[[]|e] w1]; cbn [snd] in *; [|auto].
  pose proof (json_dump_streams env (daily_path (now env))
                (payload (now env) items) w1) as [Ho2 He2].
  destruct (json_dump env (daily_path (now env)) _ w1) as [[[]|e] w2];
    cbn [snd] in *; [|split; congruence].
  pose proof (json_dump_streams env latest_path
                (payload (now env) items) w2) as [Ho3 He3].
  destruct (json_dump env latest_path _ w2) as [[[]|e] w3];
    cbn [snd ret] in *; split; congruence.
Qed.

Lemma main_fetch_raises (env : Env) (w : World) (e : exn) :
  fetch_hot_search_html env HOT_SEARCH_URL = Raise e ->
  main env w = (Ok 1%Z, log_err (error_message e) w).
Proof. intros H. run_main. rewrite H. reflexivity. Qed.

Lemma main_parse_raises (env : Env) (w : World) (html : str) (e : exn) :
  fetch_hot_search_html env HOT_SEARCH_URL = Ok html ->
  parse_hot_search env html = Raise e ->
  main env w = (Ok 1%Z, log_err (error_message e) w).
Proof. intros H1 H2. run_main. rewrite H1, H2. reflexivity. Qed.

Lemma main_no_items (env : Env) (w : World) (html : str) :
  fetch_hot_search_html env HOT_SEARCH_URL = Ok html ->
  parse_hot_search env html = Ok [] ->
  main env w = (Ok 1%Z, log_err no_items_message w).
Proof. intros H1 H2. run_main. rewrite H1, H2. reflexivity. Qed.

Lemma main_saves (env : Env) (w : World) (html : str)
  (items : list HotSearchItem) :
  fetch_hot_search_html env HOT_SEARCH_URL = Ok html ->
  parse_hot_search env html = Ok items ->
  items <> [] ->
  main env w =
  match save_results env items w with
  | (Ok daily_file, w1) => (Ok 0%Z, log_out (saved_message items daily_file) w1)
  | (Raise e, w1) => (Ok 1%Z, log_err (error_message e) w1)
  end.
Proof.
  intros H1 H2 Hne. run_main. rewrite H1, H2.
  destruct items as [|i items]; [congruence|].
  destruct (save_results env (i :: items) w) as [[d|e] w1]; reflexivity.
Qed.

(** Scenario C: a page without cards. *)
Example main_no_cards :
  main (sample_env 200 (page [])) empty_world
  = (Ok 1%Z, log_err no_items_message empty_world).
Proof. vm_compute. reflexivity. Qed.

Lemma raise_for_status_raises (r : Response) :
  (400 <= status_code r < 600)%Z -> exists e, raise_for_status r = Raise e.
Proof.
  intros H. unfold raise_for_status.
  destruct (Z.leb_spec 400 (status_code r)); [|lia].
  destruct (Z.ltb_spec (status_code r) 500); cbn [andb]; [eauto|].
  destruct (Z.leb_spec 500 (status_code r)); [|lia].
  destruct (Z.ltb_spec (status_code r) 600); cbn [andb]; [eauto|lia].
Qed.

Lemma fetch_raises (env : Env) :
  ((exists e, requests_get env HOT_SEARCH_URL headers 15%Z = Raise e)
   \/ (exists r, requests_get env HOT_SEARCH_URL headers 15%Z = Ok r
                 /\ (400 <= status_code r < 600)%Z)) ->
  exists e, fetch_hot_search_html env HOT_SEARCH_URL = Raise e.
Proof.
  unfold fetch_hot_search_html. intros [(e & ->) | (r & -> & Hs)]; [eauto|].
  destruct (raise_for_status_raises r Hs) as (e & ->). eauto.
Qed.

(** The fetcher raises exactly when the request raises or the status is
    one that [raise_for_status] rejects. *)
Lemma fetch_raises_iff (env : Env) :
  (exists e, fetch_hot_search_html env HOT_SEARCH_URL = Raise e)
  <-> ((exists e, requests_get env HOT_SEARCH_URL headers 15%Z = Raise e)
       \/ (exists r, requests_get env HOT_SEARCH_URL headers 15%Z = Ok r
                     /\ (400 <= status_code r < 600)%Z)).
Proof.
  split; [|apply fetch_raises].
  unfold fetch_hot_search_html.
  destruct (requests_get env HOT_SEARCH_URL headers 15%Z) as [r|e0];
    [|eauto].
  intros (e & He). right. exists r. split; [reflexivity|].
  unfold raise_for_status in He.
  destruct (Z.leb_spec 400 (status_code r)), (Z.ltb_spec (status_code r) 500);
    cbn [andb] in He; try lia;
    destruct (Z.leb_spec 500 (status_code r)), (Z.ltb_spec (status_code r) 600);
    cbn [andb] in He; try lia; discriminate.
Qed.

(** C6, as the code has it: when the request itself raises (no
    connection, a timeout) or the answer carries a status from 400 to 599,
    the run returns 1, sends one diagnostic message to the error stream and
    leaves files, directories and the standard output as they were. *)
Theorem C6_fetch_failure (env : Env) (w : World) :
  ((exists e, requests_get env HOT_SEARCH_URL headers 15%Z = Raise e)
   \/ (exists r, requests_get env HOT_SEARCH_URL headers 15%Z = Ok r
                 /\ (400 <= status_code r < 600)%Z)) ->
  exists e w',
    fetch_hot_search_html env HOT_SEARCH_URL = Raise e
    /\ main env w = (Ok 1%Z, w')
    /\ files w' = files w
    /\ dirs w' = dirs w
    /\ stdout w' = stdout w
    /\ stderr w' = stderr w ++ [error_message e].
Proof.
  intros H. destruct (fetch_raises env H) as (e & He).
  exists e, (log_err (error_message e) w).
  split; [exact He|]. split; [apply main_fetch_raises, He|].
  repeat split.
Qed.

(** C6 as stated (every status that is not a success status is a failed
    fetch, with exit code 1 and no file written) fails on a response with
    status 304 and a page with one card: [raise_for_status] raises for the
    statuses from 400 to 599 only, so the body is parsed, the run returns 0
    and both files are written. *)
Lemma C6_non_success_status_counterexample :
  ~ (forall env w r,
       requests_get env HOT_SEARCH_URL headers 15%Z = Ok r ->
       ~ (200 <= status_code r < 300)%Z ->
       exists w', main env w = (Ok 1%Z, w') /\ files w' = files w).
Proof.
  intros H.
  destruct (H (sample_env 304 (page [full_card "1" "a"])) empty_world
              {| status_code := 304; reason := pystr "Reason";
                 response_url := HOT_SEARCH_URL;
                 response_text := pystr "<html></html>" |})
    as (w' & Hrun & _).
  - reflexivity.
  - cbn [status_code]. lia.
  - apply (f_equal fst) in Hrun. vm_compute in Hrun. discriminate.
Qed.

(** With status 304 the run returns 0 and leaves both files. *)
Example main_not_modified :
  exists w' bytes,
    main (sample_env 304 (page [full_card "1" "a"])) empty_world = (Ok 0%Z, w')
    /\ files w' !! daily_path sample_clock = Some (Complete bytes)
    /\ files w' !! latest_path = Some (Complete bytes).
Proof.
  eexists _, _. split; [vm_compute; reflexivity|].
  split; vm_compute; reflexivity.
Qed.

(** Scenario E: the server answers 500. *)
Lemma C6_fetch_failure_witness :
  exists e w',
    fetch_hot_search_html (sample_env 500 (page [full_card "1" "a"]))
      HOT_SEARCH_URL = Raise e
    /\ main (sample_env 500 (page [full_card "1" "a"])) empty_world = (Ok 1%Z, w')
    /\ files w' = ∅
    /\ dirs w' = ∅
    /\ stdout w' = []
    /\ stderr w' = [error_message e].
Proof.
  apply (C6_fetch_failure (sample_env 500 (page [full_card "1" "a"])) empty_world).
  right. eexists. split; [reflexivity|]. cbn. lia.
Defined.

(** * Properties of the snapshotter *)

(** ** Induction on JSON values *)

Lemma json_induction (P : json -> Prop) :
  P JNull ->
  (forall b, P (JBool b)) ->
  (forall z, P (JInt z)) ->
  (forall s, P (JStr s)) ->
  (forall l, Forall P l -> P (JList l)) ->
  (forall d, Forall (fun kv => P kv.2) d -> P (JDict d)) ->
  forall v, P v.
Proof.
  intros Hnull Hbool Hint Hstr Hlist Hdict.
  fix IH 1. intros [ | b | z | s | l | d ].
  - exact Hnull.
  - apply Hbool.
  - apply Hint.
  - apply Hstr.
  - apply Hlist. induction l as [|x l IHl]; constructor; [apply IH | exact IHl].
  - apply Hdict. induction d as [|[k x] d IHd]; constructor;
      [apply IH | exact IHd].
Qed.

(** ** The text written is encodable *)

Lemma encodable_app (a b : str) :
  encodable a -> encodable b -> encodable (a ++ b).
Proof. unfold encodable. intros. apply Forall_app; auto. Qed.

Lemma encodable_cons (c : char) (s : str) :
  is_scalar c = true -> encodable s -> encodable (c :: s).
Proof. unfold encodable. intros. constructor; auto. Qed.

Lemma is_scalar_small (c : char) : c < 0xD800 -> is_scalar c = true.
Proof.
  intros H. unfold is_scalar.
  destruct (N.ltb_spec c 0xD800); [reflexivity | lia].
Qed.

Lemma encodable_small (s : str) :
  Forall (fun c => c < 256) s -> encodable s.
Proof.
  unfold encodable. apply List.Forall_impl.
  intros c H. apply is_scalar_small. lia.
Qed.

Lemma pystr_small (s : string) : Forall (fun c => c < 256) (pystr s).
Proof.
  unfold pystr. induction s as [|a s IH]; cbn; constructor;
    [apply N_ascii_bounded | exact IH].
Qed.

Lemma encodable_pystr (s : string) : encodable (pystr s).
Proof. apply encodable_small, pystr_small. Qed.

Lemma encodable_repeat (c : char) (n : nat) :
  is_scalar c = true -> encodable (repeat c n).
Proof.
  intros H. induction n; cbn; [constructor | apply encodable_cons; auto].
Qed.

Lemma digits_fuel_small (fuel : nat) (n : N) :
  Forall (fun c => c < 256) (digits_fuel fuel n).
Proof.
  revert n. induction fuel as [|f IH]; intros n; cbn [digits_fuel];
    [constructor|].
  destruct (N.ltb_spec n 10).
  - constructor; [lia | constructor].
  - apply Forall_app. split; [apply IH|].
    constructor; [|constructor].
    pose proof (N.mod_lt n 10). lia.
Qed.

Lemma encodable_N_digits (n : N) : encodable (N_digits n).
Proof. apply encodable_small, digits_fuel_small. Qed.

Lemma encodable_int_repr (z : Z) : encodable (int_repr z).
Proof.
  destruct z; cbn [int_repr]; try apply encodable_N_digits.
  apply encodable_cons; [reflexivity | apply encodable_N_digits].
Qed.

Lemma encodable_zero_pad (width : nat) (n : N) : encodable (zero_pad width n).
Proof.
  unfold zero_pad. apply encodable_app;
    [apply encodable_repeat; reflexivity | apply encodable_N_digits].
Qed.

Lemma hex_digit_small (n : N) : n < 16 -> hex_digit n < 256.
Proof. unfold hex_digit. destruct (N.ltb_spec n 10); lia. Qed.

Lemma encodable_escape_char (c : char) :
  is_scalar c = true -> encodable (escape_char c).
Proof.
  intros Hc. unfold escape_char.
  repeat match goal with
         | |- context [if ?b then _ else _] => destruct b eqn:?
         end;
    try (apply encodable_small; repeat constructor; lia).
  - apply encodable_app; [apply encodable_pystr|].
    apply encodable_small.
    constructor; [|constructor; [|constructor]]; apply hex_digit_small.
    + apply N.Div0.div_lt_upper_bound.
      apply N.ltb_lt in Heqb6. lia.
    + apply N.mod_lt. lia.
  - apply encodable_cons; [exact Hc | constructor].
Qed.

Lemma encodable_encode_basestring (s : str) :
  encodable s -> encodable (encode_basestring s).
Proof.
  intros Hs. unfold encode_basestring.
  apply encodable_cons; [reflexivity|].
  apply encodable_app; [|apply encodable_cons; [reflexivity | constructor]].
  induction Hs as [|c s Hc Hs IH]; cbn; [constructor|].
  apply encodable_app; [apply encodable_escape_char, Hc | exact IH].
Qed.

Lemma encodable_newline_indent (indent level : nat) :
  encodable (newline_indent indent level).
Proof.
  unfold newline_indent.
  apply encodable_cons; [reflexivity | apply encodable_repeat; reflexivity].
Qed.

Lemma encodable_encode_text (indent : nat) (v : json) :
  forall level, json_strings encodable v -> encodable (encode_text indent level v).
Proof.
  induction v as [ | b | z | s | l IH | d IH ] using json_induction;
    intros level Hv.
  - apply encodable_pystr.
  - destruct b; apply encodable_pystr.
  - apply encodable_int_repr.
  - apply encodable_encode_basestring, Hv.
  - destruct l as [|v0 vs]; [apply encodable_pystr|].
    cbn [encode_text]. cbn [json_strings] in Hv. destruct Hv as [Hv0 Hvs].
    inversion IH as [|? ? IH0 IHs]; subst.
    apply encodable_cons; [reflexivity|].
    apply encodable_app; [apply encodable_newline_indent|].
    apply encodable_app; [apply IH0, Hv0|].
    apply encodable_app;
      [|apply encodable_app;
         [apply encodable_newline_indent
         |apply encodable_cons; [reflexivity | constructor]]].
    clear IH IH0 Hv0 v0.
    induction IHs as [|x r Hx Hr IHr]; [constructor|].
    destruct Hvs as [Hvx Hvr].
    apply encodable_cons; [reflexivity|].
    apply encodable_app; [apply encodable_newline_indent|].
    apply encodable_app; [apply Hx, Hvx | apply IHr, Hvr].
  - destruct d as [|[k0 v0] kvs]; [apply encodable_pystr|].
    cbn [encode_text]. cbn [json_strings] in Hv. destruct Hv as (Hk0 & Hv0 & Hvs).
    inversion IH as [|? ? IH0 IHs]; subst. cbn [snd] in IH0.
    apply encodable_cons; [reflexivity|].
    apply encodable_app; [apply encodable_newline_indent|].
    apply encodable_app; [apply encodable_encode_basestring, Hk0|].
    apply encodable_app; [apply encodable_pystr|].
    apply encodable_app; [apply IH0, Hv0|].
    apply encodable_app;
      [|apply encodable_app;
         [apply encodable_newline_indent
         |apply encodable_cons; [reflexivity | constructor]]].
    clear IH IH0 Hv0 Hk0 v0 k0.
    induction IHs as [|[k x] r Hx Hr IHr]; [constructor|].
    destruct Hvs as (Hk & Hvx & Hvr). cbn [snd] in Hx.
    apply encodable_cons; [reflexivity|].
    apply encodable_app; [apply encodable_newline_indent|].
    apply encodable_app; [apply encodable_encode_basestring, Hk|].
    apply encodable_app; [apply encodable_pystr|].
    apply encodable_app; [apply Hx, Hvx | apply IHr, Hvr].
Qed.

Lemma encodable_isoformat (t : datetime) : encodable (isoformat t).
Proof.
  unfold isoformat.
  repeat (apply encodable_app;
          [first [apply encodable_zero_pad | apply encodable_pystr]|]).
  apply encodable_app; [|apply encodable_pystr].
  destruct (microsecond t =? 0); [constructor|].
  apply encodable_cons; [reflexivity | apply encodable_zero_pad].
Qed.

(** The encoder answers exactly for the values whose integers all fit,
    and then with [encode_text]. *)
Lemma encode_Some (indent : nat) (v : json) :
  forall level,
    encode indent level v
    = if json_ints_fit v then Some (encode_text indent level v) else None.
Proof.
  induction v as [ | b | z | s | l IH | d IH ] using json_induction;
    intros level.
  - reflexivity.
  - destruct b; reflexivity.
  - reflexivity.
  - reflexivity.
  - destruct l as [|v0 vs]; [reflexivity|].
    inversion IH as [|? ? IH0 IHs]; subst.
    cbn [encode encode_text json_ints_fit]. rewrite IH0.
    destruct (json_ints_fit v0) eqn:E0; [|reflexivity].
    cbn [mbind option_bind andb].
    match goal with
    | |- context [mbind _ (?f vs)] => set (items := f)
    end.
    match goal with
    | |- context [if ?g vs then _ else _] => set (fits := g)
    end.
    match goal with
    | |- context [_ ++ ?g vs ++ _] => set (texts := g)
    end.
    assert (H : items vs = if fits vs then Some (texts vs) else None).
    { clear IH IH0 E0. induction IHs as [|x r Hx Hr IHr]; [reflexivity|].
      change (items (x :: r))
        with (encode indent (S level) x ≫= λ t,
              items r ≫= λ ts,
              Some (44 :: newline_indent indent (S level) ++ t ++ ts)).
      change (fits (x :: r)) with (json_ints_fit x && fits r).
      change (texts (x :: r))
        with (44 :: newline_indent indent (S level)
              ++ encode_text indent (S level) x ++ texts r).
      rewrite Hx, IHr.
      destruct (json_ints_fit x), (fits r); reflexivity. }
    rewrite H. destruct (fits vs); reflexivity.
  - destruct d as [|[k0 v0] kvs]; [reflexivity|].
    inversion IH as [|? ? IH0 IHs]; subst. cbn [snd] in IH0.
    cbn [encode encode_text json_ints_fit]. rewrite IH0.
    destruct (json_ints_fit v0) eqn:E0; [|reflexivity].
    cbn [mbind option_bind andb].
    match goal with
    | |- context [mbind _ (?f kvs)] => set (members := f)
    end.
    match goal with
    | |- context [if ?g kvs then _ else _] => set (fits := g)
    end.
    match goal with
    | |- context [_ ++ ?g kvs ++ _] => set (texts := g)
    end.
    assert (H : members kvs = if fits kvs then Some (texts kvs) else None).
    { clear IH IH0 E0. induction IHs as [|[k x] r Hx Hr IHr]; [reflexivity|].
      cbn [snd] in Hx.
      change (members ((k, x) :: r))
        with (encode indent (S level) x ≫= λ t,
              members r ≫= λ ts,
              Some (44 :: newline_indent indent (S level)
                    ++ encode_basestring k ++ pystr ": " ++ t ++ ts)).
      change (fits ((k, x) :: r)) with (json_ints_fit x && fits r).
      change (texts ((k, x) :: r))
        with (44 :: newline_indent indent (S level)
              ++ encode_basestring k ++ pystr ": "
              ++ encode_text indent (S level) x ++ texts r).
      rewrite Hx, IHr.
      destruct (json_ints_fit x), (fits r); reflexivity. }
    rewrite H. destruct (fits kvs); reflexivity.
Qed.

Lemma json_dumps_fits (v : json) :
  json_ints_fit v = true -> json_dumps v = Some (encode_text 2 0 v).
Proof. intros H. unfold json_dumps. rewrite encode_Some, H. reflexivity. Qed.

Lemma json_dumps_inv (v : json) (text : str) :
  json_dumps v = Some text ->
  json_ints_fit v = true /\ text = encode_text 2 0 v.
Proof.
  unfold json_dumps. rewrite encode_Some.
  destruct (json_ints_fit v); [intros [= <-]; auto | discriminate].
Qed.

Lemma payload_ints_fit (t : datetime) (items : list HotSearchItem) :
  json_ints_fit (payload t items) = true
  <-> Forall (fun i => int_fits (rank i) = true) items.
Proof.
  cbn [payload json_ints_fit andb]. rewrite andb_true_r.
  induction items as [|i items IH]; cbn [List.map].
  - split; [constructor | reflexivity].
  - cbn [asdict json_ints_fit]. rewrite !andb_true_r.
    rewrite andb_true_iff, IH. split.
    + intros [H1 H2]. constructor; assumption.
    + intros H. inversion H; subst. auto.
Qed.

Lemma encodable_payload (t : datetime) (items : list HotSearchItem) :
  Forall item_encodable items ->
  encodable (encode_text 2 0 (payload t items)).
Proof.
  intros Hitems. apply encodable_encode_text. cbn [payload json_strings].
  split; [apply encodable_pystr|]. split; [apply encodable_isoformat|].
  split; [apply encodable_pystr|]. split; [|exact I].
  induction Hitems as [|i items (_ & Ht & Hs & Hh & Hd) _ IH]; cbn [List.map];
    [exact I|].
  split; [|exact IH].
  cbn [asdict json_strings].
  repeat split; try apply encodable_pystr; assumption.
Qed.

Lemma items_fit (items : list HotSearchItem) :
  Forall item_encodable items ->
  Forall (fun i => int_fits (rank i) = true) items.
Proof.
  intros H. eapply Forall_impl; [exact H|]. intros i Hi. apply Hi.
Qed.

Lemma utf8_char_scalar (c : char) :
  is_scalar c = true -> exists b, utf8_char c = Some b.
Proof.
  unfold is_scalar, utf8_char. intros H.
  destruct (N.ltb_spec c 0x80); [eauto|].
  destruct (N.ltb_spec c 0x800); [eauto|].
  destruct (N.ltb_spec c 0x10000).
  - destruct (N.leb_spec 0xD800 c), (N.leb_spec c 0xDFFF); cbn [andb]; eauto.
    exfalso.
    destruct (N.ltb_spec c 0xD800); [lia|].
    destruct (N.ltb_spec 0xDFFF c); [lia|].
    discriminate.
  - destruct (N.ltb_spec c 0x110000); [eauto|].
    destruct (N.ltb_spec c 0xD800); [lia|].
    destruct (N.ltb_spec 0xDFFF c); discriminate.
Qed.

Lemma utf8_encode_encodable (s : str) :
  encodable s -> exists bytes, utf8_encode s = Some bytes.
Proof.
  induction 1 as [|c s Hc _ (bs & IH)]; cbn [utf8_encode]; [eauto|].
  destruct (utf8_char_scalar c Hc) as (b & ->). rewrite IH. eauto.
Qed.

(** The bytes of a dump are the UTF-8 form of the encoder's text. *)
Lemma json_dump_bytes_Some (v : json) (bytes : list N) :
  json_dump_bytes v = Some bytes
  <-> exists text, json_dumps v = Some text /\ utf8_encode text = Some bytes.
Proof.
  unfold json_dump_bytes. destruct (json_dumps v) as [text|]; cbn.
  - split; [eauto|]. intros (t & [= <-] & H). exact H.
  - split; [discriminate|]. intros (t & [=] & _).
Qed.

(** Items that can be encoded give a dump. *)
Lemma json_dump_bytes_payload (t : datetime) (items : list HotSearchItem) :
  Forall item_encodable items ->
  exists bytes, json_dump_bytes (payload t items) = Some bytes.
Proof.
  intros Hitems.
  destruct (utf8_encode_encodable _ (encodable_payload t items Hitems))
    as (bytes & Hb).
  exists bytes. apply json_dump_bytes_Some. eexists. split; [|exact Hb].
  apply json_dumps_fits, payload_ints_fit, items_fit, Hitems.
Qed.

(** ** The three paths are distinct *)

Lemma daily_latest_distinct (t : datetime) : daily_path t <> latest_path.
Proof.
  intros H. apply (f_equal (fun l => nth 5 l 0)) in H.
  vm_compute in H. discriminate.
Qed.

Lemma daily_not_data_dir (t : datetime) : daily_path t <> DATA_DIR.
Proof.
  intros H. apply (f_equal (fun l => nth 4 l 0)) in H.
  vm_compute in H. discriminate.
Qed.

Lemma latest_not_data_dir : latest_path <> DATA_DIR.
Proof. vm_compute. discriminate. Qed.

(** ** A successful save *)

(** The state a successful save leaves. *)
Lemma save_results_succeeds (env : Env) (items : list HotSearchItem)
  (w : World) (bytes : list N) :
  fs_accepts env w ->
  json_dump_bytes (payload (now env) items) = Some bytes ->
  save_results env items w
  = (Ok (daily_path (now env)),
     {| files := <[latest_path := Complete bytes]>
                   (<[daily_path (now env) := Complete bytes]> (files w));
        dirs := {[ DATA_DIR ]} ∪ dirs w;
        stdout := stdout w; stderr := stderr w |}).
Proof.
  intros (Hmk & Hnofile & Hod & Hdd & Hwd & Hol & Hld & Hwl) Henc.
  unfold save_results, mbind, M_bind, bind, mkdir.
  rewrite Hmk. rewrite bool_decide_eq_false_2
    by (rewrite Hnofile; intros [? ?]; discriminate).
  unfold json_dump at 1. cbn [files dirs stdout stderr].
  rewrite Hod. rewrite bool_decide_eq_false_2.
  2:{ intros [Hin%elem_of_singleton|Hin]%elem_of_union;
        [exact (daily_not_data_dir _ Hin) | exact (Hdd Hin)]. }
  rewrite Henc, Hwd.
  unfold json_dump, set_file. cbn [files dirs stdout stderr].
  rewrite Hol. rewrite bool_decide_eq_false_2.
  2:{ intros [Hin%elem_of_singleton|Hin]%elem_of_union;
        [exact (latest_not_data_dir Hin) | exact (Hld Hin)]. }
  rewrite Henc, Hwl. reflexivity.
Qed.

(** ** Decoding what was encoded *)

Lemma utf8_decode_char (c : char) (b rest : list N) :
  utf8_char c = Some b ->
  utf8_decode (b ++ rest) = option_map (cons c) (utf8_decode rest).
Proof.
  unfold utf8_char.
  destruct (N.ltb_spec c 0x80).
  { intros [= <-]. cbn [app utf8_decode]. settle_tests. reflexivity. }
  destruct (N.ltb_spec c 0x800).
  { intros [= <-]. cbn [app utf8_decode]. unfold is_continuation.
    settle_tests. do 2 f_equal. nlia. }
  destruct (N.ltb_spec c 0x10000).
  { destruct (N.leb_spec 0xD800 c), (N.leb_spec c 0xDFFF); cbn [andb];
      try discriminate; intros [= <-]; cbn [app utf8_decode];
      unfold is_continuation; settle_tests; do 2 f_equal; nlia. }
  destruct (N.ltb_spec c 0x110000); [|discriminate].
  intros [= <-]. cbn [app utf8_decode]. unfold is_continuation.
  settle_tests. do 2 f_equal. nlia.
Qed.

Lemma utf8_decode_encode (s : str) (bytes : list N) :
  utf8_encode s = Some bytes -> utf8_decode bytes = Some s.
Proof.
  revert bytes. induction s as [|c s IH]; cbn [utf8_encode]; intros bytes.
  - intros [= <-]. reflexivity.
  - destruct (utf8_char c) as [b|] eqn:Hc; [|discriminate].
    destruct (utf8_encode s) as [bs|]; [|discriminate].
    intros [= <-]. rewrite (utf8_decode_char c b bs Hc), (IH bs eq_refl).
    reflexivity.
Qed.

(** ** Reading back what the encoder wrote *)

Lemma encode_list_eq (indent level : nat) (v0 : json) (vs : list json) :
  encode_text indent level (JList (v0 :: vs))
  = 91 :: newline_indent indent (S level) ++ encode_text indent (S level) v0
    ++ encode_items indent (S level) vs
    ++ newline_indent indent level ++ [93].
Proof.
  cbn [encode_text]. do 3 f_equal. f_equal.
  induction vs as [|x r IH]; [reflexivity|].
  rewrite IH. unfold encode_items. cbn [List.map List.concat].
  rewrite <- app_comm_cons, <- app_assoc. reflexivity.
Qed.

Lemma encode_dict_eq (indent level : nat) (kv0 : str * json)
  (kvs : list (str * json)) :
  encode_text indent level (JDict (kv0 :: kvs))
  = 123 :: newline_indent indent (S level)
    ++ encode_member indent (S level) kv0
    ++ encode_members indent (S level) kvs
    ++ newline_indent indent level ++ [125].
Proof.
  destruct kv0 as [k0 v0]. cbn [encode_text]. unfold encode_member at 1.
  cbn [fst snd]. rewrite <- !app_assoc. do 5 f_equal. f_equal.
  induction kvs as [|[k x] r IH]; [reflexivity|].
  rewrite IH. unfold encode_members, encode_member.
  cbn [List.map List.concat fst snd].
  rewrite <- app_comm_cons, <- !app_assoc. reflexivity.
Qed.

(** *** Integers *)

Lemma N_digits_fuel (n : N) : n < 2 ^ N.of_nat (S (N.to_nat (N.log2 n))).
Proof.
  rewrite Nat2N.inj_succ, N2Nat.id.
  destruct (N.eq_dec n 0) as [->|Hn]; [reflexivity|].
  apply N.log2_spec. lia.
Qed.

Lemma fuel_step (f : nat) (n : N) :
  n < 2 ^ N.of_nat (S f) -> 10 <= n -> n / 10 < 2 ^ N.of_nat f.
Proof.
  rewrite Nat2N.inj_succ, N.pow_succ_r'. intros Hlt Hge.
  apply N.Div0.div_lt_upper_bound. lia.
Qed.

Lemma digits_fuel_digits (f : nat) (n : N) :
  Forall (fun c => is_digit c = true) (digits_fuel f n).
Proof.
  revert n. induction f as [|f IH]; intros n; cbn [digits_fuel];
    [constructor|].
  destruct (N.ltb_spec n 10).
  - constructor; [|constructor]. unfold is_digit. settle_tests. reflexivity.
  - apply Forall_app. split; [apply IH|].
    constructor; [|constructor]. unfold is_digit. settle_tests. reflexivity.
Qed.

Lemma digits_value_snoc (l : str) (d : char) :
  digits_value (l ++ [d]) = (10 * digits_value l + Z.of_N (d - 48))%Z.
Proof. unfold digits_value. rewrite fold_left_app. reflexivity. Qed.

Lemma digits_fuel_value (f : nat) (n : N) :
  n < 2 ^ N.of_nat f -> digits_value (digits_fuel f n) = Z.of_N n.
Proof.
  revert n. induction f as [|f IH]; intros n Hn.
  - cbn in Hn. assert (n = 0) as -> by lia. reflexivity.
  - cbn [digits_fuel]. destruct (N.ltb_spec n 10).
    + unfold digits_value. cbn [fold_left]. nlia.
    + rewrite digits_value_snoc, IH by (apply fuel_step; assumption). nlia.
Qed.

Lemma digits_fuel_head (f : nat) (n : N) :
  n < 2 ^ N.of_nat f -> 0 < n ->
  exists c r, digits_fuel f n = c :: r /\ 49 <= c /\ c <= 57.
Proof.
  revert n. induction f as [|f IH]; intros n Hn Hpos.
  - cbn in Hn. lia.
  - cbn [digits_fuel]. destruct (N.ltb_spec n 10).
    + exists (48 + n), []. repeat split; lia.
    + destruct (IH (n / 10)) as (c & r & -> & Hc);
        [apply fuel_step; assumption | nlia |].
      exists c, (r ++ [48 + n mod 10]). auto.
Qed.

Lemma take_digits_app (ds rest : str) :
  Forall (fun c => is_digit c = true) ds ->
  take_digits rest = ([], rest) ->
  take_digits (ds ++ rest) = (ds, rest).
Proof.
  intros Hds Hrest. induction Hds as [|c ds Hc _ IH]; [exact Hrest|].
  cbn [app take_digits]. rewrite Hc, IH. reflexivity.
Qed.

(** The literal of a positive number, read back. *)
Lemma take_positive_digits (n : N) (rest : str) :
  0 < n -> take_digits rest = ([], rest) ->
  exists c r,
    N_digits n ++ rest = c :: r
    /\ is_digit c = true /\ (c =? 48) = false /\ (c =? 45) = false
    /\ take_digits (c :: r) = (N_digits n, rest)
    /\ digits_value (N_digits n) = Z.of_N n.
Proof.
  intros Hpos Hrest.
  destruct (digits_fuel_head _ n (N_digits_fuel n) Hpos) as (c & r & E & Hc).
  exists c, (r ++ rest). unfold N_digits at 1. rewrite E.
  split; [reflexivity|].
  split; [unfold is_digit; settle_tests; reflexivity|].
  split; [apply N.eqb_neq; lia|]. split; [apply N.eqb_neq; lia|].
  split.
  - change (c :: r ++ rest) with ((c :: r) ++ rest). rewrite <- E.
    apply take_digits_app; [apply digits_fuel_digits | exact Hrest].
  - apply digits_fuel_value, N_digits_fuel.
Qed.

Lemma int_fits_ltb (z : Z) :
  int_fits z = true ->
  (int_max_str_digits <? length (N_digits (Z.abs_N z)))%nat = false.
Proof. unfold int_fits. intros H. apply Nat.ltb_ge, Nat.leb_le, H. Qed.

(** The scanner reads back the text of an integer that fits. *)
Lemma match_number_int_repr (z : Z) (rest : str) :
  int_fits z = true ->
  number_stop rest ->
  match_number (int_repr z ++ rest) = Some (JInt z, rest).
Proof.
  intros Hfits%int_fits_ltb [Hstop Hfloat].
  destruct z as [|p|p]; cbn [int_repr].
  - change (N_digits (Z.to_N 0)) with [48]. cbn [app].
    unfold match_number. change (48 =? 45) with false. cbv iota beta.
    change (is_digit 48) with true. change (48 =? 48) with true.
    cbv iota beta. rewrite Hfloat. reflexivity.
  - change (Z.abs_N (Z.pos p)) with (Z.to_N (Z.pos p)) in Hfits.
    destruct (take_positive_digits (Z.to_N (Z.pos p)) rest)
      as (c & r & -> & Hd & H48 & H45 & Htake & Hval); [lia | exact Hstop |].
    unfold match_number. rewrite H45, Hd, H48, Htake, Hfloat, Hfits, Hval.
    reflexivity.
  - change (Z.abs_N (Z.neg p)) with (N.pos p) in Hfits.
    destruct (take_positive_digits (N.pos p) rest)
      as (c & r & E & Hd & H48 & H45 & Htake & Hval); [lia | exact Hstop |].
    cbn [app]. unfold match_number. change (45 =? 45) with true.
    cbv iota beta. rewrite E, Hd, H48, Htake, Hfloat, Hfits, Hval.
    reflexivity.
Qed.

(** *** Strings *)

Lemma scanstring_plain (c : char) (r : str) :
  c <> 34 -> c <> 92 -> 32 <= c ->
  scanstring (c :: r) = push c (scanstring r).
Proof.
  intros H1 H2 H3. cbn [scanstring].
  rewrite (proj2 (N.eqb_neq c 34) H1), (proj2 (N.eqb_neq c 92) H2).
  destruct (N.leb_spec c 31); [lia | reflexivity].
Qed.

Lemma scanstring_escape (e ch : char) (r : str) :
  e <> 117 -> unescape e = Some ch ->
  scanstring (92 :: e :: r) = push ch (scanstring r).
Proof.
  intros H1 H2. cbn [scanstring]. change (92 =? 34) with false.
  change (92 =? 92) with true. cbv iota.
  rewrite (proj2 (N.eqb_neq e 117) H1), H2. reflexivity.
Qed.

Lemma scanstring_unicode (h1 h2 h3 h4 x u : char) (r : str) :
  hex4 h1 h2 h3 h4 = Some u -> is_high_surrogate u = false ->
  scanstring (92 :: 117 :: h1 :: h2 :: h3 :: h4 :: x :: r)
  = push u (scanstring (x :: r)).
Proof.
  intros Hh Hs. cbn [scanstring]. change (92 =? 34) with false.
  change (92 =? 92) with true. change (117 =? 117) with true. cbv iota.
  rewrite Hh, Hs. cbn [andb].
  destruct r as [|a1 [|a2 [|a3 [|a4 [|a5 [|a6 r]]]]]]; reflexivity.
Qed.

Lemma hex_value_hex_digit (n : N) : n < 16 -> hex_value (hex_digit n) = Some n.
Proof.
  intros H. unfold hex_digit, hex_value.
  destruct (N.ltb_spec n 10); settle_tests; f_equal; lia.
Qed.

Lemma hex4_control (c : char) :
  c < 32 -> hex4 48 48 (hex_digit (c / 16)) (hex_digit (c mod 16)) = Some c.
Proof.
  intros H. unfold hex4. change (hex_value 48) with (Some 0).
  rewrite !hex_value_hex_digit by nlia. f_equal. nlia.
Qed.

(** One character of a string body, written and read back; the body is
    never the end of the text, as the closing quote follows. *)
Lemma scanstring_escape_char (c x : char) (r : str) :
  scanstring (escape_char c ++ x :: r) = push c (scanstring (x :: r)).
Proof.
  unfold escape_char.
  destruct (N.eqb_spec c 34) as [->|H34];
    [apply scanstring_escape; [discriminate | reflexivity]|].
  destruct (N.eqb_spec c 92) as [->|H92];
    [apply scanstring_escape; [discriminate | reflexivity]|].
  destruct (N.eqb_spec c 10) as [->|H10];
    [apply scanstring_escape; [discriminate | reflexivity]|].
  destruct (N.eqb_spec c 13) as [->|H13];
    [apply scanstring_escape; [discriminate | reflexivity]|].
  destruct (N.eqb_spec c 9) as [->|H9];
    [apply scanstring_escape; [discriminate | reflexivity]|].
  destruct (N.eqb_spec c 8) as [->|H8];
    [apply scanstring_escape; [discriminate | reflexivity]|].
  destruct (N.eqb_spec c 12) as [->|H12];
    [apply scanstring_escape; [discriminate | reflexivity]|].
  destruct (N.ltb_spec c 32) as [Hlt|Hge].
  - apply scanstring_unicode; [apply hex4_control, Hlt|].
    unfold is_high_surrogate. settle_tests. reflexivity.
  - apply scanstring_plain; assumption.
Qed.

Lemma scanstring_body (s rest : str) :
  scanstring (List.concat (List.map escape_char s) ++ 34 :: rest)
  = Some (s, rest).
Proof.
  induction s as [|c s IH]; [reflexivity|].
  cbn [List.map List.concat]. rewrite <- app_assoc.
  destruct (List.concat (List.map escape_char s) ++ 34 :: rest)
    as [|x r] eqn:E.
  - destruct (List.concat (List.map escape_char s)); discriminate.
  - rewrite scanstring_escape_char, IH. reflexivity.
Qed.

Lemma encode_basestring_eq (s rest : str) :
  encode_basestring s ++ rest
  = 34 :: List.concat (List.map escape_char s) ++ 34 :: rest.
Proof.
  unfold encode_basestring. cbn [app]. rewrite <- app_assoc. reflexivity.
Qed.

(** *** Blanks and first characters *)

Lemma skip_ws_repeat (n : nat) (s : str) : skip_ws (repeat 32 n ++ s) = skip_ws s.
Proof. induction n as [|n IH]; [reflexivity | exact IH]. Qed.

Lemma skip_ws_newline_indent (indent level : nat) (s : str) :
  skip_ws (newline_indent indent level ++ s) = skip_ws s.
Proof. unfold newline_indent. cbn [app skip_ws]. apply skip_ws_repeat. Qed.

Lemma skip_ws_start (c : char) (s : str) :
  is_json_ws c = false -> skip_ws (c :: s) = c :: s.
Proof. intros H. cbn [skip_ws]. rewrite H. reflexivity. Qed.

Lemma term_start_not_ws (c : char) : term_start c -> is_json_ws c = false.
Proof.
  unfold term_start, is_json_ws. intros H.
  destruct (N.eqb_spec c 32), (N.eqb_spec c 9), (N.eqb_spec c 10),
    (N.eqb_spec c 13); try reflexivity; lia.
Qed.

Lemma int_repr_start (z : Z) :
  exists c r, int_repr z = c :: r /\ (c = 45 \/ (48 <= c /\ c <= 57)).
Proof.
  destruct z as [|p|p]; cbn [int_repr].
  - exists 48, []. split; [reflexivity | lia].
  - destruct (digits_fuel_head _ (Z.to_N (Z.pos p)) (N_digits_fuel _))
      as (c & r & E & Hc); [lia|].
    exists c, r. split; [exact E | lia].
  - eexists _, _. split; [reflexivity | auto].
Qed.

Lemma encode_start (indent level : nat) (v : json) (rest : str) :
  exists c r, encode_text indent level v ++ rest = c :: r /\ term_start c.
Proof.
  unfold term_start.
  destruct v as [ | [] | z | s | [|v0 vs] | [|[k0 v0] kvs] ].
  - exists 110, (pystr "ull" ++ rest). split; [reflexivity | lia].
  - exists 116, (pystr "rue" ++ rest). split; [reflexivity | lia].
  - exists 102, (pystr "alse" ++ rest). split; [reflexivity | lia].
  - destruct (int_repr_start z) as (c & r & E & Hc).
    exists c, (r ++ rest). cbn [encode_text]. rewrite E. split; [reflexivity | lia].
  - eexists 34, _. split; [reflexivity | lia].
  - eexists 91, _. split; [reflexivity | lia].
  - eexists 91, _. split; [reflexivity | lia].
  - eexists 123, _. split; [reflexivity | lia].
  - eexists 123, _. split; [reflexivity | lia].
Qed.

Lemma skip_ws_encode (indent level : nat) (v : json) (rest : str) :
  skip_ws (encode_text indent level v ++ rest) = encode_text indent level v ++ rest.
Proof.
  destruct (encode_start indent level v rest) as (c & r & -> & Hc).
  apply skip_ws_start, term_start_not_ws, Hc.
Qed.

Lemma number_stop_comma (s : str) : number_stop (44 :: s).
Proof. split; reflexivity. Qed.

Lemma number_stop_newline (indent level : nat) (s : str) :
  number_stop (newline_indent indent level ++ s).
Proof. split; reflexivity. Qed.

Lemma number_stop_nil : number_stop [].
Proof. split; reflexivity. Qed.

(** *** Sizes and well-formedness of lists and dicts *)

Lemma json_size_list (l : list json) :
  json_size (JList l) = S (list_sum (List.map json_size l)).
Proof.
  cbn [json_size]. f_equal. induction l as [|x r IH]; [reflexivity|].
  cbn [List.map list_sum]. rewrite IH. reflexivity.
Qed.

Lemma json_size_dict (d : list (str * json)) :
  json_size (JDict d) = S (list_sum (List.map (fun kv => json_size kv.2) d)).
Proof.
  cbn [json_size]. f_equal. induction d as [|[k x] r IH]; [reflexivity|].
  cbn [List.map list_sum snd]. rewrite IH. reflexivity.
Qed.

Lemma json_size_pos (v : json) : (1 <= json_size v)%nat.
Proof. destruct v; cbn [json_size]; lia. Qed.

Lemma json_wf_list (l : list json) : json_wf (JList l) <-> Forall json_wf l.
Proof.
  cbn [json_wf]. induction l as [|x r IH].
  - split; [constructor | trivial].
  - rewrite IH. split; [intros []; constructor; auto|].
    intros H. inversion H; auto.
Qed.

Lemma json_wf_dict (d : list (str * json)) :
  json_wf (JDict d)
  <-> List.NoDup (List.map fst d) /\ Forall (fun kv => json_wf kv.2) d.
Proof.
  cbn [json_wf]. apply and_iff_compat_l.
  induction d as [|[k x] r IH].
  - split; [constructor | trivial].
  - rewrite IH. split; [intros []; constructor; auto|].
    intros H. inversion H; auto.
Qed.

Lemma json_ints_fit_list (l : list json) :
  json_ints_fit (JList l) = true
  <-> Forall (fun x => json_ints_fit x = true) l.
Proof.
  cbn [json_ints_fit]. induction l as [|x r IH].
  - split; [constructor | trivial].
  - rewrite andb_true_iff, IH. split; [intros []; constructor; auto|].
    intros H. inversion H; auto.
Qed.

Lemma json_ints_fit_dict (d : list (str * json)) :
  json_ints_fit (JDict d) = true
  <-> Forall (fun kv => json_ints_fit kv.2 = true) d.
Proof.
  cbn [json_ints_fit]. induction d as [|[k x] r IH].
  - split; [constructor | trivial].
  - rewrite andb_true_iff, IH. split; [intros []; constructor; auto|].
    intros H. inversion H; auto.
Qed.

Lemma list_sum_member {A} (f : A -> nat) (l : list A) (x : A) :
  In x l -> (f x <= list_sum (List.map f l))%nat.
Proof.
  induction l as [|y l IH]; simpl; [tauto|].
  intros [->|H]; [lia | specialize (IH H); lia].
Qed.

Lemma list_sum_length {A} (f : A -> nat) (l : list A) :
  (forall x, 1 <= f x)%nat -> (length l <= list_sum (List.map f l))%nat.
Proof.
  intros Hf. induction l as [|y l IH]; simpl; [lia|].
  specialize (Hf y). lia.
Qed.

(** *** Dict insertion *)

Lemma dict_set_fresh (d : list (str * json)) (k : str) (v : json) :
  ~ In k (List.map fst d) -> dict_set d k v = d ++ [(k, v)].
Proof.
  induction d as [|[k' v'] d IH]; cbn [dict_set List.map In fst app];
    [reflexivity|].
  intros H. unfold str_eqb. rewrite bool_decide_eq_false_2 by tauto.
  rewrite IH by tauto. reflexivity.
Qed.

(** *** The loops over items and members *)

Lemma array_loop_encode (indent level : nat)
  (scan : str -> option (json * str)) (vs : list json) :
  forall (v0 : json) (fuel : nat) (rest : str),
    (length vs < fuel)%nat ->
    (forall x, In x (v0 :: vs) -> forall rest', number_stop rest' ->
        scan (encode_text indent (S level) x ++ rest') = Some (x, rest')) ->
    array_loop scan fuel
      (encode_text indent (S level) v0 ++ encode_items indent (S level) vs
       ++ newline_indent indent level ++ 93 :: rest)
    = Some (v0 :: vs, rest).
Proof.
  induction vs as [|x vs IH]; intros v0 fuel rest Hfuel Hscan;
    (destruct fuel as [|f]; [cbn [length] in Hfuel; lia|]);
    cbn [array_loop].
  - unfold encode_items. cbn [List.map List.concat app].
    rewrite (Hscan v0) by (first [left; reflexivity | apply number_stop_newline]).
    rewrite skip_ws_newline_indent. reflexivity.
  - unfold encode_items. cbn [List.map List.concat].
    fold (encode_items indent (S level) vs).
    rewrite <- !app_assoc, <- !app_comm_cons.
    rewrite (Hscan v0) by (first [left; reflexivity | apply number_stop_comma]).
    rewrite skip_ws_start by reflexivity.
    change (44 =? 93) with false. change (44 =? 44) with true. cbv iota.
    rewrite <- !app_assoc, skip_ws_newline_indent, skip_ws_encode.
    rewrite IH; [reflexivity | cbn [length] in Hfuel; lia |].
    intros y Hy. apply Hscan. right. exact Hy.
Qed.

Lemma object_loop_encode (indent level : nat)
  (scan : str -> option (json * str)) (kvs : list (str * json)) :
  forall (kv0 : str * json) (fuel : nat) (d : list (str * json)) (rest : str),
    (length kvs < fuel)%nat ->
    (forall kv, In kv (kv0 :: kvs) -> forall rest', number_stop rest' ->
        scan (encode_text indent (S level) kv.2 ++ rest') = Some (kv.2, rest')) ->
    List.NoDup (List.map fst (d ++ kv0 :: kvs)) ->
    object_loop scan fuel d
      (encode_member indent (S level) kv0
       ++ encode_members indent (S level) kvs
       ++ newline_indent indent level ++ 125 :: rest)
    = Some (d ++ kv0 :: kvs, rest).
Proof.
  induction kvs as [|kv kvs IH]; intros [k0 v0] fuel d rest Hfuel Hscan Hnd;
    (destruct fuel as [|f]; [cbn [length] in Hfuel; lia|]);
    unfold encode_member at 1; cbn [fst snd];
    rewrite <- !app_assoc, encode_basestring_eq;
    cbn [object_loop]; change (34 =? 34) with true; cbv iota;
    rewrite scanstring_body;
    change (pystr ": ") with [58; 32]; cbn [app];
    rewrite (skip_ws_start 58) by reflexivity;
    change (58 =? 58) with true; cbv iota;
    change (skip_ws (32 :: ?s)) with (skip_ws s);
    rewrite skip_ws_encode;
    assert (Hfresh : dict_set d k0 v0 = d ++ [(k0, v0)])
      by (apply dict_set_fresh; rewrite List.map_app in Hnd;
          apply List.NoDup_remove_2 in Hnd; intros Hin; apply Hnd;
          apply List.in_or_app; left; exact Hin).
  - unfold encode_members. cbn [List.map List.concat app].
    rewrite (Hscan (k0, v0))
      by (first [left; reflexivity | apply number_stop_newline]).
    cbv zeta. cbn [snd]. rewrite skip_ws_newline_indent. cbn [skip_ws].
    change (is_json_ws 125) with false. cbv iota.
    change (125 =? 125) with true. cbv iota. rewrite Hfresh. reflexivity.
  - unfold encode_members. cbn [List.map List.concat].
    fold (encode_members indent (S level) kvs).
    rewrite <- !app_assoc, <- !app_comm_cons.
    rewrite (Hscan (k0, v0))
      by (first [left; reflexivity | apply number_stop_comma]).
    cbv zeta. cbn [snd]. rewrite skip_ws_start by reflexivity.
    change (44 =? 125) with false. change (44 =? 44) with true. cbv iota.
    rewrite <- !app_assoc, skip_ws_newline_indent.
    assert (Hkey : forall s, skip_ws (encode_member indent (S level) kv ++ s)
                             = encode_member indent (S level) kv ++ s).
    { intros s. unfold encode_member. rewrite <- !app_assoc.
      rewrite encode_basestring_eq. reflexivity. }
    rewrite Hkey, Hfresh, IH.
    + rewrite <- app_assoc. reflexivity.
    + cbn [length] in Hfuel. lia.
    + intros y Hy. apply Hscan. right. exact Hy.
    + rewrite <- app_assoc. exact Hnd.
Qed.

(** *** One term *)

Lemma scan_once_number (f : nat) (c : char) (r : str) :
  c = 45 \/ (48 <= c /\ c <= 57) ->
  scan_once (S f) (c :: r) = match_number (c :: r).
Proof.
  intros Hc. cbn [scan_once].
  rewrite !(proj2 (N.eqb_neq c _)) by lia. reflexivity.
Qed.

Lemma scan_once_encode (indent : nat) (v : json) :
  forall (level fuel : nat) (rest : str),
    json_wf v -> json_ints_fit v = true ->
    (json_size v <= fuel)%nat -> number_stop rest ->
    scan_once fuel (encode_text indent level v ++ rest) = Some (v, rest).
Proof.
  induction v as [ | b | z | s | l IH | d IH ] using json_induction;
    intros level fuel rest Hwf Hfit Hfuel Hstop;
    (destruct fuel as [|f];
     [match type of Hfuel with
      | (json_size ?x <= 0)%nat => pose proof (json_size_pos x)
      end; lia|]).
  - reflexivity.
  - destruct b; reflexivity.
  - destruct (int_repr_start z) as (c & r & E & Hc).
    cbn [encode_text].
    pose proof (match_number_int_repr z rest Hfit Hstop) as Hm.
    rewrite E in *. cbn [app] in *. rewrite scan_once_number by exact Hc.
    exact Hm.
  - cbn [encode_text]. rewrite encode_basestring_eq. cbn [scan_once].
    change (34 =? 34) with true. cbv iota. rewrite scanstring_body.
    reflexivity.
  - destruct l as [|v0 vs]; [reflexivity|].
    rewrite encode_list_eq, <- !app_comm_cons, <- !app_assoc.
    cbn [scan_once]. change (91 =? 34) with false.
    change (91 =? 123) with false. change (91 =? 91) with true. cbv iota.
    rewrite skip_ws_newline_indent.
    destruct (encode_start indent (S level) v0
                (encode_items indent (S level) vs
                 ++ newline_indent indent level ++ [93] ++ rest))
      as (c & r & E & Hc).
    rewrite skip_ws_encode. rewrite E.
    assert ((c =? 93) = false) as ->
      by (apply N.eqb_neq; unfold term_start in Hc; lia).
    rewrite <- E. cbn [app].
    rewrite json_size_list in Hfuel.
    apply json_wf_list in Hwf. apply json_ints_fit_list in Hfit.
    rewrite array_loop_encode; [reflexivity | |].
    + pose proof (list_sum_length json_size (v0 :: vs) json_size_pos) as Hl.
      cbn [length] in Hl. lia.
    + intros x Hx rest' Hrest'.
      apply (proj1 (List.Forall_forall _ _) IH x Hx);
        [exact (proj1 (List.Forall_forall _ _) Hwf x Hx)
        |exact (proj1 (List.Forall_forall _ _) Hfit x Hx) | | exact Hrest'].
      pose proof (list_sum_member json_size (v0 :: vs) x Hx). lia.
  - destruct d as [|kv0 kvs]; [reflexivity|].
    rewrite encode_dict_eq, <- !app_comm_cons, <- !app_assoc.
    cbn [scan_once]. change (123 =? 34) with false.
    change (123 =? 123) with true. cbv iota.
    rewrite skip_ws_newline_indent.
    assert (Hkey : forall s, exists r,
               encode_member indent (S level) kv0 ++ s = 34 :: r).
    { intros s. unfold encode_member. rewrite <- app_assoc.
      rewrite encode_basestring_eq. eauto. }
    destruct (Hkey (encode_members indent (S level) kvs
                    ++ newline_indent indent level ++ [125] ++ rest))
      as (r & E).
    rewrite E, skip_ws_start by reflexivity.
    change (34 =? 125) with false. cbv iota. rewrite <- E. cbn [app].
    rewrite json_size_dict in Hfuel.
    apply json_wf_dict in Hwf as [Hnd Hwf]. apply json_ints_fit_dict in Hfit.
    rewrite (object_loop_encode indent level (scan_once f) kvs kv0 f [] rest);
      [reflexivity | | | exact Hnd].
    + pose proof (list_sum_length (fun kv : str * json => json_size kv.2)
                    (kv0 :: kvs) (fun kv => json_size_pos kv.2)) as Hl.
      cbn [length] in Hl. lia.
    + intros kv Hkv rest' Hrest'.
      apply (proj1 (List.Forall_forall _ _) IH kv Hkv);
        [exact (proj1 (List.Forall_forall _ _) Hwf kv Hkv)
        |exact (proj1 (List.Forall_forall _ _) Hfit kv Hkv) | | exact Hrest'].
      pose proof (list_sum_member (fun kv : str * json => json_size kv.2)
                    (kv0 :: kvs) kv Hkv). lia.
Qed.

(** *** The whole text *)

Lemma list_sum_cons (n : nat) (l : list nat) :
  list_sum (n :: l) = (n + list_sum l)%nat.
Proof. reflexivity. Qed.

Lemma json_size_length (indent : nat) (v : json) :
  forall level, (json_size v <= length (encode_text indent level v))%nat.
Proof.
  induction v as [ | b | z | s | l IH | d IH ] using json_induction;
    intros level.
  - cbn. lia.
  - destruct b; cbn; lia.
  - destruct (int_repr_start z) as (c & r & E & _). cbn [encode_text json_size].
    rewrite E. cbn [length]. lia.
  - cbn [encode_text json_size encode_basestring length]. lia.
  - destruct l as [|v0 vs]; [cbn; lia|].
    rewrite encode_list_eq, json_size_list. cbn [length].
    rewrite !List.length_app. apply le_n_S.
    inversion IH as [|? ? IH0 IHs]; subst. specialize (IH0 (S level)).
    assert (list_sum (List.map json_size vs)
            <= length (encode_items indent (S level) vs))%nat.
    { clear -IHs. induction IHs as [|x r Hx _ IHr]; [cbn; lia|].
      unfold encode_items in *. cbn [List.map List.concat].
      rewrite List.length_app. cbn [length]. rewrite List.length_app.
      specialize (Hx (S level)). rewrite list_sum_cons. lia. }
    cbn [List.map]. rewrite list_sum_cons. lia.
  - destruct d as [|[k0 v0] kvs]; [cbn; lia|].
    rewrite encode_dict_eq, json_size_dict. cbn [length].
    rewrite !List.length_app. apply le_n_S.
    inversion IH as [|? ? IH0 IHs]; subst. specialize (IH0 (S level)).
    cbn [snd] in IH0.
    assert (list_sum (List.map (fun kv : str * json => json_size kv.2) kvs)
            <= length (encode_members indent (S level) kvs))%nat.
    { clear -IHs. induction IHs as [|[k x] r Hx _ IHr]; [cbn; lia|].
      unfold encode_members, encode_member in *. cbn [List.map List.concat].
      rewrite List.length_app. cbn [length fst snd] in *.
      rewrite !List.length_app. specialize (Hx (S level)).
      rewrite list_sum_cons. lia. }
    unfold encode_member. cbn [fst snd List.map]. rewrite !List.length_app.
    rewrite list_sum_cons. lia.
Qed.

(** What [json.dumps] writes for a value whose dicts have distinct keys,
    [json.loads] reads back as that value. *)
Lemma json_loads_dumps (v : json) (text : str) :
  json_wf v -> json_dumps v = Some text -> json_loads text = Some v.
Proof.
  intros Hwf [Hfit ->]%json_dumps_inv. unfold json_loads.
  destruct (encode_start 2 0 v []) as (c & r & E & Hc).
  rewrite app_nil_r in E.
  assert (Hbom : match encode_text 2 0 v with c :: _ => c =? 65279 | [] => false end
                 = false).
  { rewrite E. apply N.eqb_neq. unfold term_start in Hc. lia. }
  rewrite Hbom.
  pose proof (skip_ws_encode 2 0 v []) as Hskip. rewrite app_nil_r in Hskip.
  rewrite Hskip.
  pose proof (scan_once_encode 2 v 0 (S (length (encode_text 2 0 v))) []
                Hwf Hfit) as Hscan.
  rewrite app_nil_r in Hscan. rewrite Hscan; [reflexivity | | apply number_stop_nil].
  pose proof (json_size_length 2 v 0). lia.
Qed.

Lemma payload_wf (t : datetime) (items : list HotSearchItem) :
  json_wf (payload t items).
Proof.
  unfold payload. apply json_wf_dict. split.
  - distinct_literals.
  - constructor; [exact I|]. constructor; [|constructor].
    cbn [snd]. apply json_wf_list.
    induction items as [|i items IH]; [constructor|].
    cbn [List.map]. constructor; [|exact IH].
    unfold asdict. apply json_wf_dict. split.
    + distinct_literals.
    + repeat constructor.
Qed.

(** ** Running the snapshotter again *)

Lemma mkdir_inv (env : Env) (path : str) (w wa : World) (r : result unit) :
  mkdir env path w = (r, wa) ->
  (exists e, r = Raise e /\ wa = w)
  \/ (r = Ok tt /\ files w !! path = None /\ mkdir_fault env path = None
      /\ files wa = files w /\ dirs wa = {[ path ]} ∪ dirs w
      /\ stdout wa = stdout w /\ stderr wa = stderr w).
Proof.
  unfold mkdir. destruct (mkdir_fault env path) as [e|] eqn:Hf.
  - intros [= <- <-]. left. eauto.
  - case_bool_decide as Hd; intros [= <- <-]; [left; eauto|].
    right. repeat split; try reflexivity.
    destruct (files w !! path) eqn:E; [|reflexivity].
    exfalso. apply Hd. eauto.
Qed.

Lemma world_eq (w1 w2 : World) :
  files w1 = files w2 -> dirs w1 = dirs w2 ->
  stdout w1 = stdout w2 -> stderr w1 = stderr w2 -> w1 = w2.
Proof. destruct w1, w2. cbn. intros -> -> -> ->. reflexivity. Qed.

(** A directory made once is found again. *)
Lemma mkdir_replay (env : Env) (path : str) (w wa w2 : World) :
  mkdir env path w = (Ok tt, wa) ->
  files w2 !! path = None -> dirs w2 = dirs wa ->
  mkdir env path w2 = (Ok tt, w2).
Proof.
  intros H Hnone Hdirs.
  apply mkdir_inv in H as [(e & ? & _) | (_ & _ & Hf & _ & Hd & _)];
    [discriminate|].
  unfold mkdir. rewrite Hf, Hnone.
  rewrite bool_decide_eq_false_2 by (intros [? ?]; discriminate).
  f_equal. apply world_eq; cbn; try reflexivity.
  rewrite Hdirs, Hd, (assoc_L (∪)), union_idemp_L. reflexivity.
Qed.

Lemma json_dump_frame (env : Env) (path : str) (v : json) (w w' : World)
  (r : result unit) :
  json_dump env path v w = (r, w') ->
  dirs w' = dirs w
  /\ (forall q, q <> path -> files w' !! q = files w !! q).
Proof.
  unfold json_dump.
  destruct (open_fault env path); [intros [= <- <-]; auto|].
  case_bool_decide; [intros [= <- <-]; auto|].
  destruct (json_dump_bytes v);
    [destruct (write_fault env path)|];
    intros [= <- <-]; (split; [reflexivity|]);
    intros q Hq; cbn; apply lookup_insert_ne; congruence.
Qed.

(** A write done once, done again on a state that already shows its
    effect, changes nothing and ends the same way. *)
Lemma json_dump_replay (env : Env) (path : str) (v : json) (w w' w2 : World)
  (r : result unit) :
  json_dump env path v w = (r, w') ->
  dirs w2 = dirs w ->
  files w2 !! path = files w' !! path ->
  json_dump env path v w2 = (r, w2).
Proof.
  unfold json_dump. intros H Hdirs Hfile. rewrite Hdirs.
  destruct (open_fault env path); [injection H as <- <-; reflexivity|].
  case_bool_decide; [injection H as <- <-; reflexivity|].
  assert (Hid : forall f, files w' !! path = Some f -> set_file path f w2 = w2).
  { intros f Hf. apply world_eq; cbn; try reflexivity.
    apply insert_id. congruence. }
  destruct (json_dump_bytes v);
    [destruct (write_fault env path)|];
    injection H as <- <-; rewrite Hid; try reflexivity;
    cbn; apply lookup_insert_eq.
Qed.

(** The state the snapshotter leaves is a fixed point of the snapshotter. *)
Lemma save_results_fixed_point (env : Env)
  (items : list HotSearchItem) (w : World) :
  save_results env items (save_results env items w).2
  = save_results env items w.
Proof.
  set (text := payload (now env) items).
  assert (Hrun : forall w0, save_results env items w0
    = match mkdir env DATA_DIR w0 with
      | (Raise e, wa) => (Raise e, wa)
      | (Ok _, wa) =>
          match json_dump env (daily_path (now env)) text wa with
          | (Raise e, wb) => (Raise e, wb)
          | (Ok _, wb) =>
              match json_dump env latest_path text wb with
              | (Raise e, wc) => (Raise e, wc)
              | (Ok _, wc) => (Ok (daily_path (now env)), wc)
              end
          end
      end).
  { intros w0. unfold save_results, mbind, M_bind, bind, ret.
    destruct (mkdir env DATA_DIR w0) as [[[]|?] ?]; [|reflexivity].
    fold text.
    destruct (json_dump env (daily_path (now env)) text _) as [[[]|?] ?];
      [|reflexivity].
    destruct (json_dump env latest_path text _) as [[[]|?] ?]; reflexivity. }
  rewrite (Hrun w).
  destruct (mkdir env DATA_DIR w) as [[[]|e] wa] eqn:Hmk.
  2:{ cbn [snd]. rewrite Hrun.
      apply mkdir_inv in Hmk as Hinv.
      destruct Hinv as [(e' & _ & ->) | (? & _)]; [|discriminate].
      rewrite Hmk. reflexivity. }
  pose proof Hmk as Hinv.
  apply mkdir_inv in Hinv
    as [(? & ? & _) | (_ & Hnone & _ & Hfiles & Hdirs & _)]; [discriminate|].
  destruct (json_dump env (daily_path (now env)) text wa)
    as [[[]|e] wb] eqn:Hd.
  2:{ cbn [snd]. rewrite Hrun.
      destruct (json_dump_frame _ _ _ _ _ _ Hd) as [Hdb Hfb].
      rewrite (mkdir_replay env DATA_DIR w wa wb Hmk).
      - rewrite (json_dump_replay _ _ _ wa wb wb _ Hd); auto.
      - rewrite Hfb, Hfiles; [exact Hnone|].
        intros E. exact (daily_not_data_dir _ (eq_sym E)).
      - exact Hdb. }
  destruct (json_dump_frame _ _ _ _ _ _ Hd) as [Hdb Hfb].
  assert (Hgoal : forall r wc,
            json_dump env latest_path text wb = (r, wc) ->
            mkdir env DATA_DIR wc = (Ok tt, wc)
            /\ json_dump env (daily_path (now env)) text wc = (Ok tt, wc)
            /\ json_dump env latest_path text wc = (r, wc)).
  { intros r wc Hl.
    destruct (json_dump_frame _ _ _ _ _ _ Hl) as [Hdc Hfc].
    split; [|split].
    - apply (mkdir_replay env DATA_DIR w wa wc Hmk); [|congruence].
      rewrite Hfc, Hfb, Hfiles; [exact Hnone | |].
      + intros E. exact (daily_not_data_dir _ (eq_sym E)).
      + intros E. exact (latest_not_data_dir (eq_sym E)).
    - apply (json_dump_replay _ _ _ wa wb wc _ Hd); [congruence|].
      apply Hfc, daily_latest_distinct.
    - apply (json_dump_replay _ _ _ wb wc wc _ Hl); auto. }
  destruct (json_dump env latest_path text wb) as [[[]|e] wc] eqn:Hl;
    cbn [snd]; rewrite Hrun;
    destruct (Hgoal _ _ eq_refl) as (-> & -> & ->); reflexivity.
Qed.

(** ** What a run that returns has done *)

Lemma json_dump_inv (env : Env) (path : str) (v : json) (w w' : World) :
  json_dump env path v w = (Ok tt, w') ->
  exists bytes, json_dump_bytes v = Some bytes
                /\ w' = set_file path (Complete bytes) w
                /\ open_fault env path = None
                /\ (path ∉ dirs w)
                /\ write_fault env path = None.
Proof.
  unfold json_dump.
  destruct (open_fault env path); [discriminate|].
  case_bool_decide; [discriminate|].
  destruct (json_dump_bytes v) as [bytes|]; [|discriminate].
  destruct (write_fault env path); [discriminate|].
  intros [= <-]. eauto 10.
Qed.

Lemma save_results_inv (env : Env) (items : list HotSearchItem)
  (w w' : World) (p : str) :
  save_results env items w = (Ok p, w') ->
  exists bytes,
    p = daily_path (now env)
    /\ json_dump_bytes (payload (now env) items) = Some bytes
    /\ files w' = <[latest_path := Complete bytes]>
                    (<[daily_path (now env) := Complete bytes]> (files w))
    /\ dirs w' = {[ DATA_DIR ]} ∪ dirs w
    /\ stdout w' = stdout w /\ stderr w' = stderr w.
Proof.
  unfold save_results, mbind, M_bind, bind, ret.
  destruct (mkdir env DATA_DIR w) as [[[]|e] wa] eqn:Hmk; [|discriminate].
  apply mkdir_inv in Hmk
    as [(? & ? & _) | (_ & _ & _ & Hf & Hd & Ho & He)]; [discriminate|].
  destruct (json_dump env (daily_path (now env)) _ wa)
    as [[[]|e] wb] eqn:Hdaily; [|discriminate].
  apply json_dump_inv in Hdaily as (bytes & Henc & -> & _).
  destruct (json_dump env latest_path _ _) as [[[]|e] wc] eqn:Hlatest;
    [|discriminate].
  apply json_dump_inv in Hlatest as (bytes' & Henc' & -> & _).
  intros [= <- <-]. exists bytes.
  rewrite Henc in Henc'. injection Henc' as <-.
  unfold set_file. cbn [files dirs stdout stderr].
  rewrite Hf, Hd, Ho, He. repeat split; first [reflexivity | assumption].
Qed.

(** The snapshotter returns exactly when the filesystem accepts its calls
    and [json.dump] can write the envelope. *)
Lemma save_results_returns_iff (env : Env) (items : list HotSearchItem)
  (w : World) :
  (exists p w', save_results env items w = (Ok p, w'))
  <-> fs_accepts env w
      /\ is_Some (json_dump_bytes (payload (now env) items)).
Proof.
  split.
  - intros (p & w' & Hrun). revert Hrun.
    unfold save_results, mbind, M_bind, bind, ret.
    destruct (mkdir env DATA_DIR w) as [[[]|e] wa] eqn:Hmk; [|discriminate].
    apply mkdir_inv in Hmk
      as [(? & ? & _) | (_ & Hnone & Hmf & Hf & Hd & _)]; [discriminate|].
    destruct (json_dump env (daily_path (now env)) _ wa)
      as [[[]|e] wb] eqn:Hdaily; [|discriminate].
    apply json_dump_inv in Hdaily as (bytes & Henc & -> & Hod & Hdd & Hwd).
    destruct (json_dump env latest_path _ _) as [[[]|e] wc] eqn:Hlatest;
      [|discriminate].
    apply json_dump_inv in Hlatest as (bytes' & _ & _ & Hol & Hld & Hwl).
    intros _. cbn [set_file dirs] in Hld. rewrite Hd in Hdd, Hld.
    split; [|eauto].
    repeat split; try assumption.
    + intros Hin. apply Hdd, elem_of_union. right. exact Hin.
    + intros Hin. apply Hld, elem_of_union. right. exact Hin.
  - intros (Hfs & bytes & Henc). eexists _, _.
    apply (save_results_succeeds env items w bytes Hfs Henc).
Qed.

Lemma both_files (bytes : list N) (t : datetime) (m : gmap (list N) file) :
  let m' := <[latest_path := Complete bytes]>
              (<[daily_path t := Complete bytes]> m) in
  m' !! daily_path t = Some (Complete bytes)
  /\ m' !! latest_path = Some (Complete bytes).
Proof.
  cbv zeta. split.
  - rewrite lookup_insert_ne by (intros E; exact (daily_latest_distinct t (eq_sym E))).
    apply lookup_insert_eq.
  - apply lookup_insert_eq.
Qed.

Lemma escape_char_literal (c : char) : 128 <= c -> escape_char c = [c].
Proof.
  intros H. unfold escape_char.
  rewrite !(proj2 (N.eqb_neq c _)) by lia.
  destruct (N.ltb_spec c 32); [lia | reflexivity].
Qed.

(** ** The text written is the layout of the specification *)

Lemma escape_char_layout_ascii :
  Forall (fun n => escape_char n = layout_char n)
    (List.map N.of_nat (seq 0 128)).
Proof. repeat (constructor; [vm_compute; reflexivity|]). constructor. Qed.

Lemma escape_char_layout (c : char) : escape_char c = layout_char c.
Proof.
  destruct (N.ltb_spec c 128) as [H|H].
  - pose proof escape_char_layout_ascii as HF.
    rewrite List.Forall_forall in HF. apply HF.
    rewrite <- (N2Nat.id c). apply in_map. apply in_seq. lia.
  - rewrite escape_char_literal by lia. unfold layout_char.
    destruct (N.leb_spec 128 c); [reflexivity | lia].
Qed.

Lemma encode_basestring_layout (s : str) :
  encode_basestring s = layout_string s.
Proof.
  unfold encode_basestring, layout_string. cbn [app]. do 2 f_equal.
  rewrite flat_map_concat_map. f_equal. apply map_ext.
  intros c. apply escape_char_layout.
Qed.

Lemma encode_text_asdict (i : HotSearchItem) :
  encode_text 2 2 (asdict i) = layout_item i.
Proof.
  unfold asdict. cbn [encode_text]. rewrite !encode_basestring_layout.
  unfold layout_item, layout_field. flatten_apps. reflexivity.
Qed.

Lemma encode_items_layout (items : list HotSearchItem) :
  encode_items 2 2 (List.map asdict items)
  = flat_map (fun j => pystr "," ++ layout_line 2 ++ layout_item j) items.
Proof.
  unfold encode_items. induction items as [|i r IH]; [reflexivity|].
  cbn [List.map List.concat flat_map]. rewrite IH, encode_text_asdict.
  flatten_apps. reflexivity.
Qed.

Lemma encode_text_items (items : list HotSearchItem) :
  encode_text 2 1 (JList (List.map asdict items)) = layout_items items.
Proof.
  destruct items as [|i r]; [reflexivity|].
  cbn [List.map]. rewrite encode_list_eq, encode_items_layout,
    encode_text_asdict.
  unfold layout_items. flatten_apps. reflexivity.
Qed.

(** The encoder's text for the envelope is the layout. *)
Lemma encode_text_payload (t : datetime) (items : list HotSearchItem) :
  encode_text 2 0 (payload t items) = snapshot_layout t items.
Proof.
  unfold payload. rewrite encode_dict_eq.
  unfold encode_members, encode_member. cbn [List.map List.concat fst snd].
  rewrite encode_text_items. cbn [encode_text].
  rewrite !encode_basestring_layout.
  unfold snapshot_layout, layout_field. flatten_apps. reflexivity.
Qed.

(** [json.dumps] answers for the envelope exactly when every rank fits,
    and then with the layout. *)
Lemma json_dumps_payload (t : datetime) (items : list HotSearchItem)
  (text : str) :
  json_dumps (payload t items) = Some text
  <-> Forall (fun i => int_fits (rank i) = true) items
      /\ text = snapshot_layout t items.
Proof.
  rewrite <- encode_text_payload, <- payload_ints_fit. split.
  - apply json_dumps_inv.
  - intros [Hfit ->]. apply json_dumps_fits, Hfit.
Qed.

Lemma save_results_spec (env : Env) (items : list HotSearchItem)
  (w : World) :
  (forall p w', save_results env items w = (Ok p, w') ->
     p = daily_path (now env)
     /\ exists bytes,
          files w' !! daily_path (now env) = Some (Complete bytes)
          /\ files w' !! latest_path = Some (Complete bytes)
          /\ json_dumps (payload (now env) items)
             = Some (snapshot_layout (now env) items)
          /\ utf8_encode (snapshot_layout (now env) items) = Some bytes
          /\ utf8_decode bytes = Some (snapshot_layout (now env) items))
  /\ (fs_accepts env w -> Forall item_encodable items ->
      exists w', save_results env items w = (Ok (daily_path (now env)), w')).
Proof.
  split.
  - intros p w' Hrun.
    apply save_results_inv in Hrun as (bytes & -> & Henc & Hfiles & _).
    split; [reflexivity|]. exists bytes. rewrite Hfiles.
    destruct (both_files bytes (now env) (files w)) as [Hd Hl].
    apply json_dump_bytes_Some in Henc as (text & Htext & Henc).
    pose proof Htext as [_ ->]%json_dumps_payload.
    repeat split; [exact Hd | exact Hl | exact Htext | exact Henc |].
    apply utf8_decode_encode, Henc.
  - intros Hfs Hitems.
    destruct (json_dump_bytes_payload (now env) items Hitems) as (bytes & Henc).
    eexists. apply (save_results_succeeds env items w bytes Hfs Henc).
Qed.

(** C7: a run of the snapshotter that returns has returned the dated path
    and has written the same bytes to the dated file and to the latest
    file: the UTF-8 form of the text that the specification lays out,
    which is indented by two blanks a level and keeps non-ASCII characters
    as they are ([snapshot_layout], written without the encoder).  The run
    does return whenever the filesystem accepts its calls and every item
    can be written (a rank of at most 4300 digits, no lone surrogate). *)
Theorem C7_identical_payload (env : Env) (items : list HotSearchItem)
  (w : World) :
  (forall p w', save_results env items w = (Ok p, w') ->
     p = daily_path (now env)
     /\ exists bytes,
          files w' !! daily_path (now env) = Some (Complete bytes)
          /\ files w' !! latest_path = Some (Complete bytes)
          /\ utf8_encode (snapshot_layout (now env) items) = Some bytes
          /\ utf8_decode bytes = Some (snapshot_layout (now env) items))
  /\ (fs_accepts env w -> Forall item_encodable items ->
      exists w', save_results env items w = (Ok (daily_path (now env)), w')).
Proof.
  destruct (save_results_spec env items w) as [Hinv Hrun].
  split; [|exact Hrun].
  intros p w' Hsave.
  destruct (Hinv p w' Hsave) as (-> & bytes & Hd & Hl & _ & Henc & Hdec).
  split; [reflexivity|]. exists bytes. auto.
Qed.

Lemma sample_fs_accepts (status : Z) (soup : PageElement) :
  fs_accepts (sample_env status soup) empty_world.
Proof.
  unfold fs_accepts. cbn [sample_env empty_world mkdir_fault open_fault
                          write_fault files dirs now].
  repeat split; try reflexivity; try apply not_elem_of_empty.
Qed.

Lemma sample_items_encodable : Forall item_encodable sample_items.
Proof.
  unfold sample_items, item_encodable.
  repeat constructor; cbn; apply encodable_pystr.
Qed.

Lemma C7_identical_payload_witness :
  exists w',
    save_results (sample_env 200 (page [])) sample_items empty_world
    = (Ok (pystr "data/baidu-hotsearch-20240115.json"), w')
    /\ files w' !! pystr "data/baidu-hotsearch-20240115.json"
       = Some (Complete sample_bytes)
    /\ files w' !! pystr "data/latest.json" = Some (Complete sample_bytes).
Proof.
  destruct (C7_identical_payload (sample_env 200 (page [])) sample_items
              empty_world) as (Hinv & Hrun).
  destruct (Hrun (sample_fs_accepts _ _) sample_items_encodable) as (w' & Hw').
  destruct (Hinv _ _ Hw') as (_ & bytes & Hd & Hl & Henc & _).
  assert (Hb : Some bytes = Some sample_bytes)
    by (rewrite <- Henc; vm_compute; reflexivity).
  injection Hb as ->.
  exists w'. split; [exact Hw'|]. split; [exact Hd | exact Hl].
Defined.

(** C8: with the same items, clock and environment, a second run ends as
    the first did and leaves every file, directory and stream as the first
    run left them: no file is added; after a first run that returned, both
    runs leave the same bytes under the same two paths. *)
Theorem C8_second_run_changes_nothing (env : Env)
  (items : list HotSearchItem) (w : World) :
  let first := save_results env items w in
  let second := save_results env items first.2 in
  second = first
  /\ dom (files second.2) = dom (files first.2)
  /\ (forall p, first.1 = Ok p ->
        p = daily_path (now env)
        /\ second.1 = Ok p
        /\ exists bytes,
             files first.2 !! daily_path (now env) = Some (Complete bytes)
             /\ files first.2 !! latest_path = Some (Complete bytes)
             /\ files second.2 !! daily_path (now env) = Some (Complete bytes)
             /\ files second.2 !! latest_path = Some (Complete bytes)).
Proof.
  cbv zeta. rewrite save_results_fixed_point.
  split; [reflexivity|]. split; [reflexivity|].
  intros p Hp.
  destruct (save_results env items w) as [r w1] eqn:Hrun.
  cbn [fst snd] in *. subst r.
  destruct (proj1 (save_results_spec env items w) p w1 Hrun)
    as (-> & bytes & Hd & Hl & _).
  split; [reflexivity|]. split; [reflexivity|].
  exists bytes. auto.
Qed.

Lemma C8_second_run_changes_nothing_witness :
  exists bytes w1,
    save_results (sample_env 200 (page [])) sample_items empty_world
    = (Ok (daily_path sample_clock), w1)
    /\ save_results (sample_env 200 (page [])) sample_items w1
       = (Ok (daily_path sample_clock), w1)
    /\ files w1 !! daily_path sample_clock = Some (Complete bytes)
    /\ files w1 !! latest_path = Some (Complete bytes).
Proof.
  pose proof (C8_second_run_changes_nothing (sample_env 200 (page []))
                sample_items empty_world) as H.
  cbv zeta in H. destruct H as (Hfix & _ & Hok).
  destruct (proj2 (save_results_spec (sample_env 200 (page [])) sample_items
                     empty_world)
              (sample_fs_accepts _ _) sample_items_encodable) as (w1 & Hrun).
  rewrite Hrun in Hfix, Hok. cbn [fst snd] in Hfix, Hok.
  destruct (Hok _ eq_refl) as (_ & _ & bytes & Hd & Hl & _).
  exists bytes, w1. auto.
Defined.

(** C9: whenever the encoder gives a text for the envelope, which it does
    when every rank has at most 4300 digits, the decoder reads that text
    back as the envelope: the keys [generated_at] and [items] in that
    order, and under [items] the five fields of every item, in the order of
    the items.  After a run that returned, either file holds the UTF-8 form
    of that text, and decoding and parsing it gives the envelope. *)
Theorem C9_round_trip (env : Env) (items : list HotSearchItem) :
  (forall text,
     json_dumps (payload (now env) items) = Some text ->
     json_loads text
     = Some (JDict [ (pystr "generated_at", JStr (isoformat (now env)));
                     (pystr "items", JList (List.map asdict items)) ]))
  /\ (Forall (fun i => int_fits (rank i) = true) items ->
      exists text, json_dumps (payload (now env) items) = Some text)
  /\ (forall w p w', save_results env items w = (Ok p, w') ->
        exists bytes text,
          files w' !! p = Some (Complete bytes)
          /\ files w' !! latest_path = Some (Complete bytes)
          /\ json_dumps (payload (now env) items) = Some text
          /\ utf8_decode bytes = Some text
          /\ json_loads text = Some (payload (now env) items)).
Proof.
  pose proof (fun text =>
                json_loads_dumps _ text (payload_wf (now env) items)) as Hrt.
  split; [exact Hrt|]. split.
  - intros Hfit. eexists. apply json_dumps_payload. eauto.
  - intros w p w' Hrun.
    destruct (proj1 (save_results_spec env items w) p w' Hrun)
      as (-> & bytes & Hd & Hl & Htext & _ & Hdec).
    exists bytes, (snapshot_layout (now env) items).
    repeat split; try assumption. apply Hrt, Htext.
Qed.

Lemma C9_round_trip_witness :
  exists w' bytes text,
    save_results (sample_env 200 (page [])) sample_items empty_world
    = (Ok (daily_path sample_clock), w')
    /\ files w' !! daily_path sample_clock = Some (Complete bytes)
    /\ utf8_decode bytes = Some text
    /\ json_loads text = Some (payload sample_clock sample_items).
Proof.
  destruct (proj2 (save_results_spec (sample_env 200 (page [])) sample_items
                     empty_world)
              (sample_fs_accepts _ _) sample_items_encodable) as (w' & Hrun).
  destruct (proj2 (proj2 (C9_round_trip (sample_env 200 (page []))
                            sample_items))
              empty_world _ w' Hrun)
    as (bytes & text & Hd & _ & _ & Hdec & Hload).
  exists w', bytes, text. auto.
Defined.

(** C5: the entry point always returns, with 0 or 1.  It returns 0 exactly
    when the fetch and the parse succeeded, at least one item came out and
    the save succeeded; the state it leaves is then the state the save
    left, with both files written, one message (the count of the items and
    the dated path) added to the standard output and nothing to the error
    stream.  Each failure (an exception of the fetch, of the parse or of the
    save, or an empty result) gives 1 and one more message on the error
    stream. *)
Theorem C5_exit_code (env : Env) (w : World) :
  exists code w',
    main env w = (Ok code, w')
    /\ (code = 0 \/ code = 1)%Z
    /\ (code = 0%Z <->
        exists html items daily_file w1,
          fetch_hot_search_html env HOT_SEARCH_URL = Ok html
          /\ parse_hot_search env html = Ok items
          /\ items <> []
          /\ save_results env items w = (Ok daily_file, w1))
    /\ (forall html items daily_file w1,
          fetch_hot_search_html env HOT_SEARCH_URL = Ok html ->
          parse_hot_search env html = Ok items ->
          items <> [] ->
          save_results env items w = (Ok daily_file, w1) ->
          code = 0%Z
          /\ w' = log_out (saved_message items daily_file) w1
          /\ daily_file = daily_path (now env)
          /\ exists bytes,
               json_dump_bytes (payload (now env) items) = Some bytes
               /\ files w' !! daily_path (now env) = Some (Complete bytes)
               /\ files w' !! latest_path = Some (Complete bytes))
    /\ (code = 0%Z -> stderr w' = stderr w)
    /\ (code = 1%Z -> exists message, stderr w' = stderr w ++ [message])
    /\ (forall e, fetch_hot_search_html env HOT_SEARCH_URL = Raise e ->
          code = 1%Z /\ w' = log_err (error_message e) w)
    /\ (forall html e,
          fetch_hot_search_html env HOT_SEARCH_URL = Ok html ->
          parse_hot_search env html = Raise e ->
          code = 1%Z /\ w' = log_err (error_message e) w)
    /\ (forall html,
          fetch_hot_search_html env HOT_SEARCH_URL = Ok html ->
          parse_hot_search env html = Ok [] ->
          code = 1%Z /\ w' = log_err no_items_message w)
    /\ (forall html items e w1,
          fetch_hot_search_html env HOT_SEARCH_URL = Ok html ->
          parse_hot_search env html = Ok items ->
          items <> [] ->
          save_results env items w = (Raise e, w1) ->
          code = 1%Z /\ w' = log_err (error_message e) w1).
Proof.
  destruct (fetch_hot_search_html env HOT_SEARCH_URL) as [html|e] eqn:Hf.
  2:{ exists 1%Z, (log_err (error_message e) w).
      split; [apply main_fetch_raises, Hf|].
      split; [auto|]. split.
      { split; [discriminate | intros (? & ? & ? & ? & ? & _); discriminate]. }
      split; [discriminate|].
      split; [discriminate|]. split; [intros _; eexists; reflexivity|].
      split; [intros e' [= <-]; auto|].
      repeat split; discriminate. }
  destruct (parse_hot_search env html) as [items|e] eqn:Hp.
  2:{ exists 1%Z, (log_err (error_message e) w).
      split; [eapply main_parse_raises; eassumption|].
      split; [auto|]. split.
      { split; [discriminate|].
        intros (h & ? & ? & ? & [= <-] & Hp' & _). congruence. }
      split; [intros; simplify_eq; congruence|].
      split; [discriminate|]. split; [intros _; eexists; reflexivity|].
      split; [discriminate|].
      split; [intros h e' [= <-] Hp'; rewrite Hp in Hp'; injection Hp' as <-; auto|].
      split; intros; simplify_eq; congruence. }
  destruct items as [|i items].
  { exists 1%Z, (log_err no_items_message w).
    split; [eapply main_no_items; eassumption|].
    split; [auto|]. split.
    { split; [discriminate|].
      intros (h & ? & ? & ? & [= <-] & Hp' & Hne & _). congruence. }
    split; [intros; simplify_eq; congruence|].
    split; [discriminate|]. split; [intros _; eexists; reflexivity|].
    split; [discriminate|].
    split; [intros; simplify_eq; congruence|].
    split; [auto|]. intros; simplify_eq; congruence. }
  pose proof (main_saves env w html (i :: items) Hf Hp ltac:(discriminate)) as Hm.
  pose proof (save_results_streams env (i :: items) w) as [_ Herr].
  destruct (save_results env (i :: items) w) as [[d|e] w1] eqn:Hs;
    cbn [snd] in Herr.
  - exists 0%Z, (log_out (saved_message (i :: items) d) w1).
    split; [exact Hm|]. split; [auto|]. split.
    { split; [|reflexivity]. intros _. exists html, (i :: items), d, w1.
      repeat split; try assumption; discriminate. }
    split.
    { intros h its d' w1' [= <-] Hp' _ Hs'.
      rewrite Hp in Hp'. injection Hp' as <-. rewrite Hs in Hs'.
      injection Hs' as <- <-.
      apply save_results_inv in Hs as (bytes & -> & Henc & Hfiles & _).
      split; [reflexivity|]. split; [reflexivity|]. split; [reflexivity|].
      exists bytes. split; [exact Henc|].
      cbn [log_out files]. rewrite Hfiles. apply both_files. }
    split; [intros _; exact Herr|]. split; [discriminate|].
    split; [discriminate|].
    split; [intros; simplify_eq; congruence|]. split; [intros; simplify_eq; congruence|].
    intros; simplify_eq; congruence.
  - exists 1%Z, (log_err (error_message e) w1).
    split; [exact Hm|]. split; [auto|]. split.
    { split; [discriminate|].
      intros (h & its & ? & ? & [= <-] & Hp' & _ & Hs').
      rewrite Hp in Hp'. injection Hp' as <-. congruence. }
    split; [intros; simplify_eq; congruence|].
    split; [discriminate|].
    split; [intros _; eexists; cbn [log_err stderr]; rewrite Herr; reflexivity|].
    split; [discriminate|].
    split; [intros; simplify_eq; congruence|]. split; [intros; simplify_eq; congruence|].
    intros h its e' w1' [= <-] Hp' _ Hs'.
    rewrite Hp in Hp'. injection Hp' as <-. rewrite Hs in Hs'.
    injection Hs' as <- <-. auto.
Qed.

(** Two cards, ranks 2 and 1: the run returns 0, both files hold the same
    bytes, the standard output has the message and the error stream is
    empty. *)
Lemma C5_exit_code_witness :
  exists w' bytes,
    main (sample_env 200 (page [full_card "2" "b"; full_card "1" "a"]))
      empty_world = (Ok 0%Z, w')
    /\ files w' !! pystr "data/baidu-hotsearch-20240115.json"
       = Some (Complete bytes)
    /\ files w' !! pystr "data/latest.json" = Some (Complete bytes)
    /\ stdout w'
       = [pystr "Saved 2 hot search items to data/baidu-hotsearch-20240115.json"]
    /\ stderr w' = [].
Proof.
  set (soup := page [full_card "2" "b"; full_card "1" "a"]).
  destruct (C5_exit_code (sample_env 200 soup) empty_world)
    as (code & w' & Hrun & _ & _ & Hok & Herr & _).
  assert (Henc : Forall item_encodable (parse_soup soup)).
  { let l := eval vm_compute in (parse_soup soup) in
    assert (Hl : parse_soup soup = l) by (vm_compute; reflexivity).
    rewrite Hl. unfold item_encodable, encodable.
    cbn [rank title summary hot_score detail_url]. repeat constructor. }
  destruct (proj2 (save_results_spec (sample_env 200 soup) (parse_soup soup)
                     empty_world) (sample_fs_accepts _ _) Henc)
    as (w1 & Hsave).
  destruct (Hok (pystr "<html></html>") (parse_soup soup)
              (daily_path sample_clock) w1)
    as (-> & Hw' & _ & bytes & _ & Hd & Hl);
    [reflexivity | reflexivity | vm_compute; discriminate | exact Hsave |].
  exists w', bytes. split; [exact Hrun|].
  split; [exact Hd|]. split; [exact Hl|].
  split; [|exact (Herr eq_refl)].
  rewrite Hw'. cbn [log_out stdout].
  pose proof (proj1 (save_results_streams (sample_env 200 soup)
                       (parse_soup soup) empty_world)) as Ho.
  rewrite Hsave in Ho. cbn [snd] in Ho. rewrite Ho.
  vm_compute. reflexivity.
Defined.

(** The bytes CPython's [json.dump] writes for the sample items at the
    sample clock, as the model computes them. *)
Example sample_snapshot_bytes :
  json_dump_bytes (payload sample_clock sample_items) = Some sample_bytes.
Proof. vm_compute. reflexivity. Qed.

Example sample_paths :
  daily_path sample_clock = pystr "data/baidu-hotsearch-20240115.json"
  /\ latest_path = pystr "data/latest.json"
  /\ isoformat sample_clock = pystr "2024-01-15T09:03:00.000120+08:00".
Proof. vm_compute. auto. Qed.

(** A run from the request to the files: two cards, ranks 2 and 1. *)
Example main_two_cards :
  exists w',
    main (sample_env 200 (page [full_card "2" "b"; full_card "1" "a"]))
      empty_world = (Ok 0%Z, w')
    /\ stdout w' = [pystr "Saved 2 hot search items to data/baidu-hotsearch-20240115.json"]
    /\ stderr w' = []
    /\ files w' !! daily_path sample_clock = files w' !! latest_path
    /\ is_Some (files w' !! latest_path).
Proof.
  eexists. split; [vm_compute; reflexivity|].
  split; [reflexivity|]. split; [reflexivity|].
  split; [vm_compute; reflexivity|].
  eexists. vm_compute. reflexivity.
Qed.

(** The error path of the save: a title that is a lone surrogate cannot be
    encoded; the write of the dated file raises and leaves it torn, the
    latest file is not written, and the entry point returns 1. *)
Example save_results_lone_surrogate :
  let env := sample_env 200 (page []) in
  let items := [ {| rank := 1; title := [0xD800]; summary := [];
                    hot_score := []; detail_url := [] |} ] in
  exists w',
    save_results env items empty_world
    = (Raise (dump_error env (payload sample_clock items)), w')
    /\ files w' !! daily_path sample_clock = Some Torn
    /\ files w' !! latest_path = None.
Proof.
  cbv zeta. eexists. split; [vm_compute; reflexivity|].
  split; vm_compute; reflexivity.
Qed.

(** * Further properties of the extractor *)

Lemma length_collect_items (cards : list PageElement) :
  length (collect_items cards)
  = length (List.filter has_parseable_rank cards).
Proof.
  induction cards as [|c cards IH]; [reflexivity|].
  cbn [collect_items List.filter]. unfold has_parseable_rank at 1, parse_card.
  destruct (card_rank c); cbn [length]; rewrite IH; reflexivity.
Qed.

(** X1: the number of entries is the number of cards whose rank parses; it
    never exceeds the number of cards, and every card counts once, equal
    ranks included. *)
Theorem item_count (soup : PageElement) :
  length (parse_soup soup)
  = length (List.filter has_parseable_rank (select soup card_selector))
  /\ (length (parse_soup soup) <= length (select soup card_selector))%nat
  /\ (forallb has_parseable_rank (select soup card_selector) = true ->
      length (parse_soup soup) = length (select soup card_selector)).
Proof.
  unfold parse_soup.
  rewrite (Permutation_length (sort_by_rank_Permutation _)), length_collect_items.
  split; [reflexivity|]. split; [apply List.filter_length_le|].
  intros Hall. f_equal.
  induction (select soup card_selector) as [|c l IH]; [reflexivity|].
  cbn [forallb List.filter] in *. apply andb_true_iff in Hall as [-> Hl].
  rewrite IH by exact Hl. reflexivity.
Qed.

Lemma item_count_witness :
  length (parse_soup (page [full_card "2" "b"; card_without_rank;
                            full_card "2" "a"])) = 2%nat.
Proof.
  rewrite (proj1 (item_count (page [full_card "2" "b"; card_without_rank;
                                    full_card "2" "a"]))).
  vm_compute. reflexivity.
Defined.

(** X2: no text field of an entry of the output starts or ends with white
    space, and trimming such a field again changes nothing. *)
Theorem fields_are_trimmed (soup : PageElement) (item : HotSearchItem) :
  In item (parse_soup soup) ->
  (trimmed (title item) /\ trimmed (summary item)
   /\ trimmed (hot_score item) /\ trimmed (detail_url item))
  /\ strip (title item) = title item
  /\ strip (summary item) = summary item
  /\ strip (hot_score item) = hot_score item
  /\ strip (detail_url item) = detail_url item.
Proof.
  intros Hin. unfold parse_soup in Hin.
  apply In_sort_by_rank, In_collect_items in Hin as (card & _ & Hp).
  unfold parse_card in Hp. destruct (card_rank card); [|discriminate].
  injection Hp as <-. cbn [title summary hot_score detail_url].
  pose proof (text_or_empty_trimmed (select_one card title_selector)) as Ht.
  pose proof (text_or_empty_trimmed (select_one card summary_selector)) as Hs.
  pose proof (text_or_empty_trimmed (select_one card hot_score_selector)) as Hh.
  pose proof (href_or_empty_trimmed (select_one card detail_link_selector)) as Hd.
  split; [exact (conj Ht (conj Hs (conj Hh Hd)))|].
  repeat split; apply strip_of_trimmed; assumption.
Qed.

Lemma fields_are_trimmed_witness :
  trimmed (pystr "4901234") /\ trimmed (pystr "https://www.baidu.com/s?wd=x").
Proof.
  destruct (fields_are_trimmed (page [full_card "1" "a"])
              {| rank := 1; title := pystr "a"; summary := pystr "about it";
                 hot_score := pystr "4901234";
                 detail_url := pystr "https://www.baidu.com/s?wd=x" |})
    as ((_ & _ & Hs & Hu) & _).
  - vm_compute. left. reflexivity.
  - split; [exact Hs | exact Hu].
Defined.

(** X3: text that is nothing but white space counts as missing.  A card
    whose rank element holds only white space (or nothing) is dropped, and a
    field element, or an [href], that holds only white space gives the empty
    text. *)
Theorem blank_text_counts_as_missing (card t : PageElement) :
  (select_one card rank_selector = Some t -> blank (get_text t) ->
   parse_card card = None)
  /\ (blank (get_text t) -> text_or_empty (Some t) = text_or_empty None)
  /\ (blank (get_attr t (pystr "href")) ->
      href_or_empty (Some t) = href_or_empty None).
Proof.
  split; [|split].
  - intros Hsel Hb. apply parse_card_None. unfold card_rank.
    rewrite Hsel, (strip_blank _ Hb). reflexivity.
  - intros Hb. cbn [text_or_empty]. apply strip_blank, Hb.
  - intros Hb. cbn [href_or_empty].
    destruct (has_attr t (pystr "href")); [apply strip_blank, Hb | reflexivity].
Qed.

Lemma blank_text_counts_as_missing_witness :
  parse_card (bare_card "   ") = None.
Proof.
  apply (proj1 (blank_text_counts_as_missing (bare_card "   ")
                  (div "index_1Ew5p" [NavigableString (pystr "   ")]))).
  - vm_compute. reflexivity.
  - vm_compute. repeat constructor.
Defined.

(** ** Decimal rank text *)

Lemma int_repr_chars (z : Z) :
  Forall (fun c => c = 45 \/ is_digit c = true) (int_repr z).
Proof.
  assert (Hd : forall n, Forall (fun c => c = 45 \/ is_digit c = true) (N_digits n)).
  { intros n. eapply List.Forall_impl; [|apply digits_fuel_digits]. auto. }
  destruct z; cbn [int_repr]; [apply Hd | apply Hd |].
  constructor; [left; reflexivity | apply Hd].
Qed.

Lemma sign_or_digit_plain (c : char) :
  c = 45 \/ is_digit c = true ->
  c < 127 /\ Py_UNICODE_ISSPACE c = false /\ Py_ISSPACE c = false.
Proof.
  unfold is_digit. intros [->|H]; [repeat split; reflexivity|].
  apply andb_true_iff in H as [H1%N.leb_le H2%N.leb_le].
  unfold Py_UNICODE_ISSPACE, Py_ISSPACE.
  split; [lia|]. split; settle_tests;
    rewrite ?(proj2 (N.eqb_neq c _)) by lia; reflexivity.
Qed.

Lemma transform_to_ascii_plain (s : str) :
  Forall (fun c => c < 127) s -> transform_to_ascii s = Some s.
Proof.
  induction 1 as [|c s Hc _ IH]; [reflexivity|].
  cbn [transform_to_ascii]. unfold to_ascii.
  rewrite (proj2 (N.ltb_lt c 127) Hc), IH. reflexivity.
Qed.

Lemma scan_digits_all (ds : str) :
  forall acc digits, Forall (fun c => is_digit c = true) ds ->
    scan_digits false acc digits ds
    = Some (fold_left (fun a c => (10 * a + Z.of_N (c - 48))%Z) ds acc,
            (digits + length ds)%nat, []).
Proof.
  induction ds as [|c ds IH]; intros acc digits Hds.
  - cbn [scan_digits fold_left length]. rewrite Nat.add_0_r. reflexivity.
  - inversion Hds as [|? ? Hc Hrest]; subst.
    cbn [scan_digits fold_left length]. rewrite Hc, IH by exact Hrest.
    rewrite Nat.add_succ_r. reflexivity.
Qed.

Lemma N_digits_cons (n : N) :
  exists c r, N_digits n = c :: r /\ is_digit c = true.
Proof.
  pose proof (digits_fuel_digits (S (N.to_nat (N.log2 n))) n) as Hd.
  fold (N_digits n) in Hd.
  destruct (N_digits n) as [|c r] eqn:E.
  - exfalso. unfold N_digits in E. cbn [digits_fuel] in E.
    destruct (n <? 10); [discriminate|].
    destruct (digits_fuel _ (n / 10)); discriminate.
  - inversion Hd; subst. eauto.
Qed.

Lemma PyLong_FromString_digits (n : N) :
  (length (N_digits n) <= int_max_str_digits)%nat ->
  PyLong_FromString (N_digits n) = Some (Z.of_N n).
Proof.
  intros Hfit%Nat.ltb_ge.
  destruct (N_digits_cons n) as (c & r & E & Hc).
  pose proof (digits_fuel_digits (S (N.to_nat (N.log2 n))) n) as Hd.
  pose proof (digits_fuel_value _ n (N_digits_fuel n)) as Hv.
  fold (N_digits n) in Hd, Hv. rewrite E in *.
  destruct (sign_or_digit_plain c (or_intror Hc)) as (_ & _ & Hsp).
  assert (H43 : (c =? 43) = false).
  { apply N.eqb_neq. unfold is_digit in Hc.
    apply andb_true_iff in Hc as [H1%N.leb_le _]. lia. }
  assert (H45 : (c =? 45) = false).
  { apply N.eqb_neq. unfold is_digit in Hc.
    apply andb_true_iff in Hc as [H1%N.leb_le _]. lia. }
  unfold PyLong_FromString. cbn [skip_spaces]. rewrite Hsp, H43, H45.
  cbv iota beta. rewrite Hc.
  rewrite (scan_digits_all _ 0%Z 0%nat Hd), Nat.add_0_l, Hfit.
  cbn [skip_spaces].
  unfold digits_value in Hv. rewrite Hv. f_equal. lia.
Qed.

(** [int] reads the decimal text of an integer that fits as that integer. *)
Lemma py_int_int_repr (z : Z) :
  int_fits z = true -> py_int (int_repr z) = Some z.
Proof.
  intros Hfit%Nat.leb_le.
  unfold py_int. rewrite transform_to_ascii_plain.
  2:{ eapply List.Forall_impl; [|apply int_repr_chars].
      intros c Hc. apply (sign_or_digit_plain c Hc). }
  destruct z as [|p|p]; cbn [int_repr].
  - reflexivity.
  - apply (PyLong_FromString_digits (N.pos p)), Hfit.
  - change (Z.abs_N (Z.neg p)) with (N.pos p) in Hfit.
    apply Nat.ltb_ge in Hfit.
    destruct (N_digits_cons (N.pos p)) as (c & r & E & Hc).
    pose proof (digits_fuel_digits (S (N.to_nat (N.log2 (N.pos p)))) (N.pos p)) as Hd.
    pose proof (digits_fuel_value _ (N.pos p) (N_digits_fuel (N.pos p))) as Hv.
    fold (N_digits (N.pos p)) in Hd, Hv. rewrite E in *.
    unfold PyLong_FromString. cbn [skip_spaces].
    change (Py_ISSPACE 45) with false. cbv iota beta.
    change (45 =? 43) with false. change (45 =? 45) with true.
    cbv iota beta. rewrite Hc.
    rewrite (scan_digits_all _ 0%Z 0%nat Hd), Nat.add_0_l, Hfit.
    cbn [skip_spaces].
    unfold digits_value in Hv. rewrite Hv. f_equal.
Qed.

Lemma plain_text_trimmed (s : str) :
  Forall (fun c => Py_UNICODE_ISSPACE c = false) s -> trimmed s.
Proof.
  intros H. split.
  - destruct H; [exact I | assumption].
  - apply List.Forall_rev in H. destruct H; [exact I | assumption].
Qed.

(** X4: a rank element whose text is the decimal writing of an integer
    of at most 4300 digits, with any white space around it, gives an entry
    with that integer as its rank: the extractor reads back what the
    snapshotter writes for a rank. *)
Theorem decimal_rank_text (card t : PageElement) (z : Z) (pre post : str) :
  int_fits z = true ->
  select_one card rank_selector = Some t ->
  get_text t = pre ++ int_repr z ++ post ->
  blank pre -> blank post ->
  card_rank card = Some z
  /\ exists item, parse_card card = Some item /\ rank item = z.
Proof.
  intros Hfit Hsel Htext Hpre Hpost.
  assert (Hr : card_rank card = Some z).
  { unfold card_rank. rewrite Hsel, Htext, strip_padding; try assumption.
    - apply py_int_int_repr, Hfit.
    - apply plain_text_trimmed.
      eapply List.Forall_impl; [|apply int_repr_chars].
      intros c Hc. apply (sign_or_digit_plain c Hc). }
  split; [exact Hr|]. unfold parse_card. rewrite Hr.
  eexists. split; reflexivity.
Qed.

Lemma decimal_rank_text_witness :
  card_rank (bare_card " -12 ") = Some (-12)%Z.
Proof.
  apply (decimal_rank_text (bare_card " -12 ")
           (div "index_1Ew5p" [NavigableString (pystr " -12 ")])
           (-12)%Z (pystr " ") (pystr " ")).
  - reflexivity.
  - vm_compute. reflexivity.
  - vm_compute. reflexivity.
  - repeat constructor.
  - repeat constructor.
Defined.

(** * Further properties of the fetcher *)

(** X5: the fetcher returns a body exactly when the request returns and the
    status is outside 400..599, and the body is the text of the response,
    unchanged; a status such as 204 or 304 is not a failure. *)
Theorem fetch_returns_iff (env : Env) (body : str) :
  fetch_hot_search_html env HOT_SEARCH_URL = Ok body <->
  exists r, requests_get env HOT_SEARCH_URL headers 15%Z = Ok r
            /\ ~ (400 <= status_code r < 600)%Z
            /\ body = response_text r.
Proof.
  unfold fetch_hot_search_html.
  destruct (requests_get env HOT_SEARCH_URL headers 15%Z) as [r|e].
  2:{ split; [discriminate | intros (? & ? & _); discriminate]. }
  destruct (raise_for_status r) as [[]|e] eqn:Hs.
  - split.
    + intros [= <-]. exists r. split; [reflexivity|]. split; [|reflexivity].
      intros Hbad. destruct (raise_for_status_raises r Hbad) as (e & He).
      congruence.
    + intros (r' & [= <-] & _ & ->). reflexivity.
  - split; [discriminate|]. intros (r' & [= <-] & Hgood & _).
    exfalso. apply Hgood. unfold raise_for_status in Hs.
    destruct (Z.leb_spec 400 (status_code r)), (Z.ltb_spec (status_code r) 500);
      cbn [andb] in Hs; try lia;
      destruct (Z.leb_spec 500 (status_code r)), (Z.ltb_spec (status_code r) 600);
      cbn [andb] in Hs; try lia; discriminate.
Qed.

Lemma fetch_returns_iff_witness :
  fetch_hot_search_html (sample_env 304 (page [])) HOT_SEARCH_URL
  = Ok (pystr "<html></html>").
Proof.
  apply (proj2 (fetch_returns_iff (sample_env 304 (page []))
                  (pystr "<html></html>"))).
  eexists. split; [reflexivity|]. split; [cbn; lia | reflexivity].
Defined.

(** * Further properties of the snapshotter *)

Lemma json_dump_streams_dirs (env : Env) (path : str) (v : json) (w : World) :
  dirs (json_dump env path v w).2 = dirs w.
Proof.
  destruct (json_dump env path v w) as [r w'] eqn:H.
  apply (json_dump_frame _ _ _ _ _ _ H).
Qed.

(** What a run leaves of the files it does not name, in every outcome. *)
Lemma save_results_frame (env : Env) (items : list HotSearchItem) (w : World) :
  (forall q, q <> daily_path (now env) -> q <> latest_path ->
     files (save_results env items w).2 !! q = files w !! q)
  /\ (dirs (save_results env items w).2 = dirs w
      \/ dirs (save_results env items w).2 = {[ DATA_DIR ]} ∪ dirs w).
Proof.
  unfold save_results, mbind, M_bind, bind, ret.
  destruct (mkdir env DATA_DIR w) as [[[]|e] wa] eqn:Hmk.
  2:{ apply mkdir_inv in Hmk as [(? & _ & ->) | (? & _)]; [|discriminate].
      cbn [snd]. auto. }
  apply mkdir_inv in Hmk
    as [(? & ? & _) | (_ & _ & _ & Hf & Hd & _)]; [discriminate|].
  destruct (json_dump env (daily_path (now env)) _ wa) as [[[]|e] wb] eqn:Hdaily.
  2:{ destruct (json_dump_frame _ _ _ _ _ _ Hdaily) as [Hdb Hfb]. cbn [snd].
      split; [|right; congruence].
      intros q Hq _. rewrite Hfb, Hf by exact Hq. reflexivity. }
  destruct (json_dump_frame _ _ _ _ _ _ Hdaily) as [Hdb Hfb].
  destruct (json_dump env latest_path _ wb) as [[[]|e] wc] eqn:Hlatest;
    destruct (json_dump_frame _ _ _ _ _ _ Hlatest) as [Hdc Hfc]; cbn [snd];
    (split; [|right; congruence]);
    intros q Hq Hq'; rewrite Hfc, Hfb, Hf by assumption; reflexivity.
Qed.

(** X6: whatever its outcome, a run of the snapshotter changes no file
    but the dated file and the latest file, prints nothing, and adds no
    directory but the data directory. *)
Theorem save_results_touches_two_files (env : Env)
  (items : list HotSearchItem) (w : World) :
  (forall q, q <> daily_path (now env) -> q <> latest_path ->
     files (save_results env items w).2 !! q = files w !! q)
  /\ (dirs (save_results env items w).2 = dirs w
      \/ dirs (save_results env items w).2 = {[ DATA_DIR ]} ∪ dirs w)
  /\ stdout (save_results env items w).2 = stdout w
  /\ stderr (save_results env items w).2 = stderr w.
Proof.
  destruct (save_results_frame env items w) as [Hf Hd].
  destruct (save_results_streams env items w) as [Ho He].
  auto.
Qed.

Lemma save_results_touches_two_files_witness :
  files (save_results (sample_env 200 (page [])) sample_items
           (set_file (pystr "data/notes.txt") (Complete [104; 105])
              empty_world)).2
  !! pystr "data/notes.txt" = Some (Complete [104; 105]).
Proof.
  rewrite (proj1 (save_results_touches_two_files (sample_env 200 (page []))
                    sample_items
                    (set_file (pystr "data/notes.txt") (Complete [104; 105])
                       empty_world))).
  - vm_compute. reflexivity.
  - vm_compute. discriminate.
  - vm_compute. discriminate.
Defined.

(** X7: the latest file is written after the dated file.  When a run
    raises, the latest file is as it was before the run, or it is torn and
    the dated file holds the complete new snapshot. *)
Theorem latest_written_last (env : Env) (items : list HotSearchItem)
  (w w' : World) (e : exn) :
  save_results env items w = (Raise e, w') ->
  files w' !! latest_path = files w !! latest_path
  \/ (files w' !! latest_path = Some Torn
      /\ exists bytes,
           json_dump_bytes (payload (now env) items) = Some bytes
           /\ files w' !! daily_path (now env) = Some (Complete bytes)).
Proof.
  unfold save_results, mbind, M_bind, bind, ret.
  destruct (mkdir env DATA_DIR w) as [[[]|e0] wa] eqn:Hmk.
  2:{ apply mkdir_inv in Hmk as [(? & _ & ->) | (? & _)]; [|discriminate].
      intros [= _ <-]. left. reflexivity. }
  apply mkdir_inv in Hmk
    as [(? & ? & _) | (_ & _ & _ & Hf & _)]; [discriminate|].
  destruct (json_dump env (daily_path (now env)) _ wa) as [[[]|e0] wb] eqn:Hdaily.
  2:{ destruct (json_dump_frame _ _ _ _ _ _ Hdaily) as [_ Hfb].
      intros [= _ <-]. left. rewrite Hfb, Hf; [reflexivity|].
      intros E. exact (daily_latest_distinct _ (eq_sym E)). }
  apply json_dump_inv in Hdaily as (bytes & Henc & -> & _).
  assert (Hkeep : files (set_file (daily_path (now env)) (Complete bytes) wa)
                  !! latest_path = files w !! latest_path).
  { unfold set_file. cbn [files]. rewrite lookup_insert_ne, Hf; [reflexivity|].
    exact (daily_latest_distinct _). }
  unfold json_dump.
  destruct (open_fault env latest_path); [intros [= _ <-]; left; exact Hkeep|].
  case_bool_decide; [intros [= _ <-]; left; exact Hkeep|].
  rewrite Henc. destruct (write_fault env latest_path); [|discriminate].
  intros [= _ <-]. right. unfold set_file. cbn [files].
  split; [apply lookup_insert_eq|].
  exists bytes. split; [reflexivity|].
  rewrite lookup_insert_ne
    by (intros E; exact (daily_latest_distinct _ (eq_sym E))).
  apply lookup_insert_eq.
Qed.

Lemma latest_written_last_witness :
  exists w', (save_results env_latest_write_fails sample_items empty_world).2 = w'
             /\ files w' !! latest_path = Some Torn
             /\ exists bytes, files w' !! daily_path sample_clock
                              = Some (Complete bytes).
Proof.
  eexists. split; [reflexivity|].
  destruct (save_results env_latest_write_fails sample_items empty_world)
    as [r w'] eqn:Hrun.
  assert (Hr : exists e, r = Raise e)
    by (apply (f_equal fst) in Hrun; vm_compute in Hrun; subst r; eauto).
  destruct Hr as (e & ->).
  destruct (latest_written_last env_latest_write_fails sample_items
              empty_world w' e Hrun) as [Hsame | (Ht & bytes & _ & Hd)].
  - exfalso. apply (f_equal (fun x => files x.2 !! latest_path)) in Hrun.
    cbn [snd] in Hrun. rewrite Hsame in Hrun. vm_compute in Hrun. discriminate.
  - cbn [snd]. split; [exact Ht | eauto].
Defined.

(** ** File names and dates *)

Lemma digits_value_zeros (k : nat) (d : str) :
  digits_value (repeat 48 k ++ d) = digits_value d.
Proof.
  unfold digits_value. rewrite fold_left_app. f_equal.
  induction k as [|k IH]; [reflexivity | exact IH].
Qed.

Lemma N_digits_value (n : N) : digits_value (N_digits n) = Z.of_N n.
Proof. apply digits_fuel_value, N_digits_fuel. Qed.

Lemma N_digits_inj (a b : N) : N_digits a = N_digits b -> a = b.
Proof.
  intros H. apply (f_equal digits_value) in H.
  rewrite !N_digits_value in H. lia.
Qed.

Lemma zero_pad_inj (width : nat) (a b : N) :
  zero_pad width a = zero_pad width b -> a = b.
Proof.
  intros H. apply (f_equal digits_value) in H. unfold zero_pad in H.
  rewrite !digits_value_zeros, !N_digits_value in H. lia.
Qed.

Lemma zero_pad_2_length (n : N) : n < 100 -> length (zero_pad 2 n) = 2%nat.
Proof.
  intros Hn.
  assert (Hall : forallb (fun k => Nat.eqb (length (zero_pad 2 (N.of_nat k))) 2)
                   (seq 0 100) = true) by (vm_compute; reflexivity).
  rewrite forallb_forall in Hall.
  specialize (Hall (N.to_nat n)). rewrite N2Nat.id in Hall.
  apply Nat.eqb_eq, Hall, in_seq. lia.
Qed.

Lemma daily_path_eq (t : datetime) :
  daily_path t
  = pystr "data/baidu-hotsearch-"
    ++ (N_digits (year t) ++ zero_pad 2 (month t) ++ zero_pad 2 (day t))
    ++ pystr ".json".
Proof. reflexivity. Qed.

(** The dated path determines the date (and the date the path). *)
Lemma daily_path_inj (t1 t2 : datetime) :
  valid_date t1 -> valid_date t2 ->
  daily_path t1 = daily_path t2 -> same_date t1 t2.
Proof.
  intros (_ & Hm1 & _ & Hd1) (_ & Hm2 & _ & Hd2) H.
  rewrite !daily_path_eq in H.
  apply app_inv_head, app_inv_tail in H.
  apply app_inj_2 in H as [Hy H].
  2:{ rewrite !List.length_app, !zero_pad_2_length by lia. reflexivity. }
  apply app_inj_2 in H as [Hm Hd].
  2:{ rewrite !zero_pad_2_length by lia. reflexivity. }
  repeat split;
    [apply N_digits_inj, Hy | apply (zero_pad_inj 2), Hm
     | apply (zero_pad_inj 2), Hd].
Qed.

Lemma same_date_daily_path (t1 t2 : datetime) :
  same_date t1 t2 -> daily_path t1 = daily_path t2.
Proof.
  intros (Hy & Hm & Hd). unfold daily_path, strftime_Ymd.
  rewrite Hy, Hm, Hd. reflexivity.
Qed.

(** X8: the name of the dated file depends on the calendar date only and
    tells dates apart: two clock readings give the same dated path exactly
    when they agree on year, month and day; the dated path is never the
    path of the latest file. *)
Theorem dated_path_per_day (t1 t2 : datetime) :
  valid_date t1 -> valid_date t2 ->
  (daily_path t1 = daily_path t2 <-> same_date t1 t2)
  /\ daily_path t1 <> latest_path.
Proof.
  intros H1 H2. split; [|apply daily_latest_distinct].
  split; [apply daily_path_inj; assumption | apply same_date_daily_path].
Qed.

Lemma dated_path_per_day_witness :
  (daily_path sample_clock = daily_path late_that_day
   <-> same_date sample_clock late_that_day)
  /\ daily_path sample_clock <> latest_path.
Proof.
  apply (dated_path_per_day sample_clock late_that_day);
    repeat split; cbn; lia.
Defined.

(** X9: a run leaves the dated files of other days as they are, in every
    outcome. *)
Theorem other_days_kept (env : Env) (items : list HotSearchItem) (w : World)
  (t : datetime) :
  valid_date t -> valid_date (now env) -> ~ same_date t (now env) ->
  files (save_results env items w).2 !! daily_path t
  = files w !! daily_path t.
Proof.
  intros Ht Hnow Hother.
  apply (proj1 (save_results_frame env items w)).
  - intros E. apply Hother, daily_path_inj; assumption.
  - apply daily_latest_distinct.
Qed.

Lemma other_days_kept_witness :
  files (save_results (sample_env 200 (page [])) sample_items
           (set_file (daily_path day_before) (Complete [123; 125])
              empty_world)).2
  !! daily_path day_before = Some (Complete [123; 125]).
Proof.
  rewrite (other_days_kept (sample_env 200 (page [])) sample_items
             (set_file (daily_path day_before) (Complete [123; 125])
                empty_world) day_before).
  - unfold set_file. cbn [files]. apply lookup_insert_eq.
  - repeat split; cbn; lia.
  - repeat split; cbn; lia.
  - intros (_ & _ & Hd). cbn in Hd. discriminate.
Defined.

(** * Further properties of the entry point *)

(** X10: a run that returns 0 has fetched a page, extracted at least one
    entry from it and left, under both paths, the bytes of the snapshot of
    exactly those entries: decoded and parsed they give the envelope of the
    extractor's output; the run has printed one message on the standard
    output and nothing on the error stream. *)
Theorem exit_zero_end_to_end (env : Env) (w w' : World) :
  main env w = (Ok 0%Z, w') ->
  exists html soup bytes text,
    fetch_hot_search_html env HOT_SEARCH_URL = Ok html
    /\ html_parser env html = Ok soup
    /\ parse_soup soup <> []
    /\ files w' !! daily_path (now env) = Some (Complete bytes)
    /\ files w' !! latest_path = Some (Complete bytes)
    /\ json_dumps (payload (now env) (parse_soup soup)) = Some text
    /\ utf8_decode bytes = Some text
    /\ json_loads text = Some (payload (now env) (parse_soup soup))
    /\ stdout w' = stdout w
                   ++ [saved_message (parse_soup soup) (daily_path (now env))]
    /\ stderr w' = stderr w.
Proof.
  intros Hmain.
  destruct (fetch_hot_search_html env HOT_SEARCH_URL) as [html|e] eqn:Hf.
  2:{ rewrite (main_fetch_raises env w e Hf) in Hmain. discriminate. }
  destruct (parse_hot_search env html) as [items|e] eqn:Hp.
  2:{ rewrite (main_parse_raises env w html e Hf Hp) in Hmain. discriminate. }
  destruct items as [|i items].
  { rewrite (main_no_items env w html Hf Hp) in Hmain. discriminate. }
  rewrite (main_saves env w html (i :: items) Hf Hp ltac:(discriminate)) in Hmain.
  destruct (save_results env (i :: items) w) as [[d|e] w1] eqn:Hs;
    [|discriminate].
  injection Hmain as <-.
  apply parse_hot_search_inv in Hp as (soup & Hsoup & Hitems).
  destruct (proj1 (save_results_spec env (i :: items) w) d w1 Hs)
    as (-> & bytes & Hd & Hl & Htext & _ & Hdec).
  destruct (save_results_streams env (i :: items) w) as [Ho He].
  rewrite Hs in Ho, He. cbn [snd] in Ho, He.
  exists html, soup, bytes, (snapshot_layout (now env) (i :: items)).
  rewrite <- Hitems.
  split; [reflexivity|]. split; [exact Hsoup|]. split; [discriminate|].
  cbn [log_out files stdout stderr]. rewrite Ho, He.
  repeat split; try assumption.
  apply (json_loads_dumps _ _ (payload_wf _ _) Htext).
Qed.

Lemma exit_zero_end_to_end_witness :
  exists bytes w',
    main (sample_env 200 (page [full_card "2" "b"; full_card "1" "a"]))
      empty_world = (Ok 0%Z, w')
    /\ files w' !! latest_path = Some (Complete bytes)
    /\ stderr w' = [].
Proof.
  destruct (main (sample_env 200 (page [full_card "2" "b"; full_card "1" "a"]))
              empty_world) as [r w'] eqn:Hrun.
  assert (r = Ok 0%Z) as ->
    by (apply (f_equal fst) in Hrun; vm_compute in Hrun; congruence).
  destruct (exit_zero_end_to_end _ _ _ Hrun)
    as (html & soup & bytes & text & _ & _ & _ & _ & Hl & _ & _ & _ & _ & He).
  exists bytes, w'. auto.
Defined.



(** ** Running the job again *)

Lemma mkdir_same_fs (env : Env) (path : str) (w1 w2 : World) :
  same_fs w1 w2 ->
  (mkdir env path w1).1 = (mkdir env path w2).1
  /\ same_fs (mkdir env path w1).2 (mkdir env path w2).2.
Proof.
  intros [Hf Hd]. unfold mkdir, same_fs. rewrite Hf, Hd.
  destruct (mkdir_fault env path); [auto|].
  case_bool_decide; cbn [fst snd files dirs]; auto.
Qed.

Lemma json_dump_same_fs (env : Env) (path : str) (v : json) (w1 w2 : World) :
  same_fs w1 w2 ->
  (json_dump env path v w1).1 = (json_dump env path v w2).1
  /\ same_fs (json_dump env path v w1).2 (json_dump env path v w2).2.
Proof.
  intros [Hf Hd]. unfold json_dump, same_fs, set_file. rewrite Hd.
  destruct (open_fault env path); [auto|].
  case_bool_decide; [auto|].
  destruct (json_dump_bytes v); [destruct (write_fault env path)|];
    cbn [fst snd files dirs]; rewrite Hf; auto.
Qed.

(** The snapshotter looks at files and directories only. *)
Lemma save_results_same_fs (env : Env) (items : list HotSearchItem)
  (w1 w2 : World) :
  same_fs w1 w2 ->
  (save_results env items w1).1 = (save_results env items w2).1
  /\ same_fs (save_results env items w1).2 (save_results env items w2).2.
Proof.
  intros H. unfold save_results, mbind, M_bind, bind, ret.
  destruct (mkdir_same_fs env DATA_DIR w1 w2 H) as [Hr Hs].
  destruct (mkdir env DATA_DIR w1) as [[[]|e1] wa1],
    (mkdir env DATA_DIR w2) as [[[]|e2] wa2]; cbn [fst snd] in *;
    try discriminate; [|injection Hr as <-; auto].
  destruct (json_dump_same_fs env (daily_path (now env))
              (payload (now env) items) wa1 wa2 Hs) as [Hr2 Hs2].
  destruct (json_dump env (daily_path (now env)) _ wa1) as [[[]|e1] wb1],
    (json_dump env (daily_path (now env)) _ wa2) as [[[]|e2] wb2];
    cbn [fst snd] in *; try discriminate; [|injection Hr2 as <-; auto].
  destruct (json_dump_same_fs env latest_path
              (payload (now env) items) wb1 wb2 Hs2) as [Hr3 Hs3].
  destruct (json_dump env latest_path _ wb1) as [[[]|e1] wc1],
    (json_dump env latest_path _ wb2) as [[[]|e2] wc2];
    cbn [fst snd] in *; try discriminate; [auto | injection Hr3 as <-; auto].
Qed.

(** X12: running the job again under the same conditions (the same answer
    of the network, clock and faults) gives the same exit code and leaves
    files and directories as the first run left them. *)
Theorem main_again (env : Env) (w : World) :
  (main env (main env w).2).1 = (main env w).1
  /\ same_fs (main env (main env w).2).2 (main env w).2.
Proof.
  destruct (fetch_hot_search_html env HOT_SEARCH_URL) as [html|e] eqn:Hf.
  2:{ rewrite (main_fetch_raises env w e Hf). cbn [fst snd].
      rewrite (main_fetch_raises env _ e Hf). split; [reflexivity | split; reflexivity]. }
  destruct (parse_hot_search env html) as [items|e] eqn:Hp.
  2:{ rewrite (main_parse_raises env w html e Hf Hp). cbn [fst snd].
      rewrite (main_parse_raises env _ html e Hf Hp). split; [reflexivity | split; reflexivity]. }
  destruct items as [|i items].
  { rewrite (main_no_items env w html Hf Hp). cbn [fst snd].
    rewrite (main_no_items env _ html Hf Hp). split; [reflexivity | split; reflexivity]. }
  pose proof (fun w0 => main_saves env w0 html (i :: items) Hf Hp
                          ltac:(discriminate)) as Hm.
  rewrite (Hm w).
  pose proof (save_results_fixed_point env (i :: items) w) as Hfix.
  destruct (save_results env (i :: items) w) as [r ws] eqn:Hs.
  cbn [snd] in Hfix.
  assert (Hlog : forall w1, same_fs w1 ws ->
            (main env w1).1 = match r with Ok _ => Ok 0%Z | Raise _ => Ok 1%Z end
            /\ same_fs (main env w1).2 ws).
  { intros w1 H1. rewrite (Hm w1).
    destruct (save_results_same_fs env (i :: items) w1 ws H1) as [Hr Hfs].
    rewrite Hfix in Hr, Hfs. cbn [fst snd] in Hr, Hfs.
    destruct (save_results env (i :: items) w1) as [r1 w1']. cbn [fst snd] in *.
    subst r1. destruct r; cbn [fst snd]; split; try reflexivity; exact Hfs. }
  destruct r as [d|e]; cbn [fst snd].
  - destruct (Hlog (log_out (saved_message (i :: items) d) ws)
                (conj eq_refl eq_refl)) as [Hc Hfs].
    split; [exact Hc | exact Hfs].
  - destruct (Hlog (log_err (error_message e) ws) (conj eq_refl eq_refl))
      as [Hc Hfs].
    split; [exact Hc | exact Hfs].
Qed.

Lemma main_again_witness :
  (main (sample_env 200 (page [full_card "1" "a"]))
     (main (sample_env 200 (page [full_card "1" "a"])) empty_world).2).1
  = Ok 0%Z.
Proof.
  rewrite (proj1 (main_again (sample_env 200 (page [full_card "1" "a"]))
                    empty_world)).
  vm_compute. reflexivity.
Defined.

(** * Document order and the output *)

Lemma collect_items_Permutation (c1 c2 : list PageElement) :
  Permutation c1 c2 -> Permutation (collect_items c1) (collect_items c2).
Proof.
  induction 1 as [|x l l' _ IH|x y l|l l' l'' _ IH1 _ IH2].
  - reflexivity.
  - cbn [collect_items]. destruct (parse_card x); [constructor|]; exact IH.
  - cbn [collect_items]. destruct (parse_card x), (parse_card y);
      try reflexivity. apply perm_swap.
  - etransitivity; eassumption.
Qed.

Lemma filter_has_rank_Permutation (r : Z) (l1 l2 : list HotSearchItem) :
  Permutation l1 l2 ->
  Permutation (List.filter (has_rank r) l1) (List.filter (has_rank r) l2).
Proof.
  induction 1 as [|x l l' _ IH|x y l|l l' l'' _ IH1 _ IH2].
  - reflexivity.
  - cbn [List.filter]. destruct (has_rank r x); [constructor|]; exact IH.
  - cbn [List.filter]. destruct (has_rank r x), (has_rank r y);
      try reflexivity. apply perm_swap.
  - etransitivity; eassumption.
Qed.

Lemma filter_distinct_short (r : Z) (l : list HotSearchItem) :
  List.NoDup (List.map rank l) ->
  (length (List.filter (has_rank r) l) <= 1)%nat.
Proof.
  induction l as [|x l IH]; cbn [List.map List.filter]; [cbn; lia|].
  intros Hnd. apply List.NoDup_cons_iff in Hnd as [Hnotin Hnd].
  specialize (IH Hnd). unfold has_rank at 1.
  destruct (Z.eqb_spec (rank x) r) as [<-|_]; [|exact IH].
  destruct (List.filter (has_rank (rank x)) l) as [|y f] eqn:E; [cbn; lia|].
  exfalso. apply Hnotin.
  assert (Hy : In y (List.filter (has_rank (rank x)) l))
    by (rewrite E; left; reflexivity).
  apply List.filter_In in Hy as [Hin Hr].
  unfold has_rank in Hr. apply Z.eqb_eq in Hr. rewrite <- Hr.
  apply List.in_map, Hin.
Qed.

Lemma short_Permutation_eq {A} (a b : list A) :
  (length a <= 1)%nat -> Permutation a b -> a = b.
Proof.
  destruct a as [|x [|y a]]; cbn [length]; intros Hlen Hp; [| |lia].
  - symmetry. apply Permutation_nil, Hp.
  - symmetry. apply Permutation_length_1_inv, Hp.
Qed.

(** The sort makes the order of entries with distinct ranks irrelevant. *)
Lemma sort_by_rank_order_free (l1 l2 : list HotSearchItem) :
  Permutation l1 l2 -> List.NoDup (List.map rank l1) ->
  sort_by_rank l1 = sort_by_rank l2.
Proof.
  intros Hp Hnd.
  apply stable_sort_unique; try apply sort_by_rank_sorted.
  intros r. rewrite !sort_by_rank_stable.
  apply short_Permutation_eq;
    [apply filter_distinct_short, Hnd | apply filter_has_rank_Permutation, Hp].
Qed.

(** X13: when the ranks are distinct, the order of the cards in the
    document does not matter: two pages whose cards are the same up to
    order give the same output. *)
Theorem document_order_is_irrelevant (soup1 soup2 : PageElement) :
  Permutation (select soup1 card_selector) (select soup2 card_selector) ->
  List.NoDup (List.map rank (collect_items (select soup1 card_selector))) ->
  parse_soup soup1 = parse_soup soup2.
Proof.
  intros Hp Hnd. unfold parse_soup.
  apply sort_by_rank_order_free; [apply collect_items_Permutation, Hp | exact Hnd].
Qed.

Lemma document_order_is_irrelevant_witness :
  parse_soup (page [full_card "2" "b"; full_card "1" "a"; bare_card "3"])
  = parse_soup (page [bare_card "3"; full_card "1" "a"; full_card "2" "b"]).
Proof.
  apply document_order_is_irrelevant.
  - change (select (page [full_card "2" "b"; full_card "1" "a"; bare_card "3"])
              card_selector)
      with [full_card "2" "b"; full_card "1" "a"; bare_card "3"].
    change (select (page [bare_card "3"; full_card "1" "a"; full_card "2" "b"])
              card_selector)
      with [bare_card "3"; full_card "1" "a"; full_card "2" "b"].
    apply (perm_trans (l' := [full_card "2" "b"; bare_card "3"; full_card "1" "a"]));
      [apply perm_skip, perm_swap|].
    apply (perm_trans (l' := [bare_card "3"; full_card "2" "b"; full_card "1" "a"]));
      [apply perm_swap | apply perm_skip, perm_swap].
  - vm_compute. repeat constructor; cbn; intuition discriminate.
Defined.

(** * The empty list *)

(** X14: the snapshotter does not refuse an empty list: whenever the
    filesystem accepts its calls it writes a snapshot with no entry, which
    reads back as the envelope with an empty [items]; only the entry point
    treats an empty result as a failure. *)
Theorem save_results_empty (env : Env) (w : World) :
  fs_accepts env w ->
  exists bytes w' text,
    save_results env [] w = (Ok (daily_path (now env)), w')
    /\ files w' !! daily_path (now env) = Some (Complete bytes)
    /\ files w' !! latest_path = Some (Complete bytes)
    /\ json_dumps (payload (now env) []) = Some text
    /\ utf8_decode bytes = Some text
    /\ json_loads text
       = Some (JDict [ (pystr "generated_at", JStr (isoformat (now env)));
                       (pystr "items", JList []) ]).
Proof.
  intros Hfs.
  destruct (proj2 (save_results_spec env [] w) Hfs (List.Forall_nil _))
    as (w' & Hrun).
  destruct (proj1 (save_results_spec env [] w) _ w' Hrun)
    as (_ & bytes & Hd & Hl & Htext & _ & Hdec).
  exists bytes, w', (snapshot_layout (now env) []).
  repeat split; try assumption.
  apply (json_loads_dumps _ _ (payload_wf (now env) []) Htext).
Qed.

Lemma save_results_empty_witness :
  exists bytes w',
    save_results (sample_env 200 (page [])) [] empty_world
    = (Ok (daily_path sample_clock), w')
    /\ files w' !! latest_path = Some (Complete bytes).
Proof.
  destruct (save_results_empty (sample_env 200 (page [])) empty_world
              (sample_fs_accepts _ _))
    as (bytes & w' & text & Hrun & _ & Hl & _).
  exists bytes, w'. auto.
Defined.

(** * The limit on the digits of an integer *)

Lemma digits_fuel_nonempty (f : nat) (n : N) : digits_fuel (S f) n <> [].
Proof.
  cbn [digits_fuel]. destruct (n <? 10); [discriminate|].
  destruct (digits_fuel f (n / 10)); discriminate.
Qed.

Lemma digits_fuel_length (f : nat) :
  forall (n : N) (k : nat),
    n < 2 ^ N.of_nat f -> (1 <= k)%nat ->
    ((length (digits_fuel f n) <= k)%nat <-> n < 10 ^ N.of_nat k).
Proof.
  induction f as [|f IH]; intros n k Hn Hk;
    assert (Hpow : 10 ^ 1 <= 10 ^ N.of_nat k)
      by (apply N.pow_le_mono_r; lia);
    rewrite N.pow_1_r in Hpow.
  - cbn in Hn. cbn [digits_fuel length]. split; lia.
  - cbn [digits_fuel]. destruct (N.ltb_spec n 10) as [Hlt|Hge].
    + cbn [length]. split; lia.
    + rewrite List.length_app. cbn [length].
      destruct k as [|[|k]]; [lia| |].
      * split; [|cbn; lia]. intros Hlen. exfalso.
        destruct f as [|f].
        -- apply fuel_step in Hn; [|exact Hge]. cbn in Hn. nlia.
        -- pose proof (digits_fuel_nonempty f (n / 10)) as Hne.
           destruct (digits_fuel (S f) (n / 10)); [congruence|].
           cbn [length] in Hlen. lia.
      * rewrite Nat.add_1_r, <- Nat.succ_le_mono.
        rewrite (IH (n / 10) (S k)) by (try apply fuel_step; lia).
        rewrite (Nat2N.inj_succ (S k)), N.pow_succ_r'.
        split; intros; nlia.
Qed.

(** A number has at most [k] digits exactly when it is below the [k]-th
    power of ten. *)
Lemma N_digits_length (n : N) (k : nat) :
  (1 <= k)%nat ->
  ((length (N_digits n) <= k)%nat <-> n < 10 ^ N.of_nat k).
Proof. intros Hk. apply digits_fuel_length; [apply N_digits_fuel | exact Hk]. Qed.

(** The integers the interpreter converts are those of absolute value
    below ten to the power 4300. *)
Lemma int_fits_spec (z : Z) :
  int_fits z = true <-> (Z.abs z < 10 ^ Z.of_nat int_max_str_digits)%Z.
Proof.
  unfold int_fits. rewrite Nat.leb_le, N_digits_length
    by (unfold int_max_str_digits; lia).
  rewrite N2Z.inj_lt, N2Z.inj_pow, N2Z.inj_abs_N, nat_N_Z. reflexivity.
Qed.

Lemma int_fits_power : int_fits (10 ^ Z.of_nat int_max_str_digits) = false.
Proof.
  destruct (int_fits _) eqn:E; [|reflexivity].
  apply int_fits_spec in E. lia.
Qed.

(** The value the scanning loop reads is below ten to the number of the
    digits it counted. *)
Lemma scan_digits_bound (s : str) :
  forall us acc d v d' rest,
    scan_digits us acc d s = Some (v, d', rest) ->
    (0 <= acc < 10 ^ Z.of_nat d)%Z -> (0 <= v < 10 ^ Z.of_nat d')%Z.
Proof.
  induction s as [|c s IH]; intros us acc d v d' rest; cbn [scan_digits].
  - destruct us; [discriminate|]. intros [= <- <- <-]. auto.
  - destruct (is_digit c) eqn:Hc.
    + intros H Hacc. apply (IH _ _ _ _ _ _ H).
      unfold is_digit in Hc.
      apply andb_true_iff in Hc as [H1%N.leb_le H2%N.leb_le].
      rewrite Nat2Z.inj_succ, Z.pow_succ_r by lia. lia.
    + destruct (c =? underscore).
      * destruct us; [discriminate|]. intros H Hacc.
        apply (IH _ _ _ _ _ _ H Hacc).
      * destruct us; [discriminate|]. intros [= <- <- <-]. auto.
Qed.

Lemma PyLong_FromString_fits (s : str) (z : Z) :
  PyLong_FromString s = Some z -> int_fits z = true.
Proof.
  assert (H : forall (sign : Z) (s2 : str),
             (sign = 1 \/ sign = -1)%Z ->
             match s2 with
             | c :: _ =>
                 if is_digit c then
                   match scan_digits false 0%Z 0%nat s2 with
                   | Some (v, digits, rest) =>
                       if (int_max_str_digits <? digits)%nat then None
                       else match skip_spaces rest with
                            | [] => Some (sign * v)%Z
                            | _ => None
                            end
                   | None => None
                   end
                 else None
             | [] => None
             end = Some z -> int_fits z = true).
  { intros sign s2 Hsign. destruct s2 as [|c r]; [discriminate|].
    destruct (is_digit c); [|discriminate].
    destruct (scan_digits false 0 0 (c :: r)) as [[[v d] rest]|] eqn:E;
      [|discriminate].
    destruct (Nat.ltb_spec int_max_str_digits d) as [|Hd]; [discriminate|].
    destruct (skip_spaces rest); [|discriminate]. intros [= <-].
    apply scan_digits_bound in E; [|cbn; lia].
    apply int_fits_spec.
    assert (10 ^ Z.of_nat d <= 10 ^ Z.of_nat int_max_str_digits)%Z
      by (apply Z.pow_le_mono_r; lia).
    destruct Hsign as [-> | ->]; lia. }
  unfold PyLong_FromString.
  destruct (skip_spaces s) as [|c r]; [apply (H 1%Z []); auto|].
  destruct (c =? 43); [apply (H 1%Z r); auto|].
  destruct (c =? 45); [apply (H (-1)%Z r) | apply (H 1%Z (c :: r))]; auto.
Qed.

(** [int] answers with integers that fit only. *)
Lemma py_int_fits (s : str) (z : Z) : py_int s = Some z -> int_fits z = true.
Proof.
  unfold py_int. destruct (transform_to_ascii s); [|discriminate].
  apply PyLong_FromString_fits.
Qed.

Lemma parse_soup_ranks_fit (soup : PageElement) :
  Forall (fun i => int_fits (rank i) = true) (parse_soup soup).
Proof.
  apply List.Forall_forall. intros item Hin. unfold parse_soup in Hin.
  apply In_sort_by_rank, In_collect_items in Hin as (card & _ & Hp).
  unfold parse_card in Hp. destruct (card_rank card) as [r|] eqn:Hr;
    [|discriminate].
  injection Hp as <-. cbn [rank].
  unfold card_rank in Hr.
  destruct (select_one card rank_selector); [|discriminate].
  exact (py_int_fits _ _ Hr).
Qed.

(** A numeral of more than 4300 digits is refused. *)
Lemma PyLong_FromString_too_long (n : N) :
  (int_max_str_digits < length (N_digits n))%nat ->
  PyLong_FromString (N_digits n) = None.
Proof.
  intros Hlong%Nat.ltb_lt.
  destruct (N_digits_cons n) as (c & r & E & Hc).
  pose proof (digits_fuel_digits (S (N.to_nat (N.log2 n))) n) as Hd.
  fold (N_digits n) in Hd. rewrite E in *.
  destruct (sign_or_digit_plain c (or_intror Hc)) as (_ & _ & Hsp).
  assert (H43 : (c =? 43) = false).
  { apply N.eqb_neq. unfold is_digit in Hc.
    apply andb_true_iff in Hc as [H1%N.leb_le _]. lia. }
  assert (H45 : (c =? 45) = false).
  { apply N.eqb_neq. unfold is_digit in Hc.
    apply andb_true_iff in Hc as [H1%N.leb_le _]. lia. }
  unfold PyLong_FromString. cbn [skip_spaces]. rewrite Hsp, H43, H45.
  cbv iota beta. rewrite Hc.
  rewrite (scan_digits_all _ 0%Z 0%nat Hd), Nat.add_0_l, Hlong.
  reflexivity.
Qed.

(** [int] refuses the decimal text of an integer that does not fit. *)
Lemma py_int_too_long (z : Z) :
  int_fits z = false -> py_int (int_repr z) = None.
Proof.
  intros Hi. unfold py_int. rewrite transform_to_ascii_plain.
  2:{ eapply List.Forall_impl; [|apply int_repr_chars].
      intros c Hc. apply (sign_or_digit_plain c Hc). }
  unfold int_fits in Hi. apply Nat.leb_gt in Hi.
  destruct z as [|p|p]; cbn [int_repr].
  - exfalso. revert Hi. unfold int_max_str_digits. cbn. lia.
  - apply (PyLong_FromString_too_long (N.pos p)), Hi.
  - change (Z.abs_N (Z.neg p)) with (N.pos p) in Hi.
    apply Nat.ltb_lt in Hi.
    destruct (N_digits_cons (N.pos p)) as (c & r & E & Hc).
    pose proof (digits_fuel_digits (S (N.to_nat (N.log2 (N.pos p))))
                  (N.pos p)) as Hd.
    fold (N_digits (N.pos p)) in Hd. rewrite E in *.
    unfold PyLong_FromString. cbn [skip_spaces].
    change (Py_ISSPACE 45) with false. cbv iota beta.
    change (45 =? 43) with false. change (45 =? 45) with true.
    cbv iota beta. rewrite Hc.
    rewrite (scan_digits_all _ 0%Z 0%nat Hd), Nat.add_0_l, Hi.
    reflexivity.
Qed.

(** The scanner of [json] refuses the literal of an integer that does not
    fit. *)
Lemma match_number_too_long (z : Z) (rest : str) :
  int_fits z = false ->
  number_stop rest ->
  match_number (int_repr z ++ rest) = None.
Proof.
  intros Hi [Hstop Hfloat]. unfold int_fits in Hi.
  apply Nat.leb_gt, Nat.ltb_lt in Hi.
  destruct z as [|p|p]; cbn [int_repr].
  - exfalso. apply Nat.ltb_lt in Hi. revert Hi.
    unfold int_max_str_digits. cbn. lia.
  - change (Z.abs_N (Z.pos p)) with (Z.to_N (Z.pos p)) in Hi.
    destruct (take_positive_digits (Z.to_N (Z.pos p)) rest)
      as (c & r & -> & Hd & H48 & H45 & Htake & Hval); [lia | exact Hstop |].
    unfold match_number. rewrite H45, Hd, H48, Htake, Hfloat, Hi.
    reflexivity.
  - change (Z.abs_N (Z.neg p)) with (N.pos p) in Hi.
    destruct (take_positive_digits (N.pos p) rest)
      as (c & r & E & Hd & H48 & H45 & Htake & Hval); [lia | exact Hstop |].
    cbn [app]. unfold match_number. change (45 =? 45) with true.
    cbv iota beta. rewrite E, Hd, H48, Htake, Hfloat, Hi.
    reflexivity.
Qed.

Lemma json_loads_too_long (z : Z) :
  int_fits z = false -> json_loads (int_repr z) = None.
Proof.
  intros Hi.
  pose proof (match_number_too_long z [] Hi number_stop_nil) as Hm.
  rewrite app_nil_r in Hm.
  destruct (int_repr_start z) as (c & r & E & Hc). rewrite E in *.
  unfold json_loads.
  assert ((c =? 65279) = false) as -> by (apply N.eqb_neq; lia).
  rewrite skip_ws_start
    by (apply term_start_not_ws; unfold term_start; lia).
  rewrite scan_once_number by exact Hc. rewrite Hm. reflexivity.
Qed.

(** The state a save leaves when [json.dump] cannot write the envelope. *)
Lemma save_results_refused (env : Env) (items : list HotSearchItem)
  (w : World) :
  fs_accepts env w ->
  json_dump_bytes (payload (now env) items) = None ->
  save_results env items w
  = (Raise (dump_error env (payload (now env) items)),
     {| files := <[daily_path (now env) := Torn]> (files w);
        dirs := {[ DATA_DIR ]} ∪ dirs w;
        stdout := stdout w; stderr := stderr w |}).
Proof.
  intros (Hmk & Hnofile & Hod & Hdd & Hwd & Hol & Hld & Hwl) Henc.
  unfold save_results, mbind, M_bind, bind, mkdir.
  rewrite Hmk. rewrite bool_decide_eq_false_2
    by (rewrite Hnofile; intros [? ?]; discriminate).
  unfold json_dump at 1. cbn [files dirs stdout stderr].
  rewrite Hod. rewrite bool_decide_eq_false_2.
  2:{ intros [Hin%elem_of_singleton|Hin]%elem_of_union;
        [exact (daily_not_data_dir _ Hin) | exact (Hdd Hin)]. }
  rewrite Henc. reflexivity.
Qed.

(** X15: every rank the extractor produces is one [int] accepted, of
    absolute value below ten to the power 4300; so the encoder never
    refuses the envelope of what the extractor produced, and gives the text
    the specification lays out. *)
Theorem extracted_ranks_fit (soup : PageElement) (t : datetime) :
  Forall (fun i => (Z.abs (rank i) < 10 ^ Z.of_nat int_max_str_digits)%Z)
    (parse_soup soup)
  /\ json_dumps (payload t (parse_soup soup))
     = Some (snapshot_layout t (parse_soup soup)).
Proof.
  pose proof (parse_soup_ranks_fit soup) as Hfit. split.
  - eapply List.Forall_impl; [|exact Hfit].
    intros i Hi. apply int_fits_spec, Hi.
  - apply json_dumps_payload. auto.
Qed.

(** X16: a rank of more than 4300 digits makes the save fail: the encoder
    gives no text, the save raises the exception of [json.dump] after the
    dated file was opened, and the latest file is not touched.  The text of
    such a rank is also one that [int] refuses, so that the extractor drops
    the card. *)
Theorem rank_too_long_is_refused (env : Env) (items : list HotSearchItem)
  (w : World) :
  fs_accepts env w ->
  Exists (fun i => int_fits (rank i) = false) items ->
  json_dumps (payload (now env) items) = None
  /\ (exists w',
        save_results env items w
        = (Raise (dump_error env (payload (now env) items)), w')
        /\ files w' !! daily_path (now env) = Some Torn
        /\ files w' !! latest_path = files w !! latest_path)
  /\ (forall i, In i items -> int_fits (rank i) = false ->
        py_int (int_repr (rank i)) = None).
Proof.
  intros Hfs Hlong.
  assert (Hnone : json_dumps (payload (now env) items) = None).
  { destruct (json_dumps _) as [text|] eqn:E; [|reflexivity].
    apply json_dumps_payload in E as [Hfit _].
    apply List.Exists_exists in Hlong as (i & Hin & Hi).
    rewrite List.Forall_forall in Hfit. specialize (Hfit i Hin). congruence. }
  split; [exact Hnone|]. split.
  - eexists. split.
    + apply save_results_refused; [exact Hfs|].
      unfold json_dump_bytes. rewrite Hnone. reflexivity.
    + cbn [files]. split; [apply lookup_insert_eq|].
      apply lookup_insert_ne. apply daily_latest_distinct.
  - intros i _ Hi. apply py_int_too_long, Hi.
Qed.

Lemma rank_too_long_is_refused_witness :
  let items := [ {| rank := 10 ^ Z.of_nat int_max_str_digits;
                    title := pystr "a"; summary := []; hot_score := [];
                    detail_url := [] |} ] in
  json_dumps (payload sample_clock items) = None
  /\ exists w',
       save_results (sample_env 200 (page [])) items empty_world
       = (Raise (dump_error (sample_env 200 (page []))
                   (payload sample_clock items)), w')
       /\ files w' !! daily_path sample_clock = Some Torn
       /\ files w' !! latest_path = None.
Proof.
  cbv zeta.
  destruct (rank_too_long_is_refused (sample_env 200 (page []))
              [ {| rank := 10 ^ Z.of_nat int_max_str_digits;
                   title := pystr "a"; summary := []; hot_score := [];
                   detail_url := [] |} ] empty_world)
    as (Hnone & (w' & Hrun & Hd & Hl) & _).
  - apply sample_fs_accepts.
  - constructor. cbn [rank]. apply int_fits_power.
  - split; [exact Hnone|]. exists w'. auto.
Defined.

(** The limit at its boundary: the largest integer of 4300 digits goes
    through [int], [json.dumps] and [json.loads]; the next integer, the
    first of 4301 digits, is refused by all three. *)
Example digit_limit_boundary :
  let top := (10 ^ Z.of_nat int_max_str_digits)%Z in
  py_int (int_repr (top - 1)) = Some (top - 1)%Z
  /\ json_dumps (JInt (top - 1)) = Some (int_repr (top - 1))
  /\ json_loads (int_repr (top - 1)) = Some (JInt (top - 1))
  /\ py_int (int_repr top) = None
  /\ json_dumps (JInt top) = None
  /\ json_loads (int_repr top) = None
  /\ py_int (int_repr (- top)) = None.
Proof.
  cbv zeta.
  set (top := (10 ^ Z.of_nat int_max_str_digits)%Z).
  assert (Htop : (0 < top)%Z) by (apply Z.pow_pos_nonneg; lia).
  assert (Hin : int_fits (top - 1) = true)
    by (apply int_fits_spec; fold top; lia).
  assert (Hout : int_fits top = false) by apply int_fits_power.
  assert (Hneg : int_fits (- top) = false).
  { destruct (int_fits (- top)) eqn:E; [|reflexivity].
    apply int_fits_spec in E. fold top in E. lia. }
  assert (Hdump : json_dumps (JInt (top - 1)) = Some (int_repr (top - 1))).
  { unfold json_dumps. cbn [encode]. unfold int_to_str. rewrite Hin.
    reflexivity. }
  split; [apply py_int_int_repr, Hin|]. split; [exact Hdump|].
  split; [apply (json_loads_dumps (JInt (top - 1)) _ I Hdump)|].
  split; [apply py_int_too_long, Hout|].
  split; [unfold json_dumps; cbn [encode]; unfold int_to_str;
          rewrite Hout; reflexivity|].
  split; [apply json_loads_too_long, Hout | apply py_int_too_long, Hneg].
Qed.
